(** * Multi-IC Tester: the SRAM strategy and its bus port

    A shallow embedding of [src/strategies/SRAMStrategy.cpp] and of the
    MODE command handler of the main firmware file, for the Arduino
    Mega 2560 (ATmega2560: [int] is 16 bits wide, [uint8_t] and
    [uint16_t] wrap modulo 2^8 and 2^16).

    The I/O registers are a register file, every C statement that touches
    a register is one instruction of a small straight-line language, and
    the SRAM chip in the socket reacts to the pins after every
    instruction.  Loops whose counter may wrap run on fuel. *)

From Stdlib Require Import ZArith List Bool String Ascii Lia.
Import ListNotations.
Open Scope Z_scope.

(** ** Fixed-width integers *)

Definition u8 (x : Z) : Z := x mod 256.
Definition u16 (x : Z) : Z := x mod 65536.
Definition u32 (x : Z) : Z := x mod 4294967296.

(** [1 << n] as the code writes it. *)
Definition bit (n : Z) : Z := Z.shiftl 1 n.

(** ** The register file *)

Inductive Reg := DDRA | DDRC | DDRG | DDRL | PORTA | PORTC | PORTG | PORTL.

Definition Reg_eqb (a b : Reg) : bool :=
  match a, b with
  | DDRA, DDRA | DDRC, DDRC | DDRG, DDRG | DDRL, DDRL
  | PORTA, PORTA | PORTC, PORTC | PORTG, PORTG | PORTL, PORTL => true
  | _, _ => false
  end.

Definition RegFile := Reg -> Z.

Definition set_reg (r : Reg) (v : Z) (f : RegFile) : RegFile :=
  fun r' => if Reg_eqb r r' then v else f r'.

(** ** The chip in the socket

    [addr_mask] are the address lines the chip decodes, [enable_mask] the
    address-bus lines it uses as active-high chip enables (pin 26 of the
    8 KB parts), [cells] its contents, [float_bus] what the data lines
    read when nobody drives them. *)

Record Chip := {
  addr_mask : Z;
  enable_mask : Z;
  cells : Z -> Z;
  float_bus : Z
}.

Definition store_cell (i v : Z) (c : Chip) : Chip :=
  {| addr_mask := addr_mask c;
     enable_mask := enable_mask c;
     cells := fun j => if j =? i then v else cells c j;
     float_bus := float_bus c |}.

(** One bus cycle of the port, as requested by the caller. *)
Inductive BusCycle :=
| WriteCycle (addr data : Z)
| ReadCycle (addr data : Z).

(** A line printed on the serial port by [UARTHandler]. *)
Inductive SerialLine :=
| LineOK (msg : string)      (* sendOK    : "OK: " message *)
| LineError (msg : string)   (* sendError : "ERROR: " message *)
| LineInfo (msg : string).   (* sendInfo  : message *)

(** ** The machine: registers, chip, serial output, generator word *)

Record Machine := {
  regs : RegFile;
  chip : Chip;
  serial : list SerialLine;
  cycles : list BusCycle;
  elapsed_us : Z;
  rand_state : Z
}.

Definition with_regs (f : RegFile) (m : Machine) : Machine :=
  {| regs := f; chip := chip m; serial := serial m; cycles := cycles m;
     elapsed_us := elapsed_us m; rand_state := rand_state m |}.

Definition with_chip (c : Chip) (m : Machine) : Machine :=
  {| regs := regs m; chip := c; serial := serial m; cycles := cycles m;
     elapsed_us := elapsed_us m; rand_state := rand_state m |}.

Definition print_line (l : SerialLine) (m : Machine) : Machine :=
  {| regs := regs m; chip := chip m; serial := serial m ++ [l];
     cycles := cycles m; elapsed_us := elapsed_us m;
     rand_state := rand_state m |}.

Definition log_cycle (c : BusCycle) (m : Machine) : Machine :=
  {| regs := regs m; chip := chip m; serial := serial m;
     cycles := cycles m ++ [c]; elapsed_us := elapsed_us m;
     rand_state := rand_state m |}.

Definition wait_us (n : Z) (m : Machine) : Machine :=
  {| regs := regs m; chip := chip m; serial := serial m; cycles := cycles m;
     elapsed_us := elapsed_us m + n; rand_state := rand_state m |}.

Definition with_rand (g : Z) (m : Machine) : Machine :=
  {| regs := regs m; chip := chip m; serial := serial m; cycles := cycles m;
     elapsed_us := elapsed_us m; rand_state := g |}.

(** ** Pins as the chip sees them

    PG0 = /CS, PG2 = /OE, PG3 = /WE; PORTA = A0-A7, PORTC = A8-A15;
    PORTL = D0-D7. *)

Definition bus_addr (m : Machine) : Z := regs m PORTC * 256 + regs m PORTA.

Definition chip_selected (m : Machine) : bool :=
  negb (Z.testbit (regs m PORTG) 0)
  && (Z.land (bus_addr m) (enable_mask (chip m)) =? enable_mask (chip m)).

Definition output_enabled (m : Machine) : bool := negb (Z.testbit (regs m PORTG) 2).
Definition write_enabled (m : Machine) : bool := negb (Z.testbit (regs m PORTG) 3).

Definition cell_index (m : Machine) : Z := Z.land (bus_addr m) (addr_mask (chip m)).

Definition chip_drives (m : Machine) : bool :=
  chip_selected m && output_enabled m && negb (write_enabled m).

(** The level of the eight data lines. *)
Definition data_lines (m : Machine) : Z :=
  if regs m DDRL =? 0xFF then regs m PORTL
  else if chip_drives m then u8 (cells (chip m) (cell_index m))
  else float_bus (chip m).

(** While selected with /WE low the chip takes the data lines into the
    addressed cell. *)
Definition chip_react (m : Machine) : Machine :=
  if chip_selected m && write_enabled m
  then with_chip (store_cell (cell_index m) (data_lines m) (chip m)) m
  else m.

(** ** Register-level statements *)

Inductive Instr :=
| Store (r : Reg) (v : Z)          (* r = v;       *)
| SetBits (r : Reg) (mask : Z)     (* r |= mask;   *)
| ClearBits (r : Reg) (mask : Z)   (* r &= ~mask;  *)
| DelayMicroseconds (us : Z).

Definition apply_instr (i : Instr) (m : Machine) : Machine :=
  match i with
  | Store r v => with_regs (set_reg r (u8 v) (regs m)) m
  | SetBits r k => with_regs (set_reg r (u8 (Z.lor (regs m r) k)) (regs m)) m
  | ClearBits r k =>
      with_regs (set_reg r (u8 (Z.land (regs m r) (Z.lnot k))) (regs m)) m
  | DelayMicroseconds n => wait_us n m
  end.

Definition exec (i : Instr) (m : Machine) : Machine := chip_react (apply_instr i m).

Definition run (code : list Instr) (m : Machine) : Machine :=
  fold_left (fun st i => exec i st) code m.

(** The machine after each statement of [code], in order. *)
Fixpoint trace (code : list Instr) (m : Machine) : list Machine :=
  match code with
  | [] => []
  | i :: rest => exec i m :: trace rest (exec i m)
  end.

(** ** SRAMStrategy: the object *)

Record SRAMStrategy := {
  sramSize : Z;       (* uint16_t, 0 = not configured *)
  maxAddress : Z;     (* uint16_t *)
  addressBits : Z;    (* uint8_t  *)
  uart : bool         (* uart != nullptr *)
}.

(** The constructor. *)
Definition SRAMStrategy_new : SRAMStrategy :=
  {| sramSize := 0; maxAddress := 0; addressBits := 0; uart := false |}.

(** [while (temp > 0) { addressBits++; temp >>= 1; }]; sixteen shifts
    empty a [uint16_t], so sixteen rounds of fuel are all the loop can use. *)
Fixpoint count_bits (fuel : nat) (temp bits : Z) : Z :=
  match fuel with
  | O => bits
  | S fuel' =>
      if 0 <? temp then count_bits fuel' (Z.shiftr temp 1) (u8 (bits + 1))
      else bits
  end.

Definition setSize (sizeInBytes : Z) (s : SRAMStrategy) : SRAMStrategy :=
  {| sramSize := sizeInBytes;
     maxAddress := u16 (sizeInBytes - 1);
     addressBits := count_bits 16 (u16 (sizeInBytes - 1)) 0;
     uart := uart s |}.

Definition getSize (s : SRAMStrategy) : Z := sramSize s.

Definition setUARTHandler (handler : bool) (s : SRAMStrategy) : SRAMStrategy :=
  {| sramSize := sramSize s; maxAddress := maxAddress s;
     addressBits := addressBits s; uart := handler |}.

Definition getName : string := "SRAM".

(** ** The port *)

Definition control_mask : Z := Z.lor (Z.lor (bit 0) (bit 2)) (bit 3).

Definition configurePins_code : list Instr :=
  [ Store DDRA 0xFF;
    Store DDRC 0xFF;
    Store DDRL 0x00;
    Store PORTL 0x00;
    SetBits DDRG control_mask;
    SetBits PORTG control_mask ].

Definition configurePins (m : Machine) : Machine := run configurePins_code m.

Definition reset_code : list Instr :=
  [ SetBits PORTG control_mask;
    Store DDRL 0x00 ].

Definition reset (m : Machine) : Machine := run reset_code m.

Definition highByte_of (s : SRAMStrategy) (addr : Z) : Z :=
  let highByte := u8 (Z.land (Z.shiftr addr 8) 0xFF) in
  if sramSize s <=? 8192 then u8 (Z.lor highByte (bit 5)) else highByte.

Definition setAddress_code (s : SRAMStrategy) (addr : Z) : list Instr :=
  [ Store PORTA (u8 (Z.land addr 0xFF));
    Store PORTC (highByte_of s addr) ].

Definition setAddress (s : SRAMStrategy) (addr : Z) (m : Machine) : Machine :=
  run (setAddress_code s addr) m.

Definition writeByte_code (s : SRAMStrategy) (addr data : Z) : list Instr :=
  setAddress_code s addr ++
  [ Store DDRL 0xFF;
    Store PORTL data;
    ClearBits PORTG (bit 0);
    ClearBits PORTG (bit 3);
    DelayMicroseconds 1;
    SetBits PORTG (bit 3);
    SetBits PORTG (bit 0);
    Store DDRL 0x00 ].

Definition writeByte (s : SRAMStrategy) (addr data : Z) (m : Machine) : Machine :=
  log_cycle (WriteCycle addr data) (run (writeByte_code s addr data) m).

Definition readByte_select (s : SRAMStrategy) (addr : Z) : list Instr :=
  setAddress_code s addr ++
  [ Store DDRL 0x00;
    ClearBits PORTG (bit 0);
    ClearBits PORTG (bit 2);
    DelayMicroseconds 1 ].

Definition readByte_release : list Instr :=
  [ SetBits PORTG (bit 2);
    SetBits PORTG (bit 0) ].

(** [uint8_t data = PINL;] samples the data lines. *)
Definition PINL (m : Machine) : Z := u8 (data_lines m).

Definition readByte (s : SRAMStrategy) (addr : Z) (m : Machine) : Z * Machine :=
  let m1 := run (readByte_select s addr) m in
  let data := PINL m1 in
  (data, log_cycle (ReadCycle addr data) (run readByte_release m1)).

(** ** Coverage policy

    [maxAddress - 512] and [addr - 1] are unsigned 16-bit subtractions on
    this target and wrap below zero. *)

Definition shouldTestAddress (s : SRAMStrategy) (addr : Z) (fullTest : bool) : bool :=
  if fullTest then true
  else if addr <? 512 then true
  else if u16 (maxAddress s - 512) <? addr then true
  else if Z.land addr (u16 (addr - 1)) =? 0 then true
  else if Z.land addr 0x7F =? 0 then true
  else false.

(** ** Text sent to the UART *)

Definition digit_char (d : Z) : ascii :=
  ascii_of_nat (Z.to_nat (if d <? 10 then 48 + d else 55 + d)).

(** The decimal digits of [n], most significant first ([String(n)], [%d]). *)
Fixpoint dec_digits (fuel : nat) (n : Z) (acc : string) : string :=
  match fuel with
  | O => acc
  | S fuel' =>
      let acc' := String (digit_char (n mod 10)) acc in
      if n <? 10 then acc' else dec_digits fuel' (n / 10) acc'
  end.

Definition dec (n : Z) : string := dec_digits 12 n EmptyString.

(** [%0wX]: [w] upper-case hexadecimal digits of a value below 16^w. *)
Fixpoint hex (w : nat) (n : Z) : string :=
  match w with
  | O => EmptyString
  | S w' => (hex w' (n / 16) ++ String (digit_char (n mod 16)) EmptyString)%string
  end.

Definition getTestName (testNumber : Z) : string :=
  if testNumber =? 1 then "Basic Read/Write"
  else if testNumber =? 2 then "Walking Ones Address"
  else if testNumber =? 3 then "Walking Ones Data"
  else if testNumber =? 4 then "Checkerboard"
  else if testNumber =? 5 then "Inverse Checkerboard"
  else if testNumber =? 6 then "Address Equals Data"
  else if testNumber =? 7 then "Random Pattern"
  else "Unknown".

Definition uart_send (s : SRAMStrategy) (l : SerialLine) (m : Machine) : Machine :=
  if uart s then print_line l m else m.

(** [sendProgress(message, current, total)] *)
Definition sendProgress (s : SRAMStrategy) (message : string) (current total : Z)
    (m : Machine) : Machine :=
  let percent := u8 (u32 (current * 100) / total) in
  uart_send s (LineInfo (message ++ ": " ++ dec percent ++ "%")%string) m.

Definition test_prefix (testNumber : Z) : string :=
  ("Test " ++ dec testNumber ++ " (" ++ getTestName testNumber ++ ") - ")%string.

Definition sendTestStart (s : SRAMStrategy) (testNumber : Z) (fullTest : bool)
    (m : Machine) : Machine :=
  uart_send s
    (LineInfo (test_prefix testNumber ++
               (if fullTest then "FULL mode" else "QUICK mode"))%string) m.

(** The line [sendTestResult] prints. *)
Definition result_line (testNumber : Z) (passed : bool) : SerialLine :=
  if passed then LineOK (test_prefix testNumber ++ "PASSED")%string
  else LineError (test_prefix testNumber ++ "FAILED")%string.

Definition sendTestResult (s : SRAMStrategy) (testNumber : Z) (passed : bool)
    (m : Machine) : Machine :=
  uart_send s (result_line testNumber passed) m.

Definition sendTestError (s : SRAMStrategy) (testNumber addr expected actual : Z)
    (m : Machine) : Machine :=
  uart_send s
    (LineError ("Test " ++ dec testNumber ++ " FAIL - Addr: 0x" ++ hex 4 addr ++
                " Expected: 0x" ++ hex 2 expected ++
                " Got: 0x" ++ hex 2 actual)%string) m.

(** ** Loops

    A loop body either falls through to the next iteration or returns
    from the enclosing function. *)

Inductive Flow (St : Type) :=
| Next (st : St)
| Return (b : bool) (st : St).
Arguments Next {St} st.
Arguments Return {St} b st.

(** [for (uintN_t i = start; cond(i); i++) body], the counter wrapping
    modulo [wrap]; [None] when the fuel runs out. *)
Fixpoint for_loop {St : Type} (fuel : nat) (wrap : Z) (cond : Z -> bool)
    (body : Z -> St -> option (Flow St)) (i : Z) (st : St) : option (Flow St) :=
  match fuel with
  | O => None
  | S fuel' =>
      if cond i then
        match body i st with
        | Some (Next st') => for_loop fuel' wrap cond body ((i + 1) mod wrap) st'
        | other => other
        end
      else Some (Next st)
  end.

(** [for (uint16_t addr = 0; addr <= maxAddress; addr++)] *)
Definition address_loop (fuel : nat) (s : SRAMStrategy)
    (body : Z -> Machine -> option (Flow Machine)) (m : Machine)
    : option (Flow Machine) :=
  for_loop fuel 65536 (fun addr => addr <=? maxAddress s) body 0 m.

(** Sequencing inside a test function: an early [return] or a loop that
    does not finish ends the function. *)
Definition and_then (r : option (Flow Machine))
    (k : Machine -> option (bool * Machine)) : option (bool * Machine) :=
  match r with
  | None => None
  | Some (Return b m) => Some (b, m)
  | Some (Next m) => k m
  end.

Notation "r >>> k" := (and_then r k) (at level 61, left associativity).

(** [if (fullTest && (addr & 0x0FFF) == 0 && addr > 0) sendProgress(...)];
    [None] for the loops that have no such statement. *)
Definition progress_update (s : SRAMStrategy) (fullTest : bool)
    (label : option string) (addr : Z) (m : Machine) : Machine :=
  match label with
  | Some message =>
      if fullTest && (Z.land addr 0x0FFF =? 0) && (0 <? addr)
      then sendProgress s message addr (maxAddress s) m
      else m
  | None => m
  end.

(** The body of a write phase: skip untested addresses, obtain the byte,
    write it. *)
Definition write_body (s : SRAMStrategy) (fullTest : bool)
    (data : Z -> Machine -> Z * Machine) (label : option string)
    (addr : Z) (m : Machine) : option (Flow Machine) :=
  if negb (shouldTestAddress s addr fullTest) then Some (Next m)
  else
    let (d, m1) := data addr m in
    let m2 := writeByte s addr d m1 in
    Some (Next (progress_update s fullTest label addr m2)).

(** The body of a verify phase: skip untested addresses, obtain the
    expected byte, read, report and return on a mismatch. *)
Definition verify_body (s : SRAMStrategy) (fullTest : bool) (testNumber : Z)
    (data : Z -> Machine -> Z * Machine) (label : option string)
    (addr : Z) (m : Machine) : option (Flow Machine) :=
  if negb (shouldTestAddress s addr fullTest) then Some (Next m)
  else
    let (expected, m1) := data addr m in
    let (actual, m2) := readByte s addr m1 in
    if negb (actual =? expected) then
      Some (Return false
              (sendTestResult s testNumber false
                 (sendTestError s testNumber addr expected actual m2)))
    else Some (Next (progress_update s fullTest label addr m2)).

(** The body of the loops of test 1: write, read back at once, compare. *)
Definition write_verify_body (s : SRAMStrategy) (fullTest : bool)
    (testNumber pattern : Z) (label : option string)
    (addr : Z) (m : Machine) : option (Flow Machine) :=
  if negb (shouldTestAddress s addr fullTest) then Some (Next m)
  else
    let m1 := writeByte s addr pattern m in
    let (read, m2) := readByte s addr m1 in
    if negb (read =? pattern) then
      Some (Return false
              (sendTestResult s testNumber false
                 (sendTestError s testNumber addr pattern read m2)))
    else Some (Next (progress_update s fullTest label addr m2)).

Definition constant (v : Z) : Z -> Machine -> Z * Machine := fun _ m => (v, m).

(** [(uint8_t)(addr & 0xFF)] *)
Definition low_byte : Z -> Machine -> Z * Machine :=
  fun addr m => (u8 (Z.land addr 0xFF), m).

(** ** The seven patterns *)

(* Test 1: Basic Read/Write *)
Definition testBasicReadWrite (fuel : nat) (s : SRAMStrategy) (fullTest : bool)
    (m : Machine) : option (bool * Machine) :=
  let m := sendTestStart s 1 fullTest m in
  address_loop fuel s (write_verify_body s fullTest 1 0xAA (Some "Test 1"%string)) m
  >>> fun m =>
  address_loop fuel s (write_verify_body s fullTest 1 0x55 None) m
  >>> fun m =>
  Some (true, sendTestResult s 1 true m).

(** The body of the loops of tests 2 and 3: one write, read back at once,
    compare, name the suspect line on a mismatch. *)
Definition walking_body (s : SRAMStrategy) (testNumber : Z) (line : string)
    (addr testPattern bitno : Z) (m : Machine) : option (Flow Machine) :=
  let m1 := writeByte s addr testPattern m in
  let (read, m2) := readByte s addr m1 in
  if negb (read =? testPattern) then
    let m3 := sendTestError s testNumber addr testPattern read m2 in
    let m4 := uart_send s
                (LineInfo ("Possible issue with " ++ line ++ dec bitno)%string) m3 in
    Some (Return false (sendTestResult s testNumber false m4))
  else Some (Next m2).

(* Test 2: Walking Ones Address *)
Definition testWalkingOnesAddress (fuel : nat) (s : SRAMStrategy) (fullTest : bool)
    (m : Machine) : option (bool * Machine) :=
  let m := sendTestStart s 2 fullTest m in
  let testPattern := 0xAA in
  for_loop fuel 256 (fun b => b <? addressBits s)
    (fun b m =>
       let addr := u16 (bit b) in
       walking_body s 2 "address line A" addr testPattern b m) 0 m
  >>> fun m =>
  Some (true, sendTestResult s 2 true m).

(* Test 3: Walking Ones Data *)
Definition testWalkingOnesData (fuel : nat) (s : SRAMStrategy) (fullTest : bool)
    (m : Machine) : option (bool * Machine) :=
  let m := sendTestStart s 3 fullTest m in
  let testAddr := 0x0000 in
  for_loop fuel 256 (fun b => b <? 8)
    (fun b m =>
       let testPattern := u8 (bit b) in
       walking_body s 3 "data line D" testAddr testPattern b m) 0 m
  >>> fun m =>
  Some (true, sendTestResult s 3 true m).

(** The first loop of test 4, [// Write phase: 0x55]. *)
Definition checkerboard_first_write (fuel : nat) (s : SRAMStrategy)
    (fullTest : bool) (m : Machine) : option (Flow Machine) :=
  address_loop fuel s
    (write_body s fullTest (constant 0x55) (Some "Test 4 (write 0x55)"%string)) m.

(* Test 4: Checkerboard Pattern *)
Definition testCheckerboard (fuel : nat) (s : SRAMStrategy) (fullTest : bool)
    (m : Machine) : option (bool * Machine) :=
  let m := sendTestStart s 4 fullTest m in
  checkerboard_first_write fuel s fullTest m
  >>> fun m =>
  address_loop fuel s
    (verify_body s fullTest 4 (constant 0x55) (Some "Test 4 (verify 0x55)"%string)) m
  >>> fun m =>
  address_loop fuel s (write_body s fullTest (constant 0xAA) None) m
  >>> fun m =>
  address_loop fuel s (verify_body s fullTest 4 (constant 0xAA) None) m
  >>> fun m =>
  Some (true, sendTestResult s 4 true m).

(* Test 5: Inverse Checkerboard Pattern *)
Definition testInverseCheckerboard (fuel : nat) (s : SRAMStrategy) (fullTest : bool)
    (m : Machine) : option (bool * Machine) :=
  let m := sendTestStart s 5 fullTest m in
  address_loop fuel s
    (write_body s fullTest (constant 0xAA) (Some "Test 5 (write 0xAA)"%string)) m
  >>> fun m =>
  address_loop fuel s
    (verify_body s fullTest 5 (constant 0xAA) (Some "Test 5 (verify 0xAA)"%string)) m
  >>> fun m =>
  address_loop fuel s (write_body s fullTest (constant 0x55) None) m
  >>> fun m =>
  address_loop fuel s (verify_body s fullTest 5 (constant 0x55) None) m
  >>> fun m =>
  Some (true, sendTestResult s 5 true m).

(* Test 6: Address Equals Data *)
Definition testAddressEqualsData (fuel : nat) (s : SRAMStrategy) (fullTest : bool)
    (m : Machine) : option (bool * Machine) :=
  let m := sendTestStart s 6 fullTest m in
  address_loop fuel s
    (write_body s fullTest low_byte (Some "Test 6 (write)"%string)) m
  >>> fun m =>
  address_loop fuel s
    (verify_body s fullTest 6 low_byte (Some "Test 6 (verify)"%string)) m
  >>> fun m =>
  Some (true, sendTestResult s 6 true m).

(** ** The Arduino core's pseudo-random generator

    [randomSeed] and [random] belong to the Arduino core, not to this
    firmware; they are taken as an interface over the generator word kept
    in the machine. *)

Class ArduinoCore := {
  core_randomSeed : Z -> Z -> Z;        (* seed, generator word -> generator word *)
  core_random : Z -> Z -> Z * Z         (* howbig, generator word -> value, word *)
}.

Section Catalogue.

Context {core : ArduinoCore}.

Definition randomSeed (seed : Z) (m : Machine) : Machine :=
  with_rand (core_randomSeed seed (rand_state m)) m.

Definition random (howbig : Z) (m : Machine) : Z * Machine :=
  let (v, g) := core_random howbig (rand_state m) in (v, with_rand g m).

(** [(uint8_t)(random(256))] *)
Definition random_byte : Z -> Machine -> Z * Machine :=
  fun _ m => let (v, m') := random 256 m in (u8 v, m').

(** The byte [random_byte] yields, as a function of the generator word. *)
Definition random_data : Z -> Z -> Z * Z :=
  fun _ g => (u8 (fst (core_random 256 g)), snd (core_random 256 g)).

(* Test 7: Random Pattern *)
Definition testRandomPattern (fuel : nat) (s : SRAMStrategy) (fullTest : bool)
    (m : Machine) : option (bool * Machine) :=
  let m := sendTestStart s 7 fullTest m in
  let m := randomSeed 12345 m in
  address_loop fuel s
    (write_body s fullTest random_byte (Some "Test 7 (write)"%string)) m
  >>> fun m =>
  let m := randomSeed 12345 m in
  address_loop fuel s
    (verify_body s fullTest 7 random_byte (Some "Test 7 (verify)"%string)) m
  >>> fun m =>
  Some (true, sendTestResult s 7 true m).

Definition runTest (fuel : nat) (s : SRAMStrategy) (testNumber : Z) (fullTest : bool)
    (m : Machine) : option (bool * Machine) :=
  if testNumber =? 1 then testBasicReadWrite fuel s fullTest m
  else if testNumber =? 2 then testWalkingOnesAddress fuel s fullTest m
  else if testNumber =? 3 then testWalkingOnesData fuel s fullTest m
  else if testNumber =? 4 then testCheckerboard fuel s fullTest m
  else if testNumber =? 5 then testInverseCheckerboard fuel s fullTest m
  else if testNumber =? 6 then testAddressEqualsData fuel s fullTest m
  else if testNumber =? 7 then testRandomPattern fuel s fullTest m
  else Some (false, uart_send s (LineError "Invalid test number (1-7)") m).

(** The loop of [runAllTests] carries the local [allPassed]. *)
Definition runAllTests_body (fuel : nat) (s : SRAMStrategy) (fullTest : bool)
    (test : Z) (st : bool * Machine) : option (Flow (bool * Machine)) :=
  let (allPassed, m) := st in
  match runTest fuel s test fullTest m with
  | None => None
  | Some (passed, m') =>
      Some (Next (if negb passed then false else allPassed, m'))
  end.

Definition runAllTests (fuel : nat) (s : SRAMStrategy) (includeRandom fullTest : bool)
    (m : Machine) : option (bool * Machine) :=
  if sramSize s =? 0 then
    Some (false, uart_send s (LineError "SRAM size not configured") m)
  else
    let maxTest := if includeRandom then 7 else 6 in
    match for_loop fuel 256 (fun test => test <=? maxTest)
            (runAllTests_body fuel s fullTest) 1 (true, m) with
    | None => None
    | Some (Return b (_, m')) => Some (b, m')
    | Some (Next (allPassed, m')) =>
        Some (allPassed,
              uart_send s (if allPassed then LineOK "All tests PASSED"
                           else LineError "Some tests FAILED") m')
    end.

(** [runTests]: tests 1-6, QUICK mode. *)
Definition runTests (fuel : nat) (s : SRAMStrategy) (m : Machine)
    : option (bool * Machine) :=
  runAllTests fuel s false false m.

End Catalogue.

(** ** ModeManager *)

Inductive ICMode := NONE | Z80 | IC6502 | SRAM62256.

(** The only strategy object of the firmware is the global [sramStrategy]. *)
Inductive StrategyRef := sramStrategy_ref.

Record ModeManager := {
  currentStrategy : option StrategyRef;   (* nullptr = None *)
  currentMode : ICMode
}.

Definition ModeManager_new : ModeManager :=
  {| currentStrategy := None; currentMode := NONE |}.

Definition setStrategy (strategy : option StrategyRef) (mode : ICMode)
    (_ : ModeManager) : ModeManager :=
  {| currentStrategy := strategy; currentMode := mode |}.

Definition clearStrategy (_ : ModeManager) : ModeManager :=
  {| currentStrategy := None; currentMode := NONE |}.

(** ** Arduino [String] operations used by the MODE handler *)

Definition isspace (c : ascii) : bool :=
  let n := Z.of_nat (nat_of_ascii c) in
  (n =? 32) || ((9 <=? n) && (n <=? 13)).

Definition isdigit (c : ascii) : bool :=
  let n := Z.of_nat (nat_of_ascii c) in (48 <=? n) && (n <=? 57).

Fixpoint trim_left (t : string) : string :=
  match t with
  | String c rest => if isspace c then trim_left rest else t
  | EmptyString => EmptyString
  end.

Fixpoint rev_string (acc t : string) : string :=
  match t with
  | EmptyString => acc
  | String c rest => rev_string (String c acc) rest
  end.

(** [String::trim] *)
Definition trim (t : string) : string :=
  rev_string EmptyString (trim_left (rev_string EmptyString (trim_left t))).

(** [String::substring(from)] *)
Definition substring_from (from : nat) (t : string) : string :=
  String.substring from (String.length t - from) t.

Fixpoint atol_digits (t : string) (acc : Z) : Z :=
  match t with
  | String c rest =>
      if isdigit c
      then atol_digits rest (acc * 10 + (Z.of_nat (nat_of_ascii c) - 48))
      else acc
  | EmptyString => acc
  end.

(** [String::toInt] is [atol]: leading white space, an optional sign, then
    digits; 0 when there is no number. *)
Definition toInt (t : string) : Z :=
  match trim_left t with
  | String "-"%char rest => - atol_digits rest 0
  | String "+"%char rest => atol_digits rest 0
  | other => atol_digits other 0
  end.

(** ** The firmware's globals and the MODE command *)

Record Firmware := {
  sramStrategy : SRAMStrategy;
  modeManager : ModeManager;
  machine : Machine
}.

Definition say (l : SerialLine) (fw : Firmware) : Firmware :=
  {| sramStrategy := sramStrategy fw; modeManager := modeManager fw;
     machine := print_line l (machine fw) |}.

Definition handleModeCommand (parameter : string) (fw : Firmware) : Firmware :=
  if (String.length parameter =? 0)%nat then
    say (LineInfo "Example: MODE SRAM 32768")
      (say (LineInfo "IC types: Z80, 6502, SRAM <size>")
         (say (LineError "Missing IC type. Usage: MODE <IC>") fw))
  else if String.prefix "SRAM " parameter then
    let sizeStr := trim (substring_from 5 parameter) in
    if (String.length sizeStr =? 0)%nat then
      say (LineInfo "Valid sizes: 8192 (8KB), 32768 (32KB)")
        (say (LineError "Missing SRAM size. Usage: MODE SRAM <size>") fw)
    else
      let size := u32 (toInt sizeStr) in
      if (size =? 0) || (65536 <? size) then
        say (LineInfo "Valid sizes: 8192 (8KB), 32768 (32KB)")
          (say (LineError "Invalid SRAM size") fw)
      else
        let strategy := setUARTHandler true (setSize (u16 size) (sramStrategy fw)) in
        let fw1 :=
          {| sramStrategy := strategy;
             modeManager := setStrategy (Some sramStrategy_ref) SRAM62256 (modeManager fw);
             machine := configurePins (machine fw) |} in
        let fw2 :=
          say (LineOK ("SRAM mode set: " ++ dec (u16 size) ++ " bytes")%string) fw1 in
        if size =? 32768 then say (LineInfo "Configured for HM62256 (32KB)") fw2
        else if size =? 8192 then say (LineInfo "Configured for HM6265/D4168 (8KB)") fw2
        else fw2
  else if String.eqb parameter "Z80" then
    say (LineInfo "Will be available in Phase 4")
      (say (LineError "Z80 strategy not implemented yet") fw)
  else if String.eqb parameter "6502" then
    say (LineInfo "Will be available in Phase 5")
      (say (LineError "6502 strategy not implemented yet") fw)
  else
    say (LineInfo "Example: MODE SRAM 32768")
      (say (LineInfo "IC types: Z80, 6502, SRAM <size>")
         (say (LineError "Invalid IC type") fw)).

(** ** A generator and a chip to run the model on *)

(** The minimal-standard generator of avr-libc behind the Arduino core:
    [randomSeed(0)] leaves the word alone, [random(n)] is [random() % n]. *)
Definition minstd_next (x : Z) : Z :=
  let x := if x =? 0 then 123459876 else x in
  let hi := x / 127773 in
  let lo := x mod 127773 in
  let y := 16807 * lo - 2836 * hi in
  if y <? 0 then y + 0x7fffffff else y.

#[export] Instance avr_core : ArduinoCore := {|
  core_randomSeed := fun seed g => if seed =? 0 then g else seed;
  core_random := fun howbig g =>
    if howbig =? 0 then (0, g)
    else let x := minstd_next g in (x mod howbig, x)
|}.

(** A chip with [n] address lines, optionally with the active-high enable
    of the 8 KB parts on A13, holding [contents]. *)
Definition sram_chip (n : Z) (cs2 : bool) (contents : Z -> Z) : Chip :=
  {| addr_mask := Z.ones n;
     enable_mask := if cs2 then bit 13 else 0;
     cells := contents;
     float_bus := 0xFF |}.

(** The machine at power-on: every register cleared. *)
Definition power_on (c : Chip) : Machine :=
  {| regs := fun _ => 0; chip := c; serial := []; cycles := [];
     elapsed_us := 0; rand_state := 1 |}.

Definition boot (c : Chip) : Firmware :=
  {| sramStrategy := SRAMStrategy_new; modeManager := ModeManager_new;
     machine := power_on c |}.

(** ** Vocabulary of the statements *)

(** [start, start+1, ...], [len] values. *)
Fixpoint zseq (start : Z) (len : nat) : list Z :=
  match len with
  | O => []
  | S n => start :: zseq (start + 1) n
  end.

(** The addresses [0 .. maxAddress] the address loops walk through. *)
Definition addresses (s : SRAMStrategy) : list Z :=
  zseq 0 (Z.to_nat (maxAddress s + 1)).

(** The addresses a pattern touches under a coverage mode, in loop order. *)
Definition tested (s : SRAMStrategy) (fullTest : bool) : list Z :=
  filter (fun addr => shouldTestAddress s addr fullTest) (addresses s).

(** A strategy object as [setSize] leaves it for a non-zero 16-bit size. *)
Definition configured (s : SRAMStrategy) : Prop :=
  0 < sramSize s < 65536 /\
  maxAddress s = sramSize s - 1 /\
  addressBits s = count_bits 16 (maxAddress s) 0.

(** Fuel that lets every loop of the strategy run to its end. *)
Definition enough_fuel (s : SRAMStrategy) (fuel : nat) : Prop :=
  sramSize s < Z.of_nat fuel /\ 16 < Z.of_nat fuel.

(** What [uart_send] adds to the serial output. *)
Definition said (s : SRAMStrategy) (l : SerialLine) : list SerialLine :=
  if uart s then [l] else [].

(** The serial output of [m] continues [base]. *)
Definition extends (base : list SerialLine) (m : Machine) : Prop :=
  exists lines, serial m = base ++ lines.

(** ... and ends with the result line of pattern [n]. *)
Definition closes (s : SRAMStrategy) (n : Z) (base : list SerialLine) (p : bool)
    (m : Machine) : Prop :=
  exists lines, serial m = base ++ lines ++ said s (result_line n p).

(** A loop of pattern [n] finished: it either fell through or returned
    [false] after reporting the failure. *)
Definition loop_ok (s : SRAMStrategy) (n : Z) (base : list SerialLine)
    (r : option (Flow Machine)) : Prop :=
  match r with
  | None => False
  | Some (Next m') => extends base m'
  | Some (Return b m') => b = false /\ closes s n base false m'
  end.

(** Pattern [n] returned, its result line last on the serial output. *)
Definition finishes (s : SRAMStrategy) (n : Z) (base : list SerialLine)
    (res : option (bool * Machine)) : Prop :=
  exists p m', res = Some (p, m') /\ closes s n base p m'.

(** A source of bytes that leaves the serial output alone. *)
Definition data_quiet (data : Z -> Machine -> Z * Machine) : Prop :=
  forall addr m, serial (snd (data addr m)) = serial m.

(** Serial output of a catalogue run: for each pattern some lines, closed
    by what [sendTestResult] prints for its outcome. *)
Fixpoint report (s : SRAMStrategy) (tests : list Z) (outs : list bool)
    (details : list (list SerialLine)) : list SerialLine :=
  match tests, outs, details with
  | t :: ts, p :: ps, d :: ds => d ++ said s (result_line t p) ++ report s ts ps ds
  | _, _, _ => []
  end.

(** A source of bytes that is a function [dataf] of the address and the
    generator word, yields bytes, and touches nothing but the generator. *)
Definition data_from (data : Z -> Machine -> Z * Machine)
    (dataf : Z -> Z -> Z * Z) : Prop :=
  forall addr m,
    fst (data addr m) = fst (dataf addr (rand_state m)) /\
    0 <= fst (data addr m) < 256 /\
    rand_state (snd (data addr m)) = snd (dataf addr (rand_state m)) /\
    regs (snd (data addr m)) = regs m /\
    chip (snd (data addr m)) = chip m /\
    cycles (snd (data addr m)) = cycles m.

(** The operations of the port. *)
Inductive PortOp :=
| ConfigurePins
| ResetPort
| WriteByte (addr data : Z)
| ReadByte (addr : Z).

Definition op_code (s : SRAMStrategy) (op : PortOp) : list Instr :=
  match op with
  | ConfigurePins => configurePins_code
  | ResetPort => reset_code
  | WriteByte addr data => writeByte_code s addr data
  | ReadByte addr => readByte_select s addr ++ readByte_release
  end.

Definition do_op (s : SRAMStrategy) (op : PortOp) (m : Machine) : Machine :=
  match op with
  | ConfigurePins => configurePins m
  | ResetPort => reset m
  | WriteByte addr data => writeByte s addr data m
  | ReadByte addr => snd (readByte s addr m)
  end.

Definition do_ops (s : SRAMStrategy) (ops : list PortOp) (m : Machine) : Machine :=
  fold_left (fun st op => do_op s op st) ops m.

(** Every instant of a sequence of operations: the machine after each
    register statement, with the operation in progress. *)
Fixpoint instants (s : SRAMStrategy) (ops : list PortOp) (m : Machine)
    : list (PortOp * Machine) :=
  match ops with
  | [] => []
  | op :: rest =>
      map (pair op) (trace (op_code s op) m) ++ instants s rest (do_op s op m)
  end.

Definition is_write (op : PortOp) : bool :=
  match op with WriteByte _ _ => true | _ => false end.

(** The direction register reads Input, or Output inside a write. *)
Definition input_or_writing (op : PortOp) (f : RegFile) : Prop :=
  f DDRL = 0 \/ (is_write op = true /\ f DDRL = 0xFF).

(** The loop unrolled over the list of its counter values. *)
Fixpoint iterate {St : Type} (body : Z -> St -> option (Flow St)) (l : list Z)
    (st : St) : option (Flow St) :=
  match l with
  | [] => Some (Next st)
  | i :: rest =>
      match body i st with
      | Some (Next st') => iterate body rest st'
      | other => other
      end
  end.

(** What the address lines carry for a requested address. *)
Definition driven_addr (s : SRAMStrategy) (addr : Z) : Z :=
  highByte_of s addr * 256 + u8 (Z.land addr 0xFF).

(** The chip answers at every address of the configured space, each
    address reaching a cell of its own. *)
Definition decodes (s : SRAMStrategy) (c : Chip) : Prop :=
  forall addr, 0 <= addr <= maxAddress s ->
    Z.land (driven_addr s addr) (addr_mask c) = addr /\
    Z.land (driven_addr s addr) (enable_mask c) = enable_mask c.

(** Control lines inactive and data lines released, as [configurePins]
    leaves them. *)
Definition idle (m : Machine) : Prop :=
  regs m DDRL = 0 /\
  Z.testbit (regs m PORTG) 0 = true /\
  Z.testbit (regs m PORTG) 2 = true /\
  Z.testbit (regs m PORTG) 3 = true.

(** A fault-free memory behind an idle port. *)
Definition fault_free (s : SRAMStrategy) (m : Machine) : Prop :=
  idle m /\ decodes s (chip m).

(** The byte held at a cell. *)
Definition mem (m : Machine) (i : Z) : Z := u8 (cells (chip m) i).


(** The bytes a phase obtains for the tested addresses of [l], threading
    the generator word: [(address, byte)] pairs and the final word. *)
Fixpoint plan (s : SRAMStrategy) (fullTest : bool) (dataf : Z -> Z -> Z * Z)
    (l : list Z) (g : Z) : list (Z * Z) * Z :=
  match l with
  | [] => ([], g)
  | addr :: rest =>
      if shouldTestAddress s addr fullTest then
        let (v, g1) := dataf addr g in
        let (ws, g2) := plan s fullTest dataf rest g1 in
        ((addr, v) :: ws, g2)
      else plan s fullTest dataf rest g
  end.

Definition write_cycles (ws : list (Z * Z)) : list BusCycle :=
  map (fun p => WriteCycle (fst p) (snd p)) ws.

Definition read_cycles (ws : list (Z * Z)) : list BusCycle :=
  map (fun p => ReadCycle (fst p) (snd p)) ws.

(** A write followed at once by the read of the same address. *)
Definition write_read (addr v : Z) : list BusCycle :=
  [WriteCycle addr v; ReadCycle addr v].




(** A bench for concrete runs: an 8-byte memory in the socket, the
    strategy set to 8 bytes with the UART attached, the pins configured. *)
Definition sram8 : SRAMStrategy := setUARTHandler true (setSize 8 SRAMStrategy_new).

Definition bench8 : Machine := configurePins (power_on (sram_chip 3 true (fun _ => 0))).

(** The pattern numbers [runAllTests] goes through. *)
Definition catalogue (includeRandom : bool) : list Z :=
  if includeRandom then [1; 2; 3; 4; 5; 6; 7] else [1; 2; 3; 4; 5; 6].

(** Running the patterns of a list one after the other, each from the
    machine the previous one left, whatever the outcomes. *)
Fixpoint run_catalogue {core : ArduinoCore} (fuel : nat) (s : SRAMStrategy)
    (fullTest : bool) (tests : list Z) (m : Machine)
    : option (list bool * Machine) :=
  match tests with
  | [] => Some ([], m)
  | t :: rest =>
      match runTest fuel s t fullTest m with
      | None => None
      | Some (passed, m1) =>
          match run_catalogue fuel s fullTest rest m1 with
          | None => None
          | Some (outs, m2) => Some (passed :: outs, m2)
          end
      end
  end.

Definition summary_line (allPassed : bool) : SerialLine :=
  if allPassed then LineOK "All tests PASSED" else LineError "Some tests FAILED".

(** The register file after a statement depends on the register file only. *)
Definition instr_regs (i : Instr) (f : RegFile) : RegFile :=
  match i with
  | Store r v => set_reg r (u8 v) f
  | SetBits r k => set_reg r (u8 (Z.lor (f r) k)) f
  | ClearBits r k => set_reg r (u8 (Z.land (f r) (Z.lnot k))) f
  | DelayMicroseconds _ => f
  end.

Fixpoint regs_trace (code : list Instr) (f : RegFile) : list RegFile :=
  match code with
  | [] => []
  | i :: rest => instr_regs i f :: regs_trace rest (instr_regs i f)
  end.

(** The two bytes on the address lines: A0-A7 and A8-A15. *)
Definition address_lines (m : Machine) : Z * Z := (regs m PORTA, regs m PORTC).

(** The pins computed from the register file and the chip alone. *)
Definition pins_bus (f : RegFile) : Z := f PORTC * 256 + f PORTA.

Definition pins_selected (f : RegFile) (c : Chip) : bool :=
  negb (Z.testbit (f PORTG) 0)
  && (Z.land (pins_bus f) (enable_mask c) =? enable_mask c).

Definition pins_data (f : RegFile) (c : Chip) : Z :=
  if f DDRL =? 0xFF then f PORTL
  else if pins_selected f c && negb (Z.testbit (f PORTG) 2)
          && negb (negb (Z.testbit (f PORTG) 3))
       then u8 (cells c (Z.land (pins_bus f) (addr_mask c)))
       else float_bus c.

Definition react (f : RegFile) (c : Chip) : Chip :=
  if pins_selected f c && negb (Z.testbit (f PORTG) 3)
  then store_cell (Z.land (pins_bus f) (addr_mask c)) (pins_data f c) c
  else c.

(** The chip after a piece of code, from the register file it started with. *)
Fixpoint chip_run (code : list Instr) (f : RegFile) (c : Chip) : Chip :=
  match code with
  | [] => c
  | i :: rest => chip_run rest (instr_regs i f) (react (instr_regs i f) c)
  end.

(** ** Timer3Clock (hardware/Timer3.cpp)

    [F_CPU] and the register bit names of the AVR headers come with the
    toolchain, not with the firmware: they are the parameters of a board.
    A division by zero in [selectPrescaler] has no defined result, it is
    [None]. *)

Class Board := {
  F_CPU : Z;
  COM3A0 : Z;
  WGM32 : Z;
  CS30 : Z;
  CS31 : Z;
  CS32 : Z;
  DDE3 : Z;
  PORTE3 : Z
}.

(** The registers Timer3Clock touches: TCCR3A, TCCR3B, DDRE, PORTE are
    8 bits wide, OCR3A and TCNT3 16 bits. *)
Record TimerRegs := {
  TCCR3A : Z;
  TCCR3B : Z;
  OCR3A : Z;
  TCNT3 : Z;
  DDRE : Z;
  PORTE : Z
}.

Record Timer3Clock := {
  currentFrequency : Z;   (* uint32_t *)
  isRunning : bool;
  prescalerBits : Z       (* uint8_t  *)
}.

Definition Timer3Clock_new : Timer3Clock :=
  {| currentFrequency := 0; isRunning := false; prescalerBits := 0 |}.

Definition getFrequency (t : Timer3Clock) : Z := currentFrequency t.
Definition running (t : Timer3Clock) : bool := isRunning t.

Section Timer3.

Context {board : Board}.

Definition prescalers : list Z := [1; 8; 64; 256; 1024].

Definition csBits : list Z :=
  [ u8 (bit CS30);
    u8 (bit CS31);
    u8 (Z.lor (bit CS31) (bit CS30));
    u8 (bit CS32);
    u8 (Z.lor (bit CS32) (bit CS30)) ].

(** The loop of [selectPrescaler] over the rows of the two tables; the
    fall-through after the last row clamps OCR3A and takes clk/1024. *)
Fixpoint try_prescalers (rows : list (Z * Z)) (frequency : Z) : option (Z * Z) :=
  match rows with
  | [] => Some (nth 4 csBits 0, 65535)
  | (prescaler, cs) :: rest =>
      let divisor := u32 (2 * prescaler * frequency) in
      if divisor =? 0 then None
      else
        let calc := u32 F_CPU / divisor in
        if (0 <? calc) && (calc <=? 65536) then Some (cs, u16 (calc - 1))
        else try_prescalers rest frequency
  end.

(** Returns the CS3x bits and the value for OCR3A. *)
Definition selectPrescaler (frequency : Z) : option (Z * Z) :=
  try_prescalers (combine prescalers csBits) frequency.

Definition stop (tr : Timer3Clock * TimerRegs) : Timer3Clock * TimerRegs :=
  let (t, r) := tr in
  ({| currentFrequency := currentFrequency t;
      isRunning := false;
      prescalerBits := prescalerBits t |},
   {| TCCR3A := 0;
      TCCR3B := 0;
      OCR3A := OCR3A r;
      TCNT3 := TCNT3 r;
      DDRE := DDRE r;
      PORTE := u8 (Z.land (PORTE r) (Z.lnot (bit PORTE3))) |}).

Definition configure (frequency : Z) (tr : Timer3Clock * TimerRegs)
    : option (Timer3Clock * TimerRegs) :=
  let (t, r) := stop tr in
  match selectPrescaler frequency with
  | None => None
  | Some (cs, ocr3a) =>
      Some ({| currentFrequency := frequency;
               isRunning := false;
               prescalerBits := cs |},
            {| TCCR3A := u8 (bit COM3A0);
               TCCR3B := u8 (bit WGM32);
               OCR3A := ocr3a;
               TCNT3 := 0;
               DDRE := u8 (Z.lor (DDRE r) (bit DDE3));
               PORTE := PORTE r |})
  end.

Definition start (tr : Timer3Clock * TimerRegs) : Timer3Clock * TimerRegs :=
  let (t, r) := tr in
  ({| currentFrequency := currentFrequency t;
      isRunning := true;
      prescalerBits := prescalerBits t |},
   {| TCCR3A := TCCR3A r;
      TCCR3B := u8 (Z.lor (bit WGM32) (prescalerBits t));
      OCR3A := OCR3A r;
      TCNT3 := TCNT3 r;
      DDRE := DDRE r;
      PORTE := PORTE r |}).

(** The clock generator and the serial output, as the CLOCK commands see
    them. *)
Record ClockBench := {
  timer3 : Timer3Clock;
  timer_regs : TimerRegs;
  clock_serial : list SerialLine
}.

Definition clock_say (l : SerialLine) (b : ClockBench) : ClockBench :=
  {| timer3 := timer3 b; timer_regs := timer_regs b;
     clock_serial := clock_serial b ++ [l] |}.

Definition handleClockCommand (parameter : string) (b : ClockBench)
    : option ClockBench :=
  if (String.length parameter =? 0)%nat then
    Some (clock_say (LineInfo "Example: CLOCK 1000000 (for 1 MHz)")
            (clock_say (LineError "Missing frequency. Usage: CLOCK <frequency>") b))
  else
    let frequency := u32 (toInt parameter) in
    if (frequency <? 1) || (8000000 <? frequency) then
      Some (clock_say (LineError "Frequency out of range (1 Hz to 8 MHz)") b)
    else
      match configure frequency (timer3 b, timer_regs b) with
      | None => None
      | Some tr =>
          let (t, r) := start tr in
          Some (clock_say (LineInfo "Output on PE3 (pin 5)")
                  (clock_say
                     (LineOK ("Clock started at " ++ dec frequency ++ " Hz")%string)
                     {| timer3 := t; timer_regs := r;
                        clock_serial := clock_serial b |}))
      end.

Definition handleClockStopCommand (b : ClockBench) : ClockBench :=
  let (t, r) := stop (timer3 b, timer_regs b) in
  clock_say (LineOK "Clock stopped")
    {| timer3 := t; timer_regs := r; clock_serial := clock_serial b |}.

End Timer3.

(** The ATmega2560 at 16 MHz. *)
#[export] Instance mega2560 : Board := {|
  F_CPU := 16000000;
  COM3A0 := 6;
  WGM32 := 3;
  CS30 := 0;
  CS31 := 1;
  CS32 := 2;
  DDE3 := 3;
  PORTE3 := 3
|}.

(** The frequency on OC3A for a prescaler and a compare value:
    [f_out = F_CPU / (2 * prescaler * (OCR3A + 1))]. *)
Definition output_frequency {board : Board} (prescaler ocr3a : Z) : Z :=
  F_CPU / (2 * prescaler * (ocr3a + 1)).

(** ** CommandParser (utils/CommandParser.cpp) *)

Inductive CommandType := MODE | TEST | STATUS | RESET | HELP | INVALID.

Record ParsedCommand := {
  type : CommandType;
  parameter : string
}.

(** [String::indexOf(char)]: the first position of the character, -1
    when it is absent. *)
Fixpoint indexOf (c : ascii) (t : string) : Z :=
  match t with
  | EmptyString => -1
  | String a rest =>
      if Ascii.eqb a c then 0
      else let r := indexOf c rest in if r <? 0 then -1 else r + 1
  end.

Definition parseCommandType (cmd : string) : CommandType :=
  if String.eqb cmd "MODE" then MODE
  else if String.eqb cmd "TEST" then TEST
  else if String.eqb cmd "STATUS" then STATUS
  else if String.eqb cmd "RESET" then RESET
  else if String.eqb cmd "HELP" then HELP
  else INVALID.

Definition parse (line : string) : ParsedCommand :=
  if (String.length line =? 0)%nat then {| type := INVALID; parameter := "" |}
  else
    let spaceIndex := indexOf " "%char line in
    if spaceIndex =? -1 then
      {| type := parseCommandType line; parameter := "" |}
    else
      {| type := parseCommandType (String.substring 0 (Z.to_nat spaceIndex) line);
         parameter := trim (substring_from (Z.to_nat (spaceIndex + 1)) line) |}.

(** ** UARTHandler::readLine

    The bytes that will arrive on the serial port are a string; [None]
    when they end before a newline, where the function waits for ever. *)

Fixpoint readLine_loop (input line : string) : option (string * string) :=
  match input with
  | EmptyString => None
  | String c rest =>
      if Ascii.eqb c "010"%char then Some (line, rest)
      else if Ascii.eqb c "013"%char then readLine_loop rest line
      else readLine_loop rest (line ++ String c EmptyString)%string
  end.

(** The line read and the bytes still pending. *)
Definition readLine (input : string) : option (string * string) :=
  match readLine_loop input EmptyString with
  | None => None
  | Some (line, rest) => Some (trim line, rest)
  end.

(** ** The TEST and RESET commands *)

(** [String::endsWith] *)
Definition endsWith (suffix t : string) : bool :=
  if (String.length t <? String.length suffix)%nat then false
  else String.eqb
         (String.substring (String.length t - String.length suffix)
            (String.length suffix) t) suffix.

Definition ICMode_eqb (a b : ICMode) : bool :=
  match a, b with
  | NONE, NONE | Z80, Z80 | IC6502, IC6502 | SRAM62256, SRAM62256 => true
  | _, _ => false
  end.

Definition getModeName (mode : ICMode) : string :=
  match mode with
  | NONE => "NONE"
  | Z80 => "Z80"
  | IC6502 => "6502"
  | SRAM62256 => "HM62256"
  end.

Definition with_machine (m : Machine) (fw : Firmware) : Firmware :=
  {| sramStrategy := sramStrategy fw; modeManager := modeManager fw; machine := m |}.

(** The machine a test call leaves; the value it returns is dropped by the
    handler. *)
Definition after_tests (r : option (bool * Machine)) (fw : Firmware)
    : option Firmware :=
  match r with
  | None => None
  | Some (_, m) => Some (with_machine m fw)
  end.

Section Commands.

Context {core : ArduinoCore}.

Definition handleTestCommand (fuel : nat) (parameter : string) (fw : Firmware)
    : option Firmware :=
  if ICMode_eqb (currentMode (modeManager fw)) NONE then
    Some (say (LineInfo "Use MODE command first: MODE SRAM <size>")
            (say (LineError "No IC mode selected") fw))
  else
    match currentStrategy (modeManager fw) with
    | None => Some (say (LineError "No strategy configured") fw)
    | Some sramStrategy_ref =>
        let sram := sramStrategy fw in
        if ICMode_eqb (currentMode (modeManager fw)) SRAM62256 then
          let param := trim parameter in
          let fullTest := endsWith "FULL" param in
          let param :=
            if fullTest
            then trim (String.substring 0 (String.length param - 4) param)
            else param in
          if (String.length param =? 0)%nat then
            let fw1 := say (LineInfo (if fullTest
                                      then "Running tests 1-6 (FULL mode)..."
                                      else "Running tests 1-6 (QUICK mode)...")) fw in
            after_tests (runAllTests fuel sram false fullTest (machine fw1)) fw1
          else if String.eqb param "RANDOM" then
            let fw1 := say (LineInfo (if fullTest
                                      then "Running tests 1-7 (FULL mode)..."
                                      else "Running tests 1-7 (QUICK mode)...")) fw in
            after_tests (runAllTests fuel sram true fullTest (machine fw1)) fw1
          else
            let testNum := u8 (toInt param) in
            if (1 <=? testNum) && (testNum <=? 7) then
              let fw1 := say (LineInfo (if fullTest
                                        then "Running single test (FULL mode)..."
                                        else "Running single test (QUICK mode)...")) fw in
              after_tests (runTest fuel sram testNum fullTest (machine fw1)) fw1
            else
              Some (say (LineInfo "Usage: TEST [FULL|RANDOM|RANDOM FULL|<1-7>|<1-7> FULL]")
                      (say (LineError "Invalid TEST parameter") fw))
        else
          let fw1 := say (LineInfo "Starting tests...") fw in
          after_tests (runTests fuel sram (machine fw1)) fw1
    end.

End Commands.

Definition handleResetCommand (fw : Firmware) : Firmware :=
  if ICMode_eqb (currentMode (modeManager fw)) NONE then
    say (LineInfo "Use MODE command first")
      (say (LineError "No IC mode selected") fw)
  else
    match currentStrategy (modeManager fw) with
    | None => say (LineError "No strategy configured") fw
    | Some sramStrategy_ref =>
        let fw1 := say (LineInfo "Resetting IC...") fw in
        say (LineOK "IC reset complete") (with_machine (reset (machine fw1)) fw1)
    end.

(** ** More vocabulary *)

(** No two drivers on the data lines, and the strobes inside the chip
    select: when the port drives the data bus /OE is high, and /WE or /OE
    is low only while /CS is low. *)
Definition safe_pins (f : RegFile) : Prop :=
  (f DDRL = 0xFF -> Z.testbit (f PORTG) 2 = true) /\
  (Z.testbit (f PORTG) 3 = false -> Z.testbit (f PORTG) 0 = false) /\
  (Z.testbit (f PORTG) 2 = false -> Z.testbit (f PORTG) 0 = false).

(** The chip is enabled whatever address the port drives. *)
Definition answers (s : SRAMStrategy) (c : Chip) : Prop :=
  forall addr, Z.land (driven_addr s addr) (enable_mask c) = enable_mask c.

(** A memory that stores and returns bytes behind an idle port, its
    address decoding left open. *)
Definition responsive (s : SRAMStrategy) (m : Machine) : Prop :=
  idle m /\ answers s (chip m).

(** A property of the machine that a loop result carries on. *)
Definition flow_keeps {St : Type} (P : St -> Prop) (r : option (Flow St)) : Prop :=
  match r with
  | None => True
  | Some (Next st) => P st
  | Some (Return _ st) => P st
  end.

Definition result_keeps (P : Machine -> Prop) (r : option (bool * Machine)) : Prop :=
  match r with
  | None => True
  | Some (_, m) => P m
  end.

(** A source of bytes that leaves the registers alone. *)
Definition data_regs (data : Z -> Machine -> Z * Machine) : Prop :=
  forall addr m, regs (snd (data addr m)) = regs m.

(** The characters of a line that are not carriage returns. *)
Fixpoint strip_cr (t : string) : string :=
  match t with
  | EmptyString => EmptyString
  | String c rest =>
      if Ascii.eqb c "013"%char then strip_cr rest else String c (strip_cr rest)
  end.

(** No occurrence of a character in a string. *)
Fixpoint lacks (c : ascii) (t : string) : Prop :=
  match t with
  | EmptyString => True
  | String a rest => a <> c /\ lacks c rest
  end.

(** A memory with address line A1 stuck: cells 2 and 0, 3 and 1 alias. *)
Definition stuck_a1_chip : Chip :=
  {| addr_mask := 5; enable_mask := 0; cells := fun _ => 0; float_bus := 0xFF |}.

(** The cell a requested address reaches. *)
Definition cell_of (s : SRAMStrategy) (m : Machine) (addr : Z) : Z :=
  Z.land (driven_addr s addr) (addr_mask (chip m)).

(** The row [selectPrescaler] stops at on the ATmega2560 at 16 MHz. *)
Definition chosen_prescaler (f : Z) : Z * Z :=
  if 123 <=? f then (1, 1)
  else if 16 <=? f then (8, 2)
  else if 2 <=? f then (64, 3)
  else (256, 4).

(** The command words. *)
Definition command_words : list string := ["MODE"; "TEST"; "STATUS"; "RESET"; "HELP"]%string.

(** A string of decimal digits. *)
Fixpoint all_digits (t : string) : Prop :=
  match t with
  | EmptyString => True
  | String c rest => isdigit c = true /\ all_digits rest
  end.

(** The parameter of TEST that selects a catalogue run. *)
Definition test_parameter (includeRandom fullTest : bool) : string :=
  match includeRandom, fullTest with
  | false, false => ""
  | false, true => "FULL"
  | true, false => "RANDOM"
  | true, true => "RANDOM FULL"
  end.

(** What a command leaves: the strategy and the mode as they were, the
    port idle, and at least one more line on the serial output. *)
Definition answered (fw fw' : Firmware) : Prop :=
  sramStrategy fw' = sramStrategy fw /\
  modeManager fw' = modeManager fw /\
  idle (machine fw') /\
  exists l more, serial (machine fw') = serial (machine fw) ++ l :: more.

(** ** Registers *)

Lemma regs_chip_react m : regs (chip_react m) = regs m.
Proof. unfold chip_react. destruct (_ && _); reflexivity. Qed.

Lemma regs_exec i m : regs (exec i m) = instr_regs i (regs m).
Proof. unfold exec. rewrite regs_chip_react. destruct i; reflexivity. Qed.

Lemma regs_run code : forall m,
  regs (run code m) = fold_left (fun f i => instr_regs i f) code (regs m).
Proof.
  induction code as [|i code IH]; intro m; [reflexivity|].
  unfold run in *. cbn [fold_left]. rewrite IH, regs_exec. reflexivity.
Qed.

Lemma run_app c1 c2 m : run (c1 ++ c2) m = run c2 (run c1 m).
Proof. unfold run. apply fold_left_app. Qed.

Lemma trace_app c1 : forall c2 m,
  trace (c1 ++ c2) m = trace c1 m ++ trace c2 (run c1 m).
Proof.
  induction c1 as [|i c1 IH]; intros c2 m; [reflexivity|].
  cbn [app trace]. rewrite IH. reflexivity.
Qed.

Lemma u8_land_255 x : u8 (Z.land x 0xFF) = Z.land x 0xFF.
Proof.
  unfold u8. change 0xFF with (Z.ones 8). rewrite Z.land_ones by lia.
  change (2 ^ 8) with 256. apply Z.mod_mod. lia.
Qed.

Lemma regs_log_cycle c m : regs (log_cycle c m) = regs m.
Proof. reflexivity. Qed.

Lemma regs_writeByte s addr data m :
  regs (writeByte s addr data m) =
  regs (run (writeByte_code s addr data) m).
Proof. unfold writeByte. apply regs_log_cycle. Qed.

Lemma regs_readByte s addr m :
  regs (snd (readByte s addr m)) =
  regs (run (readByte_select s addr ++ readByte_release) m).
Proof. unfold readByte. cbn [snd]. rewrite regs_log_cycle, run_app. reflexivity. Qed.

Lemma regs_of_trace code : forall m,
  map regs (trace code m) = regs_trace code (regs m).
Proof.
  induction code as [|i code IH]; intro m; [reflexivity|].
  cbn [trace regs_trace map]. rewrite IH, regs_exec. reflexivity.
Qed.

Lemma Forall_trace_regs (Q : RegFile -> Prop) code m :
  Forall Q (regs_trace code (regs m)) ->
  Forall (fun st => Q (regs st)) (trace code m).
Proof.
  rewrite <- regs_of_trace. intro H.
  apply Forall_forall. intros st Hin.
  rewrite Forall_forall in H. apply H, in_map, Hin.
Qed.

Lemma u8_as_land x : u8 x = Z.land x 0xFF.
Proof.
  unfold u8. change 0xFF with (Z.ones 8). rewrite Z.land_ones by lia.
  reflexivity.
Qed.

Lemma u8_small x : 0 <= x < 256 -> u8 x = x.
Proof. intro H. unfold u8. apply Z.mod_small. exact H. Qed.

Lemma u8_range x : 0 <= u8 x < 256.
Proof. unfold u8. apply Z.mod_pos_bound. lia. Qed.

Lemma u8_u8 x : u8 (u8 x) = u8 x.
Proof. apply u8_small, u8_range. Qed.

(** ** The address lines (setAddress) *)

Lemma highByte_small s addr :
  sramSize s <= 8192 ->
  highByte_of s addr = Z.lor (Z.land (Z.shiftr addr 8) 0xFF) 32.
Proof.
  intro H. unfold highByte_of.
  destruct (Z.leb_spec (sramSize s) 8192) as [_|Hgt]; [|lia].
  rewrite u8_land_255, u8_as_land, Z.land_lor_distr_l.
  rewrite <- Z.land_assoc. reflexivity.
Qed.

Lemma highByte_big s addr :
  8192 < sramSize s ->
  highByte_of s addr = Z.land (Z.shiftr addr 8) 0xFF.
Proof.
  intro H. unfold highByte_of.
  destruct (Z.leb_spec (sramSize s) 8192) as [Hle|_]; [lia|].
  apply u8_land_255.
Qed.

Lemma highByte_range s addr : 0 <= highByte_of s addr < 256.
Proof. unfold highByte_of. destruct (_ <=? _); apply u8_range. Qed.

Lemma low_byte_of addr : 0 <= addr -> Z.land addr 0xFF = addr mod 256.
Proof.
  intro H. change 0xFF with (Z.ones 8). rewrite Z.land_ones by lia. reflexivity.
Qed.

Lemma high_byte_of addr :
  0 <= addr < 65536 -> Z.land (Z.shiftr addr 8) 0xFF = addr / 256.
Proof.
  intro H. rewrite Z.shiftr_div_pow2 by lia. change (2 ^ 8) with 256.
  change 0xFF with (Z.ones 8). rewrite Z.land_ones by lia.
  change (2 ^ 8) with 256. apply Z.mod_small.
  split; [apply Z.div_pos; lia | apply Z.div_lt_upper_bound; lia].
Qed.

Lemma address_lines_setAddress s addr m :
  address_lines (setAddress s addr m) = (Z.land addr 0xFF, highByte_of s addr).
Proof.
  unfold address_lines, setAddress. rewrite regs_run.
  cbn [setAddress_code fold_left instr_regs set_reg Reg_eqb].
  rewrite u8_u8, u8_land_255, (u8_small (highByte_of s addr)) by apply highByte_range.
  reflexivity.
Qed.

Lemma address_lines_writeByte s addr data m :
  address_lines (writeByte s addr data m) = (Z.land addr 0xFF, highByte_of s addr).
Proof.
  unfold address_lines. rewrite regs_writeByte, regs_run.
  cbn [writeByte_code setAddress_code app fold_left instr_regs set_reg Reg_eqb].
  rewrite u8_u8, u8_land_255, (u8_small (highByte_of s addr)) by apply highByte_range.
  reflexivity.
Qed.

Lemma address_lines_readByte s addr m :
  address_lines (snd (readByte s addr m)) = (Z.land addr 0xFF, highByte_of s addr).
Proof.
  unfold address_lines. rewrite regs_readByte, regs_run.
  cbn [readByte_select readByte_release setAddress_code app fold_left
       instr_regs set_reg Reg_eqb].
  rewrite u8_u8, u8_land_255, (u8_small (highByte_of s addr)) by apply highByte_range.
  reflexivity.
Qed.

Lemma bit5_forced h : Z.testbit (Z.lor h 32) 5 = true.
Proof. rewrite Z.lor_spec. change (Z.testbit 32 5) with true. apply orb_true_r. Qed.

(** C10. With a configured size of at most 8192 bytes [setAddress], and with
    it every [writeByte] and [readByte], drives the high address byte with
    bit 5 (A13, pin 26) high whatever the address; with a larger size the
    16-bit address goes out unchanged, low byte on PORTA, high byte on
    PORTC. *)
Theorem C10_setAddress_pin26 :
  forall (small big : SRAMStrategy) (addr data : Z) (m : Machine),
    sramSize small <= 8192 ->
    8192 < sramSize big ->
    0 <= addr < 65536 ->
    (address_lines (setAddress small addr m) = (addr mod 256, Z.lor (addr / 256) 32) /\
     address_lines (writeByte small addr data m) = (addr mod 256, Z.lor (addr / 256) 32) /\
     address_lines (snd (readByte small addr m)) = (addr mod 256, Z.lor (addr / 256) 32) /\
     Z.testbit (regs (setAddress small addr m) PORTC) 5 = true) /\
    (address_lines (setAddress big addr m) = (addr mod 256, addr / 256) /\
     address_lines (writeByte big addr data m) = (addr mod 256, addr / 256) /\
     address_lines (snd (readByte big addr m)) = (addr mod 256, addr / 256) /\
     bus_addr (setAddress big addr m) = addr).
Proof.
  intros small big addr data m Hs Hb Ha.
  pose proof (address_lines_setAddress small addr m) as S1.
  pose proof (address_lines_setAddress big addr m) as B1.
  rewrite address_lines_writeByte, address_lines_readByte, S1.
  rewrite address_lines_writeByte, address_lines_readByte, B1.
  rewrite (highByte_small small) by exact Hs.
  rewrite (highByte_big big) by exact Hb.
  rewrite high_byte_of, low_byte_of by lia.
  unfold address_lines in S1, B1.
  repeat split.
  - injection S1 as _ S1. rewrite S1, highByte_small by exact Hs. apply bit5_forced.
  - injection B1 as B0 B1. unfold bus_addr. rewrite B0, B1, highByte_big by exact Hb.
    rewrite high_byte_of, low_byte_of by lia.
    pose proof (Z_div_mod_eq_full addr 256). lia.
Qed.

Lemma C10_setAddress_pin26_witness :
  let small := setSize 8192 SRAMStrategy_new in
  let big := setSize 32768 SRAMStrategy_new in
  let m := power_on (sram_chip 13 true (fun _ => 0)) in
  (address_lines (setAddress small 0x0123 m) = (0x23, 0x21) /\
   Z.testbit (regs (setAddress small 0x0123 m) PORTC) 5 = true) /\
  address_lines (setAddress big 0x0123 m) = (0x23, 0x01).
Proof.
  intros small big m.
  destruct (C10_setAddress_pin26 small big 0x0123 0xAA m) as [[S1 [_ [_ S4]]] [B1 _]];
    [subst small; vm_compute; discriminate | subst big; vm_compute; reflexivity
    | lia | ].
  split; [split|]; [exact S1 | exact S4 | exact B1].
Defined.

(** ** Direction of the data bus *)

Lemma op_instants_direction s op m :
  regs m DDRL = 0 ->
  Forall (fun st => input_or_writing op (regs st)) (trace (op_code s op) m).
Proof.
  intro H. apply Forall_trace_regs. unfold input_or_writing.
  destruct op as [| |addr data|addr];
    cbn [op_code configurePins_code reset_code writeByte_code readByte_select
         readByte_release setAddress_code app regs_trace instr_regs set_reg
         Reg_eqb is_write];
    repeat (apply Forall_cons; [first [left; first [exact H | reflexivity]
                                      | right; split; reflexivity] | ]);
    apply Forall_nil.
Qed.

Lemma do_op_direction s op m : regs (do_op s op m) DDRL = 0.
Proof.
  destruct op as [| |addr data|addr]; cbn [do_op].
  - unfold configurePins. rewrite regs_run. reflexivity.
  - unfold reset. rewrite regs_run. reflexivity.
  - rewrite regs_writeByte, regs_run. reflexivity.
  - rewrite regs_readByte, regs_run. reflexivity.
Qed.

Lemma do_ops_direction s ops : forall m,
  regs m DDRL = 0 -> regs (do_ops s ops m) DDRL = 0.
Proof.
  induction ops as [|op ops IH]; intros m H; [exact H|].
  unfold do_ops in *. cbn [fold_left]. apply IH, do_op_direction.
Qed.

Lemma instants_direction s ops : forall m,
  regs m DDRL = 0 ->
  Forall (fun p => input_or_writing (fst p) (regs (snd p))) (instants s ops m).
Proof.
  induction ops as [|op ops IH]; intros m H; cbn [instants]; [apply Forall_nil|].
  apply Forall_app. split.
  - pose proof (op_instants_direction s op m H) as Hop.
    rewrite Forall_forall in *. intros p Hin.
    apply in_map_iff in Hin. destruct Hin as [st [<- Hst]]. apply Hop, Hst.
  - apply IH, do_op_direction.
Qed.

Lemma writeByte_drives_output s addr data m :
  exists st, In st (trace (writeByte_code s addr data) m) /\ regs st DDRL = 0xFF.
Proof.
  exists (nth 2 (trace (writeByte_code s addr data) m) m). split.
  - apply nth_In. cbn. lia.
  - change (regs (nth 2 (trace (writeByte_code s addr data) m) m) DDRL)
      with (nth 2 (map regs (trace (writeByte_code s addr data) m)) (regs m) DDRL).
    rewrite regs_of_trace. reflexivity.
Qed.

(** C1. Starting with the data bus as Input, after any sequence of port
    operations the direction register is Input again; at every instant of
    the sequence it is Input, except inside a [writeByte], where it is
    Output (0xFF); every operation on its own ends with DDRL = 0x00
    whatever the state it started from, and [writeByte] does pass through
    Output. *)
Theorem C1_data_bus_input :
  forall (s : SRAMStrategy) (ops : list PortOp) (m : Machine),
    regs m DDRL = 0 ->
    regs (do_ops s ops m) DDRL = 0 /\
    (forall op st, In (op, st) (instants s ops m) ->
       regs st DDRL = 0 \/ (is_write op = true /\ regs st DDRL = 0xFF)) /\
    (forall op m0, regs (do_op s op m0) DDRL = 0) /\
    (forall addr data m0,
       exists st, In st (trace (writeByte_code s addr data) m0) /\
                  regs st DDRL = 0xFF).
Proof.
  intros s ops m H. split; [|split; [|split]].
  - apply do_ops_direction, H.
  - intros op st Hin.
    pose proof (instants_direction s ops m H) as Hall.
    rewrite Forall_forall in Hall. apply (Hall (op, st) Hin).
  - intros op m0. apply do_op_direction.
  - intros addr data m0. apply writeByte_drives_output.
Qed.

Lemma C1_data_bus_input_witness :
  let s := setSize 8192 SRAMStrategy_new in
  let m := power_on (sram_chip 13 true (fun _ => 0)) in
  regs (do_ops s [ConfigurePins; WriteByte 5 0xAA; ReadByte 5; ResetPort] m) DDRL = 0.
Proof.
  intros s m.
  exact (proj1 (C1_data_bus_input s
                  [ConfigurePins; WriteByte 5 0xAA; ReadByte 5; ResetPort] m
                  eq_refl)).
Defined.

(** ** Coverage (shouldTestAddress) *)

Lemma setSize_configured n s0 : 0 < n < 65536 -> configured (setSize n s0).
Proof.
  intro H. unfold configured, setSize. cbn [sramSize maxAddress addressBits].
  unfold u16. rewrite Z.mod_small by lia. repeat split; lia.
Qed.

Lemma configured_setUARTHandler h s : configured s -> configured (setUARTHandler h s).
Proof. intro H. exact H. Qed.

Lemma land_pow2_pred k : 0 <= k -> Z.land (2 ^ k) (2 ^ k - 1) = 0.
Proof.
  intro Hk. replace (2 ^ k - 1) with (Z.ones k) by (rewrite Z.ones_equiv; lia).
  rewrite Z.land_ones by lia. apply Z_mod_same_full.
Qed.

Lemma land_pred_is_pow2 a : 0 < a -> Z.land a (a - 1) = 0 -> a = 2 ^ Z.log2 a.
Proof.
  intros Ha H.
  destruct (Z.eq_dec a (2 ^ Z.log2 a)) as [E|N]; [exact E|exfalso].
  destruct (Z.log2_spec a Ha) as [L U].
  pose proof (Z.log2_nonneg a) as Hn.
  assert (Hlog : Z.log2 (a - 1) = Z.log2 a) by (apply Z.log2_unique; lia).
  assert (Hbit : Z.testbit (Z.land a (a - 1)) (Z.log2 a) = true).
  { rewrite Z.land_spec, Z.bit_log2 by lia.
    rewrite <- Hlog. rewrite Z.bit_log2 by lia. reflexivity. }
  rewrite H, Z.bits_0 in Hbit. discriminate.
Qed.

Lemma pow2_test a :
  0 < a < 65536 ->
  (Z.land a (u16 (a - 1)) = 0 <-> exists k, 0 <= k /\ a = 2 ^ k).
Proof.
  intro Ha. unfold u16. rewrite (Z.mod_small (a - 1)) by lia. split.
  - intro H. exists (Z.log2 a). split; [apply Z.log2_nonneg|].
    apply land_pred_is_pow2; [lia | exact H].
  - intros [k [Hk ->]]. apply land_pow2_pred, Hk.
Qed.

Lemma multiple_of_128 a : 0 <= a -> (Z.land a 0x7F = 0 <-> a mod 128 = 0).
Proof.
  intro Ha. change 0x7F with (Z.ones 7). rewrite Z.land_ones by lia.
  change (2 ^ 7) with 128. reflexivity.
Qed.

Lemma sampled_iff s addr :
  configured s -> 0 <= addr <= maxAddress s ->
  (shouldTestAddress s addr false = true <->
   addr < 512 \/ sramSize s - 512 <= addr \/
   (exists k, 0 <= k /\ addr = 2 ^ k) \/ addr mod 128 = 0).
Proof.
  intros [Hsz [Hmax _]] Ha. unfold shouldTestAddress.
  destruct (Z.ltb_spec addr 512) as [H1|H1]; [split; [intros _; left; exact H1 | reflexivity]|].
  assert (Hw : u16 (maxAddress s - 512) = maxAddress s - 512)
    by (unfold u16; apply Z.mod_small; lia).
  rewrite Hw.
  destruct (Z.ltb_spec (maxAddress s - 512) addr) as [H2|H2];
    [split; [intros _; right; left; lia | reflexivity]|].
  destruct (Z.eqb_spec (Z.land addr (u16 (addr - 1))) 0) as [H3|H3].
  { split; [intros _|reflexivity]. right; right; left. apply pow2_test; [lia|exact H3]. }
  destruct (Z.eqb_spec (Z.land addr 0x7F) 0) as [H4|H4].
  { split; [intros _|reflexivity]. right; right; right. apply multiple_of_128; [lia|exact H4]. }
  split; [discriminate|].
  intros [H|[H|[H|H]]]; [lia | lia | |].
  - exfalso. apply H3. apply pow2_test; [lia|exact H].
  - exfalso. apply H4. apply multiple_of_128; [lia|exact H].
Qed.

Lemma small_space_all_sampled s addr :
  configured s -> sramSize s <= 1025 -> 0 <= addr <= maxAddress s ->
  shouldTestAddress s addr false = true.
Proof.
  intros Hc Hsz Ha. apply sampled_iff; [exact Hc | exact Ha |].
  destruct Hc as [_ [Hmax _]].
  destruct (Z.lt_ge_cases addr 512) as [H|H]; [left; exact H|].
  destruct (Z.eq_dec addr 512) as [->|N].
  - right; right; left. exists 9. split; [lia|reflexivity].
  - right; left. lia.
Qed.

Lemma address_513_skipped s :
  configured s -> 1025 < sramSize s -> shouldTestAddress s 513 false = false.
Proof.
  intros [Hsz [Hmax _]] Hbig. unfold shouldTestAddress.
  assert (Hw : u16 (maxAddress s - 512) = maxAddress s - 512)
    by (unfold u16; apply Z.mod_small; lia).
  rewrite Hw. change (513 <? 512) with false. cbv iota.
  destruct (Z.ltb_spec (maxAddress s - 512) 513) as [H|H]; [lia|reflexivity].
Qed.

(** C3 (as the code has it). For a configured address space, QUICK coverage
    tests an address of the space exactly when it is among the first 512,
    among the last 512, a power of two or a multiple of 128; FULL coverage
    tests every address; the choice depends on the address, the mode and
    [maxAddress] only; and some address of the space is left out by QUICK
    coverage exactly when the space has more than 1025 bytes. *)
Theorem C3_sampled_coverage :
  forall s : SRAMStrategy,
    configured s ->
    (forall addr, 0 <= addr <= maxAddress s ->
       (shouldTestAddress s addr false = true <->
        addr < 512 \/ sramSize s - 512 <= addr \/
        (exists k, 0 <= k /\ addr = 2 ^ k) \/ addr mod 128 = 0)) /\
    (forall addr, shouldTestAddress s addr true = true) /\
    (forall s' addr full, maxAddress s' = maxAddress s ->
       shouldTestAddress s' addr full = shouldTestAddress s addr full) /\
    (forall addr, shouldTestAddress s addr false = true ->
                  shouldTestAddress s addr true = true) /\
    ((exists addr, 0 <= addr <= maxAddress s /\
                   shouldTestAddress s addr false = false) <->
     1025 < sramSize s).
Proof.
  intros s Hc. split; [|split; [|split; [|split]]].
  - intros addr Ha. apply sampled_iff; assumption.
  - reflexivity.
  - intros s' addr full E. unfold shouldTestAddress. rewrite E. reflexivity.
  - reflexivity.
  - split.
    + intros [addr [Ha Hno]].
      destruct (Z.lt_ge_cases 1025 (sramSize s)) as [H|H]; [exact H|].
      rewrite small_space_all_sampled in Hno by (assumption || lia). discriminate.
    + intro Hbig. exists 513. split.
      * destruct Hc as [_ [Hmax _]]. lia.
      * apply address_513_skipped; assumption.
Qed.

Lemma C3_sampled_coverage_witness :
  exists addr, 0 <= addr <= 8191 /\
    shouldTestAddress (setSize 8192 SRAMStrategy_new) addr false = false.
Proof.
  apply (proj2 (proj2 (proj2 (proj2
           (C3_sampled_coverage (setSize 8192 SRAMStrategy_new)
              (setSize_configured 8192 SRAMStrategy_new
                 (conj eq_refl eq_refl))))))).
  reflexivity.
Defined.

(** C3 as stated fails: with 1024 bytes QUICK coverage leaves out no address
    that FULL coverage tests, so it is no strict subset. *)
Lemma C3_not_strict_at_1024 :
  ~ (exists addr, 0 <= addr <= maxAddress (setSize 1024 SRAMStrategy_new) /\
       shouldTestAddress (setSize 1024 SRAMStrategy_new) addr true = true /\
       shouldTestAddress (setSize 1024 SRAMStrategy_new) addr false = false).
Proof.
  intros [addr [Ha [_ Hno]]].
  rewrite small_space_all_sampled in Hno.
  - discriminate.
  - apply setSize_configured. lia.
  - cbn. lia.
  - exact Ha.
Qed.

(** ** One bus cycle against a fault-free memory *)

Lemma testbit_u8 x n : 0 <= n < 8 -> Z.testbit (u8 x) n = Z.testbit x n.
Proof.
  intro H. unfold u8. change 256 with (2 ^ 8).
  apply Z.mod_pow2_bits_low. lia.
Qed.

Lemma testbit_bit k n : 0 <= k -> Z.testbit (bit k) n = (k =? n).
Proof.
  intro H. unfold bit. rewrite Z.shiftl_1_l. apply Z.pow2_bits_eqb. exact H.
Qed.

Lemma testbit_clear x k n :
  0 <= k -> 0 <= n < 8 ->
  Z.testbit (u8 (Z.land x (Z.lnot (bit k)))) n = Z.testbit x n && negb (k =? n).
Proof.
  intros Hk Hn.
  rewrite testbit_u8, Z.land_spec, Z.lnot_spec, testbit_bit by lia. reflexivity.
Qed.

Lemma testbit_set x k n :
  0 <= k -> 0 <= n < 8 ->
  Z.testbit (u8 (Z.lor x (bit k))) n = Z.testbit x n || (k =? n).
Proof.
  intros Hk Hn. rewrite testbit_u8, Z.lor_spec, testbit_bit by lia. reflexivity.
Qed.

Lemma chip_log_cycle c m : chip (log_cycle c m) = chip m.
Proof. reflexivity. Qed.

Lemma serial_log_cycle c m : serial (log_cycle c m) = serial m.
Proof. reflexivity. Qed.

Lemma cycles_log_cycle c m : cycles (log_cycle c m) = cycles m ++ [c].
Proof. reflexivity. Qed.

Lemma rand_log_cycle c m : rand_state (log_cycle c m) = rand_state m.
Proof. reflexivity. Qed.

Lemma run_cons i code m : run (i :: code) m = run code (exec i m).
Proof. reflexivity. Qed.

Lemma chip_exec i m : chip (exec i m) = react (instr_regs i (regs m)) (chip m).
Proof.
  unfold exec, chip_react, react, chip_selected, write_enabled, pins_selected,
    cell_index, data_lines, chip_drives, pins_data, chip_selected,
    output_enabled, write_enabled, bus_addr, pins_bus.
  destruct i; cbn [apply_instr with_regs wait_us regs chip instr_regs];
    match goal with |- chip (if ?b then _ else _) = _ => destruct b end;
    reflexivity.
Qed.

Lemma chip_run_spec code : forall m,
  chip (run code m) = chip_run code (regs m) (chip m).
Proof.
  induction code as [|i code IH]; intro m; [reflexivity|].
  rewrite run_cons, IH, regs_exec, chip_exec. reflexivity.
Qed.

Lemma data_lines_pins m : data_lines m = pins_data (regs m) (chip m).
Proof. reflexivity. Qed.

Lemma chip_run_cons i code f c :
  chip_run (i :: code) f c = chip_run code (instr_regs i f) (react (instr_regs i f) c).
Proof. reflexivity. Qed.

Lemma chip_run_nil f c : chip_run [] f c = c.
Proof. reflexivity. Qed.

#[local] Opaque chip_run.

(** With /CS or /WE high the cells keep their contents. *)
Lemma react_quiet f c :
  Z.testbit (f PORTG) 0 = true \/ Z.testbit (f PORTG) 3 = true -> react f c = c.
Proof.
  intro H. unfold react, pins_selected.
  destruct H as [H|H]; rewrite H; cbn [negb andb]; [reflexivity|].
  rewrite andb_false_r. reflexivity.
Qed.

(** With /CS and /WE low and the port driving the data lines, the
    addressed cell takes the byte in PORTL. *)
Lemma react_store f c idx v :
  Z.testbit (f PORTG) 0 = false ->
  Z.testbit (f PORTG) 3 = false ->
  f DDRL = 0xFF ->
  f PORTL = v ->
  Z.land (pins_bus f) (enable_mask c) = enable_mask c ->
  Z.land (pins_bus f) (addr_mask c) = idx ->
  react f c = store_cell idx v c.
Proof.
  intros H0 H3 Hd Hv He Hi. unfold react, pins_selected, pins_data.
  rewrite H0, H3, He, Hi, Hd, Hv, Z.eqb_refl. reflexivity.
Qed.

(** With /CS and /OE low, /WE high and the port listening, the data lines
    carry the addressed cell. *)
Lemma pins_data_read f c idx :
  f DDRL = 0 ->
  Z.testbit (f PORTG) 0 = false ->
  Z.testbit (f PORTG) 2 = false ->
  Z.testbit (f PORTG) 3 = true ->
  Z.land (pins_bus f) (enable_mask c) = enable_mask c ->
  Z.land (pins_bus f) (addr_mask c) = idx ->
  pins_data f c = u8 (cells c idx).
Proof.
  intros Hd H0 H2 H3 He Hi. unfold pins_data, pins_selected.
  rewrite Hd, H0, H2, H3, He, Hi, Z.eqb_refl. reflexivity.
Qed.

Lemma driven_addr_eq s addr :
  u8 (highByte_of s addr) * 256 + u8 (u8 (Z.land addr 0xFF)) = driven_addr s addr.
Proof.
  unfold driven_addr.
  rewrite u8_u8, (u8_small (highByte_of s addr)) by apply highByte_range.
  reflexivity.
Qed.

Ltac bits :=
  repeat first [rewrite testbit_clear by lia | rewrite testbit_set by lia].

Ltac pins :=
  unfold pins_bus;
  cbn [instr_regs set_reg Reg_eqb enable_mask addr_mask store_cell];
  bits;
  cbn [Z.eqb Pos.eqb negb andb orb];
  rewrite ?andb_true_r, ?andb_false_r, ?orb_false_r, ?orb_true_r;
  rewrite ?driven_addr_eq;
  auto.

Ltac quiet_step :=
  rewrite chip_run_cons;
  match goal with
  | |- context [react ?f ?c] => rewrite (react_quiet f c) by pins
  end.

Ltac store_step idx v :=
  rewrite chip_run_cons;
  match goal with
  | |- context [react ?f ?c] => rewrite (react_store f c idx v) by pins
  end.

Lemma writeByte_chip s addr data m :
  fault_free s m -> 0 <= addr <= maxAddress s ->
  chip (writeByte s addr data m) =
  store_cell addr (u8 data) (store_cell addr (u8 data) (chip m)).
Proof.
  intros [[Hd [H0 [H2 H3]]] Hdec] Ha.
  destruct (Hdec addr Ha) as [Hidx Hen].
  unfold writeByte. rewrite chip_log_cycle, chip_run_spec.
  unfold writeByte_code, setAddress_code. cbn [app].
  do 5 quiet_step.
  do 2 store_step addr (u8 data).
  do 3 quiet_step.
  apply chip_run_nil.
Qed.

Lemma frame_exec i m :
  serial (exec i m) = serial m /\ cycles (exec i m) = cycles m /\
  rand_state (exec i m) = rand_state m.
Proof.
  unfold exec, chip_react.
  destruct (chip_selected (apply_instr i m) && write_enabled (apply_instr i m));
    destruct i; repeat split.
Qed.

Lemma frame_run code : forall m,
  serial (run code m) = serial m /\ cycles (run code m) = cycles m /\
  rand_state (run code m) = rand_state m.
Proof.
  induction code as [|i code IH]; intro m; [repeat split|].
  rewrite run_cons. destruct (IH (exec i m)) as [A [B C]].
  destruct (frame_exec i m) as [A' [B' C']].
  rewrite A, B, C. repeat split; assumption.
Qed.

Lemma idle_after_write s addr data m : idle m -> idle (writeByte s addr data m).
Proof.
  intros [Hd [H0 [H2 H3]]]. unfold idle.
  rewrite regs_writeByte, regs_run.
  unfold writeByte_code, setAddress_code.
  cbn [app fold_left instr_regs set_reg Reg_eqb].
  bits. rewrite H0, H2, H3. repeat split.
Qed.

Lemma idle_after_read s addr m : idle m -> idle (snd (readByte s addr m)).
Proof.
  intros [Hd [H0 [H2 H3]]]. unfold idle.
  rewrite regs_readByte, regs_run.
  unfold readByte_select, readByte_release, setAddress_code.
  cbn [app fold_left instr_regs set_reg Reg_eqb].
  bits. rewrite H0, H2, H3. repeat split.
Qed.

Lemma mem_store_cell_twice i v c j :
  u8 (cells (store_cell i (u8 v) (store_cell i (u8 v) c)) j) =
  if j =? i then u8 v else u8 (cells c j).
Proof.
  cbn [cells store_cell]. destruct (j =? i); [apply u8_u8|reflexivity].
Qed.

(** [writeByte] on a fault-free memory: the addressed cell takes the byte,
    the others keep theirs, the port is idle again. *)
Lemma writeByte_spec s addr data m :
  fault_free s m -> 0 <= addr <= maxAddress s ->
  fault_free s (writeByte s addr data m) /\
  (forall j, mem (writeByte s addr data m) j =
             if j =? addr then u8 data else mem m j) /\
  serial (writeByte s addr data m) = serial m /\
  cycles (writeByte s addr data m) = cycles m ++ [WriteCycle addr data] /\
  rand_state (writeByte s addr data m) = rand_state m.
Proof.
  intros Hff Ha.
  pose proof (writeByte_chip s addr data m Hff Ha) as Hchip.
  destruct Hff as [Hidle Hdec].
  destruct (frame_run (writeByte_code s addr data) m) as [A [B C]].
  split; [split|split; [|split; [|split]]].
  - apply idle_after_write, Hidle.
  - rewrite Hchip. exact Hdec.
  - intro j. unfold mem. rewrite Hchip. apply mem_store_cell_twice.
  - unfold writeByte. rewrite serial_log_cycle. exact A.
  - unfold writeByte. rewrite cycles_log_cycle, B. reflexivity.
  - unfold writeByte. rewrite rand_log_cycle. exact C.
Qed.

Lemma readByte_select_chip s addr m :
  idle m -> chip (run (readByte_select s addr) m) = chip m.
Proof.
  intros [Hd [H0 [H2 H3]]]. rewrite chip_run_spec.
  unfold readByte_select, setAddress_code. cbn [app].
  do 6 quiet_step. apply chip_run_nil.
Qed.

Lemma readByte_release_chip m :
  Z.testbit (regs m PORTG) 3 = true -> chip (run readByte_release m) = chip m.
Proof.
  intro H3. rewrite chip_run_spec. unfold readByte_release.
  do 2 quiet_step. apply chip_run_nil.
Qed.

Lemma readByte_sample s addr m :
  fault_free s m -> 0 <= addr <= maxAddress s ->
  PINL (run (readByte_select s addr) m) = mem m addr.
Proof.
  intros [[Hd [H0 [H2 H3]]] Hdec] Ha.
  destruct (Hdec addr Ha) as [Hidx Hen].
  unfold PINL. rewrite data_lines_pins.
  rewrite readByte_select_chip by (repeat split; assumption).
  rewrite regs_run. unfold readByte_select, setAddress_code.
  cbn [app fold_left].
  rewrite (pins_data_read _ _ addr) by pins.
  unfold mem. apply u8_u8.
Qed.

(** [readByte] on a fault-free memory returns the addressed cell and
    changes nothing but the pins. *)
Lemma readByte_spec s addr m :
  fault_free s m -> 0 <= addr <= maxAddress s ->
  fst (readByte s addr m) = mem m addr /\
  fault_free s (snd (readByte s addr m)) /\
  (forall j, mem (snd (readByte s addr m)) j = mem m j) /\
  serial (snd (readByte s addr m)) = serial m /\
  cycles (snd (readByte s addr m)) = cycles m ++ [ReadCycle addr (mem m addr)] /\
  rand_state (snd (readByte s addr m)) = rand_state m.
Proof.
  intros Hff Ha.
  pose proof (readByte_sample s addr m Hff Ha) as Hv.
  destruct Hff as [Hidle Hdec].
  assert (Hchip : chip (snd (readByte s addr m)) = chip m).
  { unfold readByte. cbn [snd]. rewrite chip_log_cycle.
    rewrite readByte_release_chip.
    - apply readByte_select_chip, Hidle.
    - destruct Hidle as [Hd [H0 [H2 H3]]]. rewrite regs_run.
      unfold readByte_select, setAddress_code. cbn [app fold_left]. pins. }
  destruct (frame_run (readByte_select s addr) m) as [A [B C]].
  destruct (frame_run readByte_release (run (readByte_select s addr) m))
    as [A' [B' C']].
  split; [|split; [split|split; [|split; [|split]]]].
  - unfold readByte. cbn [fst]. exact Hv.
  - apply idle_after_read, Hidle.
  - rewrite Hchip. exact Hdec.
  - intro j. unfold mem. rewrite Hchip. reflexivity.
  - unfold readByte. cbn [snd]. rewrite serial_log_cycle, A'. exact A.
  - unfold readByte. cbn [snd]. rewrite cycles_log_cycle, B', B, Hv. reflexivity.
  - unfold readByte. cbn [snd]. rewrite rand_log_cycle, C'. exact C.
Qed.

(** ** Loops unrolled *)

Lemma for_loop_iterate {St : Type} (wrap : Z) (cond : Z -> bool)
    (body : Z -> St -> option (Flow St)) (n : Z) :
  (forall j, cond j = (j <? n)) -> n < wrap ->
  forall (fuel : nat) (i : Z) (st : St),
    0 <= i <= n -> n - i < Z.of_nat fuel ->
    for_loop fuel wrap cond body i st = iterate body (zseq i (Z.to_nat (n - i))) st.
Proof.
  intros Hcond Hwrap. induction fuel as [|fuel IH]; intros i st Hi Hfuel; [lia|].
  cbn [for_loop]. rewrite Hcond.
  destruct (Z.ltb_spec i n) as [Hlt|Hge].
  - replace (Z.to_nat (n - i)) with (S (Z.to_nat (n - (i + 1)))) by lia.
    cbn [zseq iterate].
    destruct (body i st) as [[st'|b st']|]; try reflexivity.
    rewrite Z.mod_small by lia. apply IH; lia.
  - replace (n - i) with 0 by lia. reflexivity.
Qed.

Lemma in_zseq len : forall start a,
  In a (zseq start len) <-> start <= a < start + Z.of_nat len.
Proof.
  induction len as [|len IH]; intros start a; cbn [zseq In].
  - lia.
  - rewrite IH. lia.
Qed.

Lemma NoDup_zseq len : forall start, NoDup (zseq start len).
Proof.
  induction len as [|len IH]; intro start; cbn [zseq]; constructor.
  - rewrite in_zseq. lia.
  - apply IH.
Qed.

Lemma address_loop_iterate s fuel body m :
  configured s -> enough_fuel s fuel ->
  address_loop fuel s body m = iterate body (addresses s) m.
Proof.
  intros [Hsz [Hmax _]] [Hf _]. unfold address_loop, addresses.
  rewrite (for_loop_iterate 65536 _ body (maxAddress s + 1)).
  - rewrite Z.sub_0_r. reflexivity.
  - intro j. destruct (Z.leb_spec j (maxAddress s)), (Z.ltb_spec j (maxAddress s + 1));
      (reflexivity || lia).
  - lia.
  - lia.
  - lia.
Qed.

Lemma in_addresses s a : configured s -> In a (addresses s) <-> 0 <= a <= maxAddress s.
Proof.
  intros [Hsz [Hmax _]]. unfold addresses. rewrite in_zseq. lia.
Qed.

Lemma count_bits_zero fuel b : count_bits fuel 0 b = b.
Proof. destruct fuel; reflexivity. Qed.

Lemma count_bits_spec fuel : forall t b,
  0 <= t < 2 ^ Z.of_nat fuel -> 0 <= b -> b + Z.of_nat fuel < 256 ->
  b <= count_bits fuel t b <= b + Z.of_nat fuel /\
  t < 2 ^ (count_bits fuel t b - b) /\
  (0 < t -> 2 ^ (count_bits fuel t b - b - 1) <= t).
Proof.
  induction fuel as [|fuel IH]; intros t b Ht Hb Hsum.
  - cbn [count_bits]. change (2 ^ Z.of_nat 0) with 1 in Ht.
    rewrite Z.sub_diag. change (2 ^ 0) with 1. lia.
  - cbn [count_bits]. destruct (Z.ltb_spec 0 t) as [Hpos|Hz].
    + rewrite Nat2Z.inj_succ, Z.pow_succ_r in Ht by lia.
      rewrite Z.shiftr_div_pow2 by lia. change (2 ^ 1) with 2.
      rewrite (u8_small (b + 1)) by lia.
      assert (Hhalf : 0 <= t / 2 < 2 ^ Z.of_nat fuel).
      { split; [apply Z.div_pos; lia | apply Z.div_lt_upper_bound; lia]. }
      destruct (IH (t / 2) (b + 1) Hhalf ltac:(lia) ltac:(lia)) as [Hr [Hu Hl]].
      set (r := count_bits fuel (t / 2) (b + 1)) in *.
      pose proof (Z_div_mod_eq_full t 2) as Hdm.
      pose proof (Z.mod_pos_bound t 2 ltac:(lia)) as Hm.
      replace (r - b) with (Z.succ (r - (b + 1))) by lia.
      rewrite Z.pow_succ_r by lia.
      split; [lia|]. split; [lia|]. intros _.
      replace (Z.succ (r - (b + 1)) - 1) with (r - (b + 1)) by lia.
      destruct (Z.eq_dec (t / 2) 0) as [E|N].
      * subst r. rewrite E, count_bits_zero. rewrite Z.sub_diag.
        change (2 ^ 0) with 1. lia.
      * assert (Hr1 : r - (b + 1) <> 0).
        { intro E0. rewrite E0 in Hu. change (2 ^ 0) with 1 in Hu. lia. }
        specialize (Hl ltac:(lia)).
        replace (r - (b + 1)) with (Z.succ (r - (b + 1) - 1)) by lia.
        rewrite Z.pow_succ_r by lia. lia.
    + assert (t = 0) by lia. subst t. rewrite Z.sub_diag.
      change (2 ^ 0) with 1. lia.
Qed.

Lemma configured_bits s :
  configured s ->
  0 <= addressBits s <= 16 /\
  maxAddress s < 2 ^ addressBits s /\
  (0 < maxAddress s -> 2 ^ (addressBits s - 1) <= maxAddress s).
Proof.
  intros [Hsz [Hmax Hbits]].
  destruct (count_bits_spec 16 (maxAddress s) 0) as [Hr [Hu Hl]].
  - change (2 ^ Z.of_nat 16) with 65536. lia.
  - lia.
  - cbn. lia.
  - rewrite <- Hbits, Z.sub_0_r in *. change (Z.of_nat 16) with 16 in Hr.
    repeat split; (lia || assumption).
Qed.

(** ** Every pattern returns and reports *)

Lemma serial_uart_send s l m : serial (uart_send s l m) = serial m ++ said s l.
Proof.
  unfold uart_send, said. destruct (uart s); cbn [serial print_line];
    [reflexivity | symmetry; apply app_nil_r].
Qed.

Lemma serial_writeByte s addr data m : serial (writeByte s addr data m) = serial m.
Proof.
  unfold writeByte. rewrite serial_log_cycle.
  apply (frame_run (writeByte_code s addr data) m).
Qed.

Lemma serial_readByte s addr m : serial (snd (readByte s addr m)) = serial m.
Proof.
  unfold readByte. cbn [snd]. rewrite serial_log_cycle.
  destruct (frame_run readByte_release (run (readByte_select s addr) m)) as [A _].
  rewrite A. apply (frame_run (readByte_select s addr) m).
Qed.

Lemma extends_refl m : extends (serial m) m.
Proof. exists []. symmetry. apply app_nil_r. Qed.

Lemma extends_step base m m' more :
  extends base m -> serial m' = serial m ++ more -> extends base m'.
Proof.
  intros [lines H] E. exists (lines ++ more). rewrite E, H. symmetry. apply app_assoc.
Qed.

Lemma extends_same base m m' :
  extends base m -> serial m' = serial m -> extends base m'.
Proof. intros [lines H] E. exists lines. rewrite E. exact H. Qed.

Lemma extends_progress s full label addr base m :
  extends base m -> extends base (progress_update s full label addr m).
Proof.
  intro H. unfold progress_update. destruct label as [message|]; [|exact H].
  destruct (full && (Z.land addr 4095 =? 0) && (0 <? addr)); [|exact H].
  eapply extends_step; [exact H|]. unfold sendProgress. apply serial_uart_send.
Qed.

Lemma closes_result s n p base m :
  extends base m -> closes s n base p (sendTestResult s n p m).
Proof.
  intros [lines H]. unfold sendTestResult, closes.
  rewrite serial_uart_send, H. exists lines. rewrite <- app_assoc. reflexivity.
Qed.

Lemma extends_send s l base m : extends base m -> extends base (uart_send s l m).
Proof. intro H. eapply extends_step; [exact H | apply serial_uart_send]. Qed.

Lemma closes_failure s n addr expected actual base m :
  extends base m ->
  closes s n base false
    (sendTestResult s n false (sendTestError s n addr expected actual m)).
Proof. intro H. apply closes_result. unfold sendTestError. apply extends_send, H. Qed.

Lemma closes_success s n base m :
  extends base m -> closes s n base true (sendTestResult s n true m).
Proof. apply closes_result. Qed.

Lemma write_body_ok s n full data label :
  data_quiet data ->
  forall base addr m, extends base m ->
    loop_ok s n base (write_body s full data label addr m).
Proof.
  intros Hq base addr m H. unfold write_body.
  destruct (shouldTestAddress s addr full); cbn [negb]; [|exact H].
  pose proof (Hq addr m) as E. destruct (data addr m) as [d m1]. cbn [snd] in E.
  cbn [loop_ok]. apply extends_progress.
  eapply extends_same; [exact H|]. rewrite serial_writeByte. exact E.
Qed.

Lemma verify_body_ok s n full data label :
  data_quiet data ->
  forall base addr m, extends base m ->
    loop_ok s n base (verify_body s full n data label addr m).
Proof.
  intros Hq base addr m H. unfold verify_body.
  destruct (shouldTestAddress s addr full); cbn [negb]; [|exact H].
  pose proof (Hq addr m) as E. destruct (data addr m) as [expected m1]. cbn [snd] in E.
  pose proof (serial_readByte s addr m1) as R.
  destruct (readByte s addr m1) as [actual m2]. cbn [snd] in R.
  assert (H2 : extends base m2) by (eapply extends_same; [exact H | congruence]).
  destruct (negb (actual =? expected)); cbn [loop_ok].
  - split; [reflexivity|]. apply closes_failure, H2.
  - apply extends_progress, H2.
Qed.

Lemma write_verify_body_ok s n full pattern label :
  forall base addr m, extends base m ->
    loop_ok s n base (write_verify_body s full n pattern label addr m).
Proof.
  intros base addr m H. unfold write_verify_body.
  destruct (shouldTestAddress s addr full); cbn [negb]; [|exact H].
  pose proof (serial_readByte s addr (writeByte s addr pattern m)) as R.
  destruct (readByte s addr (writeByte s addr pattern m)) as [read m2]. cbn [snd] in R.
  rewrite serial_writeByte in R.
  assert (H2 : extends base m2) by (eapply extends_same; [exact H | exact R]).
  destruct (negb (read =? pattern)); cbn [loop_ok].
  - split; [reflexivity|]. apply closes_failure, H2.
  - apply extends_progress, H2.
Qed.

Lemma walking_body_ok s n line addr pattern bitno :
  forall base m, extends base m ->
    loop_ok s n base (walking_body s n line addr pattern bitno m).
Proof.
  intros base m H. unfold walking_body.
  pose proof (serial_readByte s addr (writeByte s addr pattern m)) as R.
  destruct (readByte s addr (writeByte s addr pattern m)) as [read m2]. cbn [snd] in R.
  rewrite serial_writeByte in R.
  assert (H2 : extends base m2) by (eapply extends_same; [exact H | exact R]).
  destruct (negb (read =? pattern)); cbn [loop_ok]; [|exact H2].
  split; [reflexivity|].
  apply closes_result, extends_send. unfold sendTestError. apply extends_send, H2.
Qed.

Lemma iterate_ok s n body :
  (forall base i m, extends base m -> loop_ok s n base (body i m)) ->
  forall l base m, extends base m -> loop_ok s n base (iterate body l m).
Proof.
  intro Hbody. induction l as [|i l IH]; intros base m H; cbn [iterate]; [exact H|].
  pose proof (Hbody base i m H) as Hi.
  destruct (body i m) as [[m'|b m']|]; [apply IH; exact Hi | exact Hi | exact Hi].
Qed.

Lemma and_then_ok s n base r k :
  loop_ok s n base r ->
  (forall m1, extends base m1 -> finishes s n base (k m1)) ->
  finishes s n base (r >>> k).
Proof.
  intros Hr Hk. unfold and_then. destruct r as [[m'|b m']|]; cbn [loop_ok] in Hr.
  - apply Hk, Hr.
  - destruct Hr as [-> Hc]. exists false, m'. split; [reflexivity|exact Hc].
  - destruct Hr.
Qed.

Lemma finishes_success s n base m :
  extends base m -> finishes s n base (Some (true, sendTestResult s n true m)).
Proof.
  intro H. exists true, (sendTestResult s n true m). split; [reflexivity|].
  apply closes_success, H.
Qed.

Lemma extends_start s n full m : extends (serial m) (sendTestStart s n full m).
Proof.
  eapply extends_step; [apply extends_refl|]. unfold sendTestStart.
  apply serial_uart_send.
Qed.

Lemma data_quiet_constant v : data_quiet (constant v).
Proof. intros addr m. reflexivity. Qed.

Lemma data_quiet_low_byte : data_quiet low_byte.
Proof. intros addr m. reflexivity. Qed.

Lemma data_quiet_random {core : ArduinoCore} : data_quiet random_byte.
Proof.
  intros addr m. unfold random_byte, random.
  destruct (core_random 256 (rand_state m)) as [v g]. reflexivity.
Qed.

Ltac phase lemma :=
  apply and_then_ok;
  [ apply iterate_ok; [ intros; apply lemma; auto using data_quiet_constant,
                          data_quiet_low_byte, data_quiet_random
                      | assumption ]
  | let m1 := fresh "m" in let H := fresh "Hext" in
    intros m1 H; cbv beta ].

Lemma testBasicReadWrite_finishes s fuel full m :
  configured s -> enough_fuel s fuel ->
  finishes s 1 (serial m) (testBasicReadWrite fuel s full m).
Proof.
  intros Hc Hf. unfold testBasicReadWrite. cbv zeta.
  pose proof (extends_start s 1 full m) as Hext.
  rewrite address_loop_iterate by assumption. phase write_verify_body_ok.
  rewrite address_loop_iterate by assumption. phase write_verify_body_ok.
  apply finishes_success. assumption.
Qed.

Lemma bits_loop_iterate s fuel (body : Z -> Machine -> option (Flow Machine)) m :
  configured s -> enough_fuel s fuel ->
  for_loop fuel 256 (fun b => b <? addressBits s) body 0 m =
  iterate body (zseq 0 (Z.to_nat (addressBits s))) m.
Proof.
  intros Hc [_ Hf]. destruct (configured_bits s Hc) as [Hb _].
  rewrite (for_loop_iterate 256 _ body (addressBits s)).
  - rewrite Z.sub_0_r. reflexivity.
  - reflexivity.
  - lia.
  - lia.
  - lia.
Qed.

Lemma data_loop_iterate s fuel (body : Z -> Machine -> option (Flow Machine)) m :
  enough_fuel s fuel ->
  for_loop fuel 256 (fun b => b <? 8) body 0 m = iterate body (zseq 0 8) m.
Proof.
  intros [_ Hf]. rewrite (for_loop_iterate 256 _ body 8).
  - reflexivity.
  - reflexivity.
  - lia.
  - lia.
  - lia.
Qed.

Lemma testWalkingOnesAddress_finishes s fuel full m :
  configured s -> enough_fuel s fuel ->
  finishes s 2 (serial m) (testWalkingOnesAddress fuel s full m).
Proof.
  intros Hc Hf. unfold testWalkingOnesAddress. cbv zeta.
  pose proof (extends_start s 2 full m) as Hext.
  rewrite bits_loop_iterate by assumption. phase walking_body_ok.
  apply finishes_success. assumption.
Qed.

Lemma testWalkingOnesData_finishes s fuel full m :
  enough_fuel s fuel ->
  finishes s 3 (serial m) (testWalkingOnesData fuel s full m).
Proof.
  intros Hf. unfold testWalkingOnesData. cbv zeta.
  pose proof (extends_start s 3 full m) as Hext.
  rewrite (data_loop_iterate s) by assumption. phase walking_body_ok.
  apply finishes_success. assumption.
Qed.

Lemma testCheckerboard_finishes s fuel full m :
  configured s -> enough_fuel s fuel ->
  finishes s 4 (serial m) (testCheckerboard fuel s full m).
Proof.
  intros Hc Hf. unfold testCheckerboard, checkerboard_first_write. cbv zeta.
  pose proof (extends_start s 4 full m) as Hext.
  rewrite address_loop_iterate by assumption. phase write_body_ok.
  rewrite address_loop_iterate by assumption. phase verify_body_ok.
  rewrite address_loop_iterate by assumption. phase write_body_ok.
  rewrite address_loop_iterate by assumption. phase verify_body_ok.
  apply finishes_success. assumption.
Qed.

Lemma testInverseCheckerboard_finishes s fuel full m :
  configured s -> enough_fuel s fuel ->
  finishes s 5 (serial m) (testInverseCheckerboard fuel s full m).
Proof.
  intros Hc Hf. unfold testInverseCheckerboard. cbv zeta.
  pose proof (extends_start s 5 full m) as Hext.
  rewrite address_loop_iterate by assumption. phase write_body_ok.
  rewrite address_loop_iterate by assumption. phase verify_body_ok.
  rewrite address_loop_iterate by assumption. phase write_body_ok.
  rewrite address_loop_iterate by assumption. phase verify_body_ok.
  apply finishes_success. assumption.
Qed.

Lemma testAddressEqualsData_finishes s fuel full m :
  configured s -> enough_fuel s fuel ->
  finishes s 6 (serial m) (testAddressEqualsData fuel s full m).
Proof.
  intros Hc Hf. unfold testAddressEqualsData. cbv zeta.
  pose proof (extends_start s 6 full m) as Hext.
  rewrite address_loop_iterate by assumption. phase write_body_ok.
  rewrite address_loop_iterate by assumption. phase verify_body_ok.
  apply finishes_success. assumption.
Qed.

Section CatalogueRuns.

Context {core : ArduinoCore}.

Lemma testRandomPattern_finishes s fuel full m :
  configured s -> enough_fuel s fuel ->
  finishes s 7 (serial m) (testRandomPattern fuel s full m).
Proof.
  intros Hc Hf. unfold testRandomPattern. cbv zeta.
  assert (Hext : extends (serial m) (randomSeed 12345 (sendTestStart s 7 full m))).
  { eapply extends_same; [apply extends_start | reflexivity]. }
  rewrite address_loop_iterate by assumption. phase write_body_ok.
  assert (Hext' : extends (serial m) (randomSeed 12345 m0)).
  { eapply extends_same; [eassumption | reflexivity]. }
  rewrite address_loop_iterate by assumption. phase verify_body_ok.
  apply finishes_success. assumption.
Qed.

Lemma runTest_finishes s fuel k full m :
  configured s -> enough_fuel s fuel -> 1 <= k <= 7 ->
  finishes s k (serial m) (runTest fuel s k full m).
Proof.
  intros Hc Hf Hk.
  assert (E : k = 1 \/ k = 2 \/ k = 3 \/ k = 4 \/ k = 5 \/ k = 6 \/ k = 7) by lia.
  destruct E as [->|[->|[->|[->|[->|[->| ->]]]]]]; unfold runTest;
    cbn [Z.eqb Pos.eqb].
  - apply testBasicReadWrite_finishes; assumption.
  - apply testWalkingOnesAddress_finishes; assumption.
  - apply testWalkingOnesData_finishes; assumption.
  - apply testCheckerboard_finishes; assumption.
  - apply testInverseCheckerboard_finishes; assumption.
  - apply testAddressEqualsData_finishes; assumption.
  - apply testRandomPattern_finishes; assumption.
Qed.

(** The loop of [runAllTests] is the catalogue run, the outcomes folded
    into [allPassed]. *)
Lemma runAllTests_loop s fuel full tests : forall acc m,
  iterate (runAllTests_body fuel s full) tests (acc, m) =
  match run_catalogue fuel s full tests m with
  | None => None
  | Some (outs, m') => Some (Next (acc && forallb (fun p => p) outs, m'))
  end.
Proof.
  induction tests as [|t tests IH]; intros acc m; cbn [iterate run_catalogue].
  - rewrite andb_true_r. reflexivity.
  - unfold runAllTests_body at 1.
    destruct (runTest fuel s t full m) as [[passed m1]|]; [|reflexivity].
    rewrite IH.
    destruct (run_catalogue fuel s full tests m1) as [[outs m2]|]; [|reflexivity].
    cbn [forallb]. destruct passed, acc; reflexivity.
Qed.

(** The catalogue run returns one outcome per pattern and prints each
    pattern's result line, in order. *)
Lemma run_catalogue_reports s fuel full :
  configured s -> enough_fuel s fuel ->
  forall tests m, Forall (fun k => 1 <= k <= 7) tests ->
    exists outs details m',
      run_catalogue fuel s full tests m = Some (outs, m') /\
      List.length outs = List.length tests /\
      List.length details = List.length tests /\
      serial m' = serial m ++ report s tests outs details.
Proof.
  intros Hc Hf. induction tests as [|t tests IH]; intros m Hall.
  - exists [], [], m. cbn. rewrite app_nil_r. repeat split.
  - inversion Hall as [|? ? Ht Hrest]; subst.
    destruct (runTest_finishes s fuel t full m Hc Hf Ht) as [p [m1 [E [d Hd]]]].
    destruct (IH m1 Hrest) as [outs [details [m2 [E2 [L1 [L2 S2]]]]]].
    exists (p :: outs), (d :: details), m2.
    cbn [run_catalogue]. rewrite E, E2. cbn [List.length report].
    repeat split; [congruence | congruence |].
    rewrite S2, Hd. rewrite <- !app_assoc. reflexivity.
Qed.

End CatalogueRuns.

(** C4. On a configured strategy [runAllTests] runs every pattern of the
    selected repertoire in order (1 to 6, or 1 to 7 with the random
    pattern), each from the machine the previous one left and whatever the
    earlier outcomes; each pattern's result line goes to the UART (through
    the attached handler); the value returned is the conjunction of the
    outcomes, true exactly when every pattern passed. *)
Theorem C4_runAllTests_no_short_circuit :
  forall (core : ArduinoCore) (s : SRAMStrategy) (fuel : nat)
         (includeRandom fullTest : bool) (m : Machine),
    configured s -> enough_fuel s fuel ->
    exists (outs : list bool) (details : list (list SerialLine)) (m1 : Machine),
      run_catalogue fuel s fullTest (catalogue includeRandom) m = Some (outs, m1) /\
      List.length outs = List.length (catalogue includeRandom) /\
      List.length details = List.length (catalogue includeRandom) /\
      serial m1 = serial m ++ report s (catalogue includeRandom) outs details /\
      runAllTests fuel s includeRandom fullTest m =
        Some (forallb (fun p => p) outs,
              uart_send s (summary_line (forallb (fun p => p) outs)) m1) /\
      (forallb (fun p => p) outs = true <-> forall p, In p outs -> p = true).
Proof.
  intros core s fuel incl full m Hc Hf.
  assert (Hall : Forall (fun k => 1 <= k <= 7) (catalogue incl)).
  { destruct incl; cbn [catalogue]; repeat constructor; lia. }
  destruct (run_catalogue_reports s fuel full Hc Hf (catalogue incl) m Hall)
    as [outs [details [m1 [E [L1 [L2 S]]]]]].
  exists outs, details, m1. repeat split; try assumption.
  - unfold runAllTests.
    destruct (Z.eqb_spec (sramSize s) 0) as [Hz|_]; [destruct Hc; lia|].
    cbv zeta.
    rewrite (for_loop_iterate 256 _ _ ((if incl then 7 else 6) + 1)).
    + replace (zseq 1 (Z.to_nat ((if incl then 7 else 6) + 1 - 1)))
        with (catalogue incl) by (destruct incl; reflexivity).
      rewrite runAllTests_loop, E. cbn [andb]. reflexivity.
    + intro j. destruct (Z.leb_spec j (if incl then 7 else 6)),
        (Z.ltb_spec j ((if incl then 7 else 6) + 1)); (reflexivity || lia).
    + destruct incl; lia.
    + destruct incl; lia.
    + destruct Hf as [_ Hf]. destruct incl; lia.
  - intros H p Hp. apply (proj1 (forallb_forall _ outs) H p Hp).
  - intro H. apply forallb_forall. exact H.
Qed.

(** ** The phases of a pattern on a fault-free memory *)

Lemma fault_free_same s m m' :
  regs m' = regs m -> chip m' = chip m -> fault_free s m -> fault_free s m'.
Proof.
  intros Hr Hc [Hi Hd]. unfold fault_free, idle. rewrite Hr, Hc. split; assumption.
Qed.

Lemma mem_same m m' j : chip m' = chip m -> mem m' j = mem m j.
Proof. intro H. unfold mem. rewrite H. reflexivity. Qed.

Lemma uart_send_frame s l m :
  regs (uart_send s l m) = regs m /\ chip (uart_send s l m) = chip m /\
  cycles (uart_send s l m) = cycles m /\ rand_state (uart_send s l m) = rand_state m.
Proof. unfold uart_send. destruct (uart s); repeat split. Qed.

Lemma progress_frame s full label addr m :
  regs (progress_update s full label addr m) = regs m /\
  chip (progress_update s full label addr m) = chip m /\
  cycles (progress_update s full label addr m) = cycles m /\
  rand_state (progress_update s full label addr m) = rand_state m.
Proof.
  unfold progress_update. destruct label as [message|]; [|repeat split].
  destruct (full && (Z.land addr 4095 =? 0) && (0 <? addr)); [|repeat split].
  unfold sendProgress. apply uart_send_frame.
Qed.

Lemma plan_addresses s full dataf l : forall g a v,
  In (a, v) (fst (plan s full dataf l g)) -> In a l.
Proof.
  induction l as [|x l IH]; intros g a v H; cbn [plan] in H; [destruct H|].
  destruct (shouldTestAddress s x full).
  - destruct (dataf x g) as [v0 g1].
    specialize (IH g1 a v). destruct (plan s full dataf l g1) as [ws g2].
    cbn [fst In] in *. destruct H as [H|H]; [injection H as -> _; left; reflexivity|].
    right. apply IH, H.
  - right. apply (IH g a v H).
Qed.

Lemma write_phase s full data dataf label :
  data_from data dataf ->
  forall l m,
    fault_free s m -> (forall a, In a l -> 0 <= a <= maxAddress s) -> NoDup l ->
    exists m',
      iterate (write_body s full data label) l m = Some (Next m') /\
      fault_free s m' /\
      rand_state m' = snd (plan s full dataf l (rand_state m)) /\
      cycles m' = cycles m ++ write_cycles (fst (plan s full dataf l (rand_state m))) /\
      (forall a v, In (a, v) (fst (plan s full dataf l (rand_state m))) -> mem m' a = v) /\
      (forall j, ~ In j l -> mem m' j = mem m j).
Proof.
  intro Hdata. induction l as [|x l IH]; intros m Hff Hrange Hnd.
  - exists m. cbn [iterate plan fst snd write_cycles map]. rewrite app_nil_r.
    split; [reflexivity|]. split; [exact Hff|]. split; [reflexivity|].
    split; [reflexivity|]. split; [intros a v []|reflexivity].
  - inversion Hnd as [|? ? Hx Hnd']; subst.
    cbn [iterate plan]. unfold write_body at 1.
    destruct (shouldTestAddress s x full); cbn [negb].
    + destruct (Hdata x m) as [Hv [Hb [Hg [Hr [Hc Hcy]]]]].
      destruct (data x m) as [d m1]. destruct (dataf x (rand_state m)) as [v g1].
      cbn [fst snd] in Hv, Hb, Hg, Hr, Hc, Hcy. subst d.
      assert (Hff1 : fault_free s m1) by (apply (fault_free_same s m); assumption).
      assert (Hx' : 0 <= x <= maxAddress s) by (apply Hrange; left; reflexivity).
      destruct (writeByte_spec s x v m1 Hff1 Hx') as [Hff2 [Hmem [_ [Hcyc Hrand]]]].
      destruct (progress_frame s full label x (writeByte s x v m1)) as [Pr [Pc [Pcy Pg]]].
      set (m2 := progress_update s full label x (writeByte s x v m1)) in *.
      assert (Hff3 : fault_free s m2) by (apply (fault_free_same s (writeByte s x v m1)); assumption).
      destruct (IH m2 Hff3 (fun a Ha => Hrange a (or_intror Ha)) Hnd')
        as [m' [E [Hff' [Hg' [Hcy' [Hin Hout]]]]]].
      assert (Eg : rand_state m2 = g1) by congruence.
      rewrite Eg in *.
      pose proof (plan_addresses s full dataf l g1) as Hpa.
      destruct (plan s full dataf l g1) as [ws g2]. cbn [fst snd] in *.
      exists m'. split; [exact E|]. split; [exact Hff'|]. split; [exact Hg'|].
      split; [|split].
      * rewrite Hcy', Pcy, Hcyc, Hcy. cbn [write_cycles map fst snd].
        rewrite <- app_assoc. reflexivity.
      * intros a w [H|H].
        -- injection H as <- <-. rewrite Hout by (intro Hi; apply Hx; exact Hi).
           rewrite (mem_same _ _ _ Pc), Hmem, Z.eqb_refl. apply u8_small, Hb.
        -- apply Hin, H.
      * intros j Hj. rewrite Hout by (intro Hi; apply Hj; right; exact Hi).
        rewrite (mem_same _ _ _ Pc), Hmem.
        destruct (Z.eqb_spec j x) as [->|_]; [exfalso; apply Hj; left; reflexivity|].
        apply mem_same, Hc.
    + destruct (IH m Hff (fun a Ha => Hrange a (or_intror Ha)) Hnd')
        as [m' [E [Hff' [Hg' [Hcy' [Hin Hout]]]]]].
      exists m'. split; [exact E|]. split; [exact Hff'|]. split; [exact Hg'|].
      split; [exact Hcy'|]. split; [exact Hin|].
      intros j Hj. apply Hout. intro Hi. apply Hj. right. exact Hi.
Qed.

Lemma verify_phase s full n data dataf label :
  data_from data dataf ->
  forall l m,
    fault_free s m -> (forall a, In a l -> 0 <= a <= maxAddress s) ->
    (forall a v, In (a, v) (fst (plan s full dataf l (rand_state m))) -> mem m a = v) ->
    exists m',
      iterate (verify_body s full n data label) l m = Some (Next m') /\
      fault_free s m' /\
      rand_state m' = snd (plan s full dataf l (rand_state m)) /\
      cycles m' = cycles m ++ read_cycles (fst (plan s full dataf l (rand_state m))) /\
      (forall j, mem m' j = mem m j).
Proof.
  intro Hdata. induction l as [|x l IH]; intros m Hff Hrange Hmem.
  - exists m. cbn [iterate plan fst snd read_cycles map]. rewrite app_nil_r.
    split; [reflexivity|]. split; [exact Hff|]. repeat split.
  - cbn [iterate]. cbn [plan] in Hmem |- *. unfold verify_body at 1.
    destruct (shouldTestAddress s x full); cbn [negb].
    + destruct (Hdata x m) as [Hv [Hb [Hg [Hr [Hc Hcy]]]]].
      destruct (data x m) as [d m1]. destruct (dataf x (rand_state m)) as [v g1].
      cbn [fst snd] in Hv, Hb, Hg, Hr, Hc, Hcy. subst d. cbv beta iota.
      assert (Hff1 : fault_free s m1) by (apply (fault_free_same s m); assumption).
      assert (Hx' : 0 <= x <= maxAddress s) by (apply Hrange; left; reflexivity).
      destruct (readByte_spec s x m1 Hff1 Hx') as [Hval [Hff2 [Hm2 [_ [Hcyc Hrand]]]]].
      destruct (readByte s x m1) as [actual m2]. cbn [fst snd] in Hval, Hff2, Hm2, Hcyc, Hrand.
      destruct (progress_frame s full label x m2) as [Pr [Pc [Pcy Pg]]].
      set (m3 := progress_update s full label x m2) in *.
      assert (Hff3 : fault_free s m3) by (apply (fault_free_same s m2); assumption).
      assert (Eg : rand_state m3 = g1) by congruence.
      specialize (IH m3 Hff3 (fun a Ha => Hrange a (or_intror Ha))).
      rewrite Eg in IH.
      destruct (plan s full dataf l g1) as [ws g2]. cbn [fst snd] in *.
      assert (Hact : mem m1 x = v).
      { rewrite (mem_same m m1 x Hc). apply Hmem. left. reflexivity. }
      subst actual. cbv beta iota. rewrite Hact, Z.eqb_refl. cbn [negb].
      destruct IH as [m' [E [Hff' [Hg' [Hcy' Hsame]]]]].
      { intros a w Hin. rewrite (mem_same _ _ _ Pc), Hm2, (mem_same m m1 a Hc).
        apply Hmem. right. exact Hin. }
      exists m'. split; [exact E|]. split; [exact Hff'|]. split; [exact Hg'|]. split.
      * rewrite Hcy', Pcy, Hcyc, Hcy. cbn [read_cycles map fst snd].
        rewrite <- app_assoc, Hact. reflexivity.
      * intro j. rewrite Hsame, (mem_same _ _ _ Pc), Hm2. apply mem_same, Hc.
    + apply IH; [exact Hff | intros a Ha; apply Hrange; right; exact Ha | exact Hmem].
Qed.

Lemma write_read_step s addr v m :
  fault_free s m -> 0 <= addr <= maxAddress s -> 0 <= v < 256 ->
  fst (readByte s addr (writeByte s addr v m)) = v /\
  fault_free s (snd (readByte s addr (writeByte s addr v m))) /\
  rand_state (snd (readByte s addr (writeByte s addr v m))) = rand_state m /\
  cycles (snd (readByte s addr (writeByte s addr v m))) = cycles m ++ write_read addr v.
Proof.
  intros Hff Ha Hv.
  destruct (writeByte_spec s addr v m Hff Ha) as [Hff1 [Hmem [_ [Hcyc Hrand]]]].
  destruct (readByte_spec s addr (writeByte s addr v m) Hff1 Ha)
    as [Hval [Hff2 [_ [_ [Hcyc2 Hrand2]]]]].
  assert (Hcell : mem (writeByte s addr v m) addr = v).
  { rewrite Hmem, Z.eqb_refl. apply u8_small, Hv. }
  rewrite Hcell in Hval, Hcyc2.
  split; [exact Hval|]. split; [exact Hff2|]. split; [congruence|].
  rewrite Hcyc2, Hcyc, <- app_assoc. reflexivity.
Qed.

Lemma write_verify_phase s full n pattern label :
  0 <= pattern < 256 ->
  forall l m,
    fault_free s m -> (forall a, In a l -> 0 <= a <= maxAddress s) ->
    exists m',
      iterate (write_verify_body s full n pattern label) l m = Some (Next m') /\
      fault_free s m' /\
      rand_state m' = rand_state m /\
      cycles m' = cycles m ++
        flat_map (fun a => write_read a pattern)
          (filter (fun a => shouldTestAddress s a full) l).
Proof.
  intro Hp. induction l as [|x l IH]; intros m Hff Hrange.
  - exists m. cbn [iterate filter flat_map]. rewrite app_nil_r.
    split; [reflexivity|]. split; [exact Hff|]. split; reflexivity.
  - cbn [iterate filter]. unfold write_verify_body at 1.
    destruct (shouldTestAddress s x full); cbn [negb].
    + assert (Hx : 0 <= x <= maxAddress s) by (apply Hrange; left; reflexivity).
      destruct (write_read_step s x pattern m Hff Hx Hp) as [Hval [Hff2 [Hrand Hcyc]]].
      destruct (readByte s x (writeByte s x pattern m)) as [read m2].
      cbn [fst snd] in Hval, Hff2, Hrand, Hcyc. subst read.
      rewrite Z.eqb_refl. cbn [negb].
      destruct (progress_frame s full label x m2) as [Pr [Pc [Pcy Pg]]].
      set (m3 := progress_update s full label x m2) in *.
      assert (Hff3 : fault_free s m3) by (apply (fault_free_same s m2); assumption).
      destruct (IH m3 Hff3 (fun a Ha => Hrange a (or_intror Ha)))
        as [m' [E [Hff' [Hg' Hcy']]]].
      exists m'. split; [exact E|]. split; [exact Hff'|]. split; [congruence|].
      rewrite Hcy', Pcy, Hcyc. cbn [flat_map]. rewrite <- !app_assoc. reflexivity.
    + apply IH; [exact Hff | intros a Ha; apply Hrange; right; exact Ha].
Qed.

Lemma walking_phase s n line (addrf patf : Z -> Z) :
  forall l m,
    fault_free s m ->
    (forall b, In b l -> 0 <= addrf b <= maxAddress s /\ 0 <= patf b < 256) ->
    exists m',
      iterate (fun b st => walking_body s n line (addrf b) (patf b) b st) l m
        = Some (Next m') /\
      fault_free s m' /\
      rand_state m' = rand_state m /\
      cycles m' = cycles m ++ flat_map (fun b => write_read (addrf b) (patf b)) l.
Proof.
  induction l as [|x l IH]; intros m Hff Hrange.
  - exists m. cbn [iterate flat_map]. rewrite app_nil_r.
    split; [reflexivity|]. split; [exact Hff|]. split; reflexivity.
  - cbn [iterate]. unfold walking_body at 1.
    destruct (Hrange x (or_introl eq_refl)) as [Hx Hp].
    destruct (write_read_step s (addrf x) (patf x) m Hff Hx Hp)
      as [Hval [Hff2 [Hrand Hcyc]]].
    destruct (readByte s (addrf x) (writeByte s (addrf x) (patf x) m)) as [read m2].
    cbn [fst snd] in Hval, Hff2, Hrand, Hcyc. subst read.
    rewrite Z.eqb_refl. cbn [negb].
    destruct (IH m2 Hff2 (fun b Hb => Hrange b (or_intror Hb)))
      as [m' [E [Hff' [Hg' Hcy']]]].
    exists m'. split; [exact E|]. split; [exact Hff'|]. split; [congruence|].
    rewrite Hcy', Hcyc. cbn [flat_map]. rewrite <- !app_assoc. reflexivity.
Qed.

Lemma plan_constant s full v l : forall g,
  plan s full (fun _ g0 => (v, g0)) l g =
  (map (fun a => (a, v)) (filter (fun a => shouldTestAddress s a full) l), g).
Proof.
  induction l as [|x l IH]; intro g; cbn [plan filter map]; [reflexivity|].
  destruct (shouldTestAddress s x full); rewrite IH; reflexivity.
Qed.


Lemma data_from_constant v : 0 <= v < 256 -> data_from (constant v) (fun _ g => (v, g)).
Proof. intros Hv addr m. unfold constant. cbn [fst snd]. repeat split; lia. Qed.

Lemma data_from_low_byte :
  data_from low_byte (fun addr g => (u8 (Z.land addr 0xFF), g)).
Proof.
  intros addr m. unfold low_byte. cbn [fst snd].
  pose proof (u8_range (Z.land addr 255)). repeat split; lia.
Qed.

Lemma data_from_random {core : ArduinoCore} : data_from random_byte random_data.
Proof.
  intros addr m. unfold random_byte, random, random_data.
  destruct (core_random 256 (rand_state m)) as [v g]. cbn [fst snd with_rand rand_state regs chip cycles].
  pose proof (u8_range v). repeat split; lia.
Qed.

(** ** Fault-free chips exist for every configured size *)

Lemma land_below_32 h : 0 <= h < 32 -> Z.land h 32 = 0.
Proof.
  intro H. apply Z.bits_inj'. intros n Hn.
  rewrite Z.land_spec, Z.bits_0. change 32 with (2 ^ 5).
  rewrite Z.pow2_bits_eqb by lia.
  destruct (Z.eqb_spec 5 n) as [<-|_]; [|apply andb_false_r].
  rewrite andb_true_r. apply Z.testbit_false; [lia|].
  change (2 ^ 5) with 32. rewrite Z.div_small by lia. reflexivity.
Qed.

Lemma lor_32_add h : 0 <= h < 32 -> Z.lor h 32 = h + 32.
Proof.
  intro H. rewrite <- Z.lxor_lor by (apply land_below_32, H).
  symmetry. apply Z.add_nocarry_lxor, land_below_32, H.
Qed.

Lemma land_bit13 x : 8192 <= x < 16384 -> Z.land x (bit 13) = bit 13.
Proof.
  intro H. change (bit 13) with (2 ^ 13). apply Z.bits_inj'. intros n Hn.
  rewrite Z.land_spec, Z.pow2_bits_eqb by lia.
  destruct (Z.eqb_spec 13 n) as [<-|_]; [|apply andb_false_r].
  rewrite andb_true_r. apply Z.testbit_true; [lia|].
  change (2 ^ 13) with 8192.
  pose proof (Z_div_mod_eq_full x 8192). pose proof (Z.mod_pos_bound x 8192 ltac:(lia)).
  assert (x / 8192 = 1) by lia. replace (x / 8192) with 1. reflexivity.
Qed.

Lemma driven_addr_small s addr :
  sramSize s <= 8192 -> 0 <= addr < 8192 -> driven_addr s addr = addr + 8192.
Proof.
  intros Hs Ha. unfold driven_addr.
  rewrite highByte_small, high_byte_of, u8_land_255, low_byte_of by lia.
  assert (0 <= addr / 256 < 32).
  { split; [apply Z.div_pos; lia | apply Z.div_lt_upper_bound; lia]. }
  rewrite lor_32_add by assumption.
  pose proof (Z_div_mod_eq_full addr 256). lia.
Qed.

Lemma driven_addr_big s addr :
  8192 < sramSize s -> 0 <= addr < 65536 -> driven_addr s addr = addr.
Proof.
  intros Hs Ha. unfold driven_addr.
  rewrite highByte_big, high_byte_of, u8_land_255, low_byte_of by lia.
  pose proof (Z_div_mod_eq_full addr 256). lia.
Qed.

Lemma sram_chip_decodes s cs2 contents :
  configured s -> (cs2 = true -> sramSize s <= 8192) ->
  decodes s (sram_chip (addressBits s) cs2 contents).
Proof.
  intros Hc Hcs2 addr Ha.
  destruct (configured_bits s Hc) as [Hb [Hu Hl]].
  destruct Hc as [Hsz [Hmax Hbits]].
  cbn [sram_chip addr_mask enable_mask].
  rewrite !Z.land_ones by lia.
  destruct (Z.le_gt_cases (sramSize s) 8192) as [Hsmall|Hbig].
  - rewrite driven_addr_small by lia. split.
    + assert (Hb13 : addressBits s <= 13).
      { destruct (Z.eq_dec (maxAddress s) 0) as [E|N].
        - rewrite Hbits, E, count_bits_zero. lia.
        - destruct (Z.le_gt_cases (addressBits s) 13) as [H|H]; [exact H|].
          exfalso. specialize (Hl ltac:(lia)).
          assert (2 ^ 13 <= 2 ^ (addressBits s - 1)) by (apply Z.pow_le_mono_r; lia).
          change (2 ^ 13) with 8192 in *. lia. }
      replace 8192 with (2 ^ (13 - addressBits s) * 2 ^ addressBits s).
      * rewrite Z.mod_add by (apply Z.pow_nonzero; lia). apply Z.mod_small. lia.
      * rewrite <- Z.pow_add_r by lia.
        replace (13 - addressBits s + addressBits s) with 13 by lia. reflexivity.
    + destruct cs2; [apply land_bit13; lia | apply Z.land_0_r].
  - rewrite driven_addr_big by lia. split.
    + apply Z.mod_small. lia.
    + destruct cs2; [specialize (Hcs2 eq_refl); lia | apply Z.land_0_r].
Qed.

Lemma idle_configurePins m : idle (configurePins m).
Proof.
  unfold idle, configurePins. rewrite regs_run.
  cbn [configurePins_code fold_left instr_regs set_reg Reg_eqb].
  unfold control_mask.
  rewrite !testbit_u8, !Z.lor_spec, !testbit_bit by lia.
  repeat split; cbn [Z.eqb Pos.eqb orb]; rewrite ?orb_true_r; reflexivity.
Qed.

Lemma masks_react f c :
  addr_mask (react f c) = addr_mask c /\ enable_mask (react f c) = enable_mask c.
Proof. unfold react. destruct (_ && _); split; reflexivity. Qed.

Lemma masks_chip_run code : forall f c,
  addr_mask (chip_run code f c) = addr_mask c /\
  enable_mask (chip_run code f c) = enable_mask c.
Proof.
  induction code as [|i code IH]; intros f c.
  - rewrite chip_run_nil. split; reflexivity.
  - rewrite chip_run_cons.
    destruct (IH (instr_regs i f) (react (instr_regs i f) c)) as [A B].
    destruct (masks_react (instr_regs i f) c) as [A' B'].
    split; congruence.
Qed.

Lemma decodes_masks s c c' :
  addr_mask c' = addr_mask c -> enable_mask c' = enable_mask c ->
  decodes s c -> decodes s c'.
Proof. intros A B H addr Ha. rewrite A, B. apply H, Ha. Qed.

(** After [configurePins] a chip of the configured size is a fault-free
    memory behind an idle port. *)
Lemma session_fault_free s cs2 contents m :
  configured s -> (cs2 = true -> sramSize s <= 8192) ->
  chip m = sram_chip (addressBits s) cs2 contents ->
  fault_free s (configurePins m).
Proof.
  intros Hc Hcs2 Hchip. split; [apply idle_configurePins|].
  unfold configurePins. rewrite chip_run_spec.
  destruct (masks_chip_run configurePins_code (regs m) (chip m)) as [A B].
  apply (decodes_masks s (chip m)); [exact A | exact B |].
  rewrite Hchip. apply sram_chip_decodes; assumption.
Qed.

(** ** The patterns on a fault-free memory *)

Lemma fault_free_start s n full m :
  fault_free s m -> fault_free s (sendTestStart s n full m).
Proof.
  intro H. unfold sendTestStart.
  destruct (uart_send_frame s (LineInfo (test_prefix n ++ (if full then "FULL mode" else "QUICK mode"))%string) m)
    as [A [B _]].
  apply (fault_free_same s m); assumption.
Qed.

Lemma start_frame s n full m :
  cycles (sendTestStart s n full m) = cycles m /\
  rand_state (sendTestStart s n full m) = rand_state m /\
  chip (sendTestStart s n full m) = chip m.
Proof.
  unfold sendTestStart.
  destruct (uart_send_frame s (LineInfo (test_prefix n ++ (if full then "FULL mode" else "QUICK mode"))%string) m)
    as [A [B [C D]]].
  repeat split; assumption.
Qed.

Lemma result_frame s n p m : cycles (sendTestResult s n p m) = cycles m.
Proof. unfold sendTestResult. apply uart_send_frame. Qed.

Lemma addresses_range s :
  configured s -> forall a, In a (addresses s) -> 0 <= a <= maxAddress s.
Proof. intros Hc a Ha. apply (in_addresses s a Hc), Ha. Qed.

Lemma NoDup_addresses s : NoDup (addresses s).
Proof. apply NoDup_zseq. Qed.

Lemma tested_range s full :
  configured s -> forall a, In a (tested s full) -> 0 <= a <= maxAddress s.
Proof.
  intros Hc a Ha. apply filter_In in Ha. apply (addresses_range s Hc), Ha.
Qed.


Lemma write_cycles_constant v l :
  write_cycles (map (fun a => (a, v)) l) = map (fun a => WriteCycle a v) l.
Proof. unfold write_cycles. rewrite map_map. reflexivity. Qed.

Lemma read_cycles_constant v l :
  read_cycles (map (fun a => (a, v)) l) = map (fun a => ReadCycle a v) l.
Proof. unfold read_cycles. rewrite map_map. reflexivity. Qed.

(** A write phase with a constant byte followed by its verify phase. *)
Lemma constant_write_verify s full n v label1 label2 m :
  configured s -> fault_free s m -> 0 <= v < 256 ->
  exists m1 m2,
    iterate (write_body s full (constant v) label1) (addresses s) m = Some (Next m1) /\
    (forall a, In a (tested s full) -> mem m1 a = v) /\
    fault_free s m1 /\
    iterate (verify_body s full n (constant v) label2) (addresses s) m1 = Some (Next m2) /\
    fault_free s m2 /\
    cycles m2 = cycles m ++ map (fun a => WriteCycle a v) (tested s full)
                         ++ map (fun a => ReadCycle a v) (tested s full).
Proof.
  intros Hc Hff Hv.
  destruct (write_phase s full (constant v) _ label1 (data_from_constant v Hv)
              (addresses s) m Hff (addresses_range s Hc) (NoDup_addresses s))
    as [m1 [E1 [Hff1 [_ [Hcy1 [Hin1 _]]]]]].
  rewrite plan_constant in Hcy1, Hin1. cbn [fst] in Hcy1, Hin1.
  fold (tested s full) in Hcy1, Hin1.
  destruct (verify_phase s full n (constant v) _ label2 (data_from_constant v Hv)
              (addresses s) m1 Hff1 (addresses_range s Hc))
    as [m2 [E2 [Hff2 [_ [Hcy2 _]]]]].
  { rewrite plan_constant. cbn [fst]. exact Hin1. }
  rewrite plan_constant in Hcy2. cbn [fst] in Hcy2. fold (tested s full) in Hcy2.
  exists m1, m2. split; [exact E1|]. split.
  { intros a Ha. apply Hin1. apply in_map_iff. exists a. split; [reflexivity|exact Ha]. }
  split; [exact Hff1|]. split; [exact E2|]. split; [exact Hff2|].
  rewrite Hcy2, Hcy1, write_cycles_constant, read_cycles_constant, <- app_assoc.
  reflexivity.
Qed.


Lemma sram8_configured : configured sram8.
Proof. apply configured_setUARTHandler, setSize_configured. lia. Qed.

Lemma bench8_fault_free : fault_free sram8 bench8.
Proof.
  apply (session_fault_free sram8 true (fun _ => 0)).
  - exact sram8_configured.
  - intros _. cbn. lia.
  - reflexivity.
Qed.

Lemma sram8_fuel : enough_fuel sram8 20.
Proof. split; cbn; lia. Qed.

(** *** Test 4 *)




(** *** Test 1 *)






(** *** Tests 2 and 3 *)

Lemma u16_bit b : 0 <= b < 16 -> u16 (bit b) = 2 ^ b.
Proof.
  intro H. unfold bit, u16. rewrite Z.shiftl_1_l. apply Z.mod_small.
  split; [apply Z.pow_nonneg; lia|].
  change 65536 with (2 ^ 16). apply Z.pow_lt_mono_r; lia.
Qed.

Lemma u8_bit b : 0 <= b < 8 -> u8 (bit b) = 2 ^ b.
Proof.
  intro H. unfold bit, u8. rewrite Z.shiftl_1_l. apply Z.mod_small.
  split; [apply Z.pow_nonneg; lia|].
  change 256 with (2 ^ 8). apply Z.pow_lt_mono_r; lia.
Qed.







(** *** Test 7 *)

Section RandomPattern.

Context {core : ArduinoCore}.

(** The contract of [randomSeed] the pattern relies on: seeding with 12345
    puts the generator in a state that depends on the seed only. *)
Hypothesis seed_resets :
  forall g g', core_randomSeed 12345 g = core_randomSeed 12345 g'.

Lemma randomSeed_frame m :
  regs (randomSeed 12345 m) = regs m /\ chip (randomSeed 12345 m) = chip m /\
  cycles (randomSeed 12345 m) = cycles m /\
  rand_state (randomSeed 12345 m) = core_randomSeed 12345 0.
Proof.
  unfold randomSeed. cbn [with_rand regs chip cycles rand_state].
  repeat split. apply seed_resets.
Qed.



End RandomPattern.



Lemma C4_runAllTests_no_short_circuit_witness :
  exists outs m1,
    run_catalogue 20 sram8 false (catalogue true) bench8 = Some (outs, m1) /\
    List.length outs = 7%nat /\
    runAllTests 20 sram8 true false bench8 =
      Some (forallb (fun p => p) outs,
            uart_send sram8 (summary_line (forallb (fun p => p) outs)) m1).
Proof.
  destruct (C4_runAllTests_no_short_circuit avr_core sram8 20 true false bench8
              sram8_configured sram8_fuel)
    as [outs [details [m1 [E [L [_ [_ [R _]]]]]]]].
  exists outs, m1. repeat split; assumption.
Defined.

(** ** The MODE command *)

(** C9 (the defect). [MODE SRAM 1000] is accepted although 1000 is no
    power of two: the size is configured and the SRAM mode becomes active. *)
Theorem C9_mode_accepts_non_power_of_two :
  let fw := handleModeCommand "SRAM 1000" (boot (sram_chip 10 false (fun _ => 0))) in
  sramSize (sramStrategy fw) = 1000 /\
  maxAddress (sramStrategy fw) = 999 /\
  currentMode (modeManager fw) = SRAM62256 /\
  currentStrategy (modeManager fw) = Some sramStrategy_ref /\
  serial (machine fw) = [LineOK "SRAM mode set: 1000 bytes"] /\
  (forall k, 0 <= k -> 1000 <> 2 ^ k).
Proof.
  cbv zeta. repeat split.
  intros k Hk E.
  destruct (Z.lt_ge_cases k 10) as [H|H].
  - assert (2 ^ k <= 2 ^ 9) by (apply Z.pow_le_mono_r; lia).
    change (2 ^ 9) with 512 in *. lia.
  - assert (2 ^ 10 <= 2 ^ k) by (apply Z.pow_le_mono_r; lia).
    change (2 ^ 10) with 1024 in *. lia.
Qed.

(** A size of zero is refused: nothing but the two error lines changes. *)
Lemma mode_rejects_zero fw :
  handleModeCommand "SRAM 0" fw =
  say (LineInfo "Valid sizes: 8192 (8KB), 32768 (32KB)")
    (say (LineError "Invalid SRAM size") fw).
Proof. reflexivity. Qed.

(** * Further properties of the code *)

(** ** The pins during port operations *)

Ltac bitwise :=
  repeat first [ rewrite testbit_u8 by lia
               | rewrite Z.lor_spec
               | rewrite Z.land_spec
               | rewrite Z.lnot_spec by lia
               | rewrite testbit_bit by lia ].

Lemma idle_reset m : idle (reset m).
Proof.
  unfold idle, reset. rewrite regs_run.
  cbn [reset_code fold_left instr_regs set_reg Reg_eqb].
  unfold control_mask. bitwise.
  repeat split; cbn [Z.eqb Pos.eqb orb]; rewrite ?orb_true_r; reflexivity.
Qed.

Lemma idle_do_op s op m : idle m -> idle (do_op s op m).
Proof.
  intro H. destruct op as [| |addr data|addr]; cbn [do_op].
  - apply idle_configurePins.
  - apply idle_reset.
  - apply idle_after_write, H.
  - apply idle_after_read, H.
Qed.

Ltac safe_instant Hd H0 H2 H3 :=
  unfold safe_pins, control_mask;
  cbn [set_reg Reg_eqb instr_regs];
  bitwise; rewrite ?Hd, ?H0, ?H2, ?H3;
  cbn [Z.eqb Pos.eqb negb andb orb];
  repeat split; intro; try reflexivity; try discriminate.

Lemma op_instants_safe s op m :
  idle m -> Forall (fun st => safe_pins (regs st)) (trace (op_code s op) m).
Proof.
  intros [Hd [H0 [H2 H3]]]. apply Forall_trace_regs.
  destruct op as [| |addr data|addr];
    cbn [op_code configurePins_code reset_code writeByte_code readByte_select
         readByte_release setAddress_code app regs_trace];
    repeat (apply Forall_cons; [safe_instant Hd H0 H2 H3|]);
    apply Forall_nil.
Qed.

Lemma instants_safe s ops : forall m,
  idle m ->
  Forall (fun p => safe_pins (regs (snd p))) (instants s ops m) /\
  idle (do_ops s ops m).
Proof.
  induction ops as [|op ops IH]; intros m H; cbn [instants].
  - split; [apply Forall_nil | exact H].
  - destruct (IH (do_op s op m) (idle_do_op s op m H)) as [Hrest Hidle].
    split; [|exact Hidle].
    apply Forall_app. split; [|exact Hrest].
    pose proof (op_instants_safe s op m H) as Hop.
    rewrite Forall_forall in *. intros p Hin.
    apply in_map_iff in Hin. destruct Hin as [st [<- Hst]]. apply Hop, Hst.
Qed.

(** X1. No bus contention: through any sequence of port operations begun
    with the port idle, at no instant does the port drive the data lines
    (DDRL = 0xFF) while the chip is told to (/CS and /OE low, /WE high). *)
Theorem no_bus_contention :
  forall (s : SRAMStrategy) (ops : list PortOp) (m : Machine),
    idle m ->
    forall op st, In (op, st) (instants s ops m) ->
      ~ (regs st DDRL = 0xFF /\
         Z.testbit (regs st PORTG) 0 = false /\
         Z.testbit (regs st PORTG) 2 = false /\
         Z.testbit (regs st PORTG) 3 = true).
Proof.
  intros s ops m H op st Hin [Hd [_ [H2 _]]].
  destruct (instants_safe s ops m H) as [Hall _].
  rewrite Forall_forall in Hall. destruct (Hall (op, st) Hin) as [Hsafe _].
  cbn [snd] in Hsafe. rewrite (Hsafe Hd) in H2. discriminate.
Qed.

Lemma no_bus_contention_witness :
  let s := setSize 8192 SRAMStrategy_new in
  let m := configurePins (power_on (sram_chip 13 true (fun _ => 0))) in
  let p := nth 5 (instants s [WriteByte 5 0xAA; ReadByte 5] m) (ResetPort, m) in
  ~ (regs (snd p) DDRL = 0xFF /\
     Z.testbit (regs (snd p) PORTG) 0 = false /\
     Z.testbit (regs (snd p) PORTG) 2 = false /\
     Z.testbit (regs (snd p) PORTG) 3 = true).
Proof.
  intros s m p.
  apply (no_bus_contention s [WriteByte 5 0xAA; ReadByte 5] m (idle_configurePins _)
           (fst p) (snd p)).
  rewrite <- surjective_pairing. apply nth_In. apply Nat.ltb_lt. reflexivity.
Defined.

(** X2. Strobe ordering: through any sequence of port operations begun
    with the port idle, /WE or /OE is low only while /CS is low, that is
    chip select is asserted before the strobe and released after it. *)
Theorem strobes_inside_chip_select :
  forall (s : SRAMStrategy) (ops : list PortOp) (m : Machine),
    idle m ->
    forall op st, In (op, st) (instants s ops m) ->
      (Z.testbit (regs st PORTG) 3 = false -> Z.testbit (regs st PORTG) 0 = false) /\
      (Z.testbit (regs st PORTG) 2 = false -> Z.testbit (regs st PORTG) 0 = false).
Proof.
  intros s ops m H op st Hin.
  destruct (instants_safe s ops m H) as [Hall _].
  rewrite Forall_forall in Hall. destruct (Hall (op, st) Hin) as [_ Hord].
  exact Hord.
Qed.

Lemma strobes_inside_chip_select_witness :
  let s := setSize 8192 SRAMStrategy_new in
  let m := configurePins (power_on (sram_chip 13 true (fun _ => 0))) in
  let p := nth 5 (instants s [WriteByte 5 0xAA; ReadByte 5] m) (ResetPort, m) in
  (Z.testbit (regs (snd p) PORTG) 3 = false -> Z.testbit (regs (snd p) PORTG) 0 = false) /\
  (Z.testbit (regs (snd p) PORTG) 2 = false -> Z.testbit (regs (snd p) PORTG) 0 = false).
Proof.
  intros s m p.
  apply (strobes_inside_chip_select s [WriteByte 5 0xAA; ReadByte 5] m
           (idle_configurePins _) (fst p) (snd p)).
  rewrite <- surjective_pairing. apply nth_In. apply Nat.ltb_lt. reflexivity.
Defined.

(** X3. [configurePins] and [reset] leave the port idle (data lines
    released, /CS, /OE and /WE high) from any register contents, and a
    sequence of port operations begun idle ends idle. *)
Theorem port_returns_to_idle :
  forall (s : SRAMStrategy) (ops : list PortOp) (m m0 : Machine),
    idle m ->
    idle (do_ops s ops m) /\ idle (configurePins m0) /\ idle (reset m0).
Proof.
  intros s ops m m0 H. split; [|split].
  - apply (instants_safe s ops m H).
  - apply idle_configurePins.
  - apply idle_reset.
Qed.

Lemma port_returns_to_idle_witness :
  idle (do_ops (setSize 8192 SRAMStrategy_new) [WriteByte 5 0xAA; ReadByte 5]
          (configurePins (power_on (sram_chip 13 true (fun _ => 0))))).
Proof.
  exact (proj1 (port_returns_to_idle (setSize 8192 SRAMStrategy_new)
                  [WriteByte 5 0xAA; ReadByte 5]
                  (configurePins (power_on (sram_chip 13 true (fun _ => 0))))
                  (power_on (sram_chip 13 true (fun _ => 0)))
                  (idle_configurePins _))).
Defined.

(** ** A bus cycle whatever the address decoding *)

Lemma writeByte_chip_any s addr data m :
  responsive s m ->
  chip (writeByte s addr data m) =
  store_cell (Z.land (driven_addr s addr) (addr_mask (chip m))) (u8 data)
    (store_cell (Z.land (driven_addr s addr) (addr_mask (chip m))) (u8 data) (chip m)).
Proof.
  intros [[Hd [H0 [H2 H3]]] Hans].
  pose proof (Hans addr) as Hen.
  unfold writeByte. rewrite chip_log_cycle, chip_run_spec.
  unfold writeByte_code, setAddress_code. cbn [app].
  do 5 quiet_step.
  do 2 store_step (Z.land (driven_addr s addr) (addr_mask (chip m))) (u8 data).
  do 3 quiet_step.
  apply chip_run_nil.
Qed.

Lemma readByte_sample_any s addr m :
  responsive s m ->
  PINL (run (readByte_select s addr) m) =
  mem m (Z.land (driven_addr s addr) (addr_mask (chip m))).
Proof.
  intros [[Hd [H0 [H2 H3]]] Hans].
  pose proof (Hans addr) as Hen.
  unfold PINL. rewrite data_lines_pins.
  rewrite readByte_select_chip by (repeat split; assumption).
  rewrite regs_run. unfold readByte_select, setAddress_code.
  cbn [app fold_left].
  rewrite (pins_data_read _ _ (Z.land (driven_addr s addr) (addr_mask (chip m)))) by pins.
  unfold mem. apply u8_u8.
Qed.

Lemma answers_masks s c c' :
  enable_mask c' = enable_mask c -> answers s c -> answers s c'.
Proof. intros E H addr. rewrite E. apply H. Qed.

Lemma responsive_write s addr data m :
  responsive s m -> responsive s (writeByte s addr data m).
Proof.
  intros H. pose proof (writeByte_chip_any s addr data m H) as Hc.
  destruct H as [Hi Ha]. split; [apply idle_after_write, Hi|].
  rewrite Hc. exact Ha.
Qed.

Lemma chip_readByte s addr m : idle m -> chip (snd (readByte s addr m)) = chip m.
Proof.
  intro Hidle. unfold readByte. cbn [snd]. rewrite chip_log_cycle.
  rewrite readByte_release_chip.
  - apply readByte_select_chip, Hidle.
  - destruct Hidle as [Hd [H0 [H2 H3]]]. rewrite regs_run.
    unfold readByte_select, setAddress_code. cbn [app fold_left]. pins.
Qed.

Lemma responsive_read s addr m :
  responsive s m -> responsive s (snd (readByte s addr m)).
Proof.
  intros [Hi Ha]. split; [apply idle_after_read, Hi|].
  rewrite chip_readByte by exact Hi. exact Ha.
Qed.

Lemma write_read_any s addr data m :
  responsive s m ->
  fst (readByte s addr (writeByte s addr data m)) = u8 data.
Proof.
  intro H. pose proof (responsive_write s addr data m H) as Hw.
  unfold readByte. cbn [fst].
  rewrite (readByte_sample_any s addr _ Hw).
  unfold mem. rewrite (writeByte_chip_any s addr data m H).
  cbn [cells store_cell addr_mask]. rewrite Z.eqb_refl. apply u8_u8.
Qed.

(** X4. Round trip of the port: on a memory that answers on the bus, with
    the port idle, the byte [readByte] returns right after [writeByte] at
    the same address is the byte written (its low eight bits), whatever
    the address and however the chip decodes its address lines; the port is
    idle again afterwards. *)
Theorem write_then_read_any_decoding :
  forall (s : SRAMStrategy) (addr data : Z) (m : Machine),
    responsive s m ->
    fst (readByte s addr (writeByte s addr data m)) = data mod 256 /\
    responsive s (snd (readByte s addr (writeByte s addr data m))).
Proof.
  intros s addr data m H. split.
  - apply write_read_any, H.
  - apply responsive_read, responsive_write, H.
Qed.

Lemma stuck_a1_responsive :
  responsive sram8 (configurePins (power_on stuck_a1_chip)).
Proof.
  split; [apply idle_configurePins|].
  unfold configurePins. rewrite chip_run_spec.
  destruct (masks_chip_run configurePins_code (regs (power_on stuck_a1_chip))
              (chip (power_on stuck_a1_chip))) as [_ B].
  apply (answers_masks sram8 (chip (power_on stuck_a1_chip))); [exact B|].
  intro addr. apply Z.land_0_r.
Qed.

Lemma write_then_read_any_decoding_witness :
  fst (readByte sram8 2 (writeByte sram8 2 0x1A5
                           (configurePins (power_on stuck_a1_chip)))) = 0xA5.
Proof.
  exact (proj1 (write_then_read_any_decoding sram8 2 0x1A5 _ stuck_a1_responsive)).
Defined.

(** ** Every pattern leaves the port idle *)

Lemma idle_same m m' : regs m' = regs m -> idle m -> idle m'.
Proof. intros E H. unfold idle. rewrite E. exact H. Qed.

Lemma for_loop_keeps {St : Type} (P : St -> Prop) wrap cond
    (body : Z -> St -> option (Flow St)) :
  (forall i st, P st -> flow_keeps P (body i st)) ->
  forall fuel i st, P st -> flow_keeps P (for_loop fuel wrap cond body i st).
Proof.
  intro Hbody. induction fuel as [|fuel IH]; intros i st H; cbn [for_loop flow_keeps].
  - exact I.
  - destruct (cond i); [|exact H].
    pose proof (Hbody i st H) as Hi.
    destruct (body i st) as [[st'|b st']|]; cbn [flow_keeps] in Hi |- *.
    + apply IH, Hi.
    + exact Hi.
    + exact I.
Qed.

Lemma and_then_keeps (P : Machine -> Prop) r k :
  flow_keeps P r ->
  (forall m, P m -> result_keeps P (k m)) ->
  result_keeps P (r >>> k).
Proof.
  intros Hr Hk. unfold and_then.
  destruct r as [[m'|b m']|]; cbn [flow_keeps] in Hr; cbn [result_keeps].
  - apply Hk, Hr.
  - exact Hr.
  - exact I.
Qed.

Lemma idle_uart_send s l m : idle m -> idle (uart_send s l m).
Proof. apply idle_same. apply uart_send_frame. Qed.

Lemma idle_progress s full label addr m :
  idle m -> idle (progress_update s full label addr m).
Proof. apply idle_same. apply progress_frame. Qed.

Lemma idle_failure s n addr expected actual m :
  idle m ->
  idle (sendTestResult s n false (sendTestError s n addr expected actual m)).
Proof.
  intro H. unfold sendTestResult, sendTestError. apply idle_uart_send, idle_uart_send, H.
Qed.

Lemma write_body_idle s full data label :
  data_regs data ->
  forall addr m, idle m -> flow_keeps idle (write_body s full data label addr m).
Proof.
  intros Hq addr m H. unfold write_body.
  destruct (shouldTestAddress s addr full); cbn [negb]; [|exact H].
  pose proof (Hq addr m) as E. destruct (data addr m) as [d m1]. cbn [snd] in E.
  cbn [flow_keeps]. apply idle_progress, idle_after_write, (idle_same m); assumption.
Qed.

Lemma verify_body_idle s full n data label :
  data_regs data ->
  forall addr m, idle m -> flow_keeps idle (verify_body s full n data label addr m).
Proof.
  intros Hq addr m H. unfold verify_body.
  destruct (shouldTestAddress s addr full); cbn [negb]; [|exact H].
  pose proof (Hq addr m) as E. destruct (data addr m) as [expected m1]. cbn [snd] in E.
  pose proof (idle_after_read s addr m1 (idle_same m m1 E H)) as R.
  destruct (readByte s addr m1) as [actual m2]. cbn [snd] in R.
  destruct (negb (actual =? expected)); cbn [flow_keeps].
  - apply idle_failure, R.
  - apply idle_progress, R.
Qed.

Lemma write_verify_body_idle s full n pattern label :
  forall addr m, idle m ->
    flow_keeps idle (write_verify_body s full n pattern label addr m).
Proof.
  intros addr m H. unfold write_verify_body.
  destruct (shouldTestAddress s addr full); cbn [negb]; [|exact H].
  pose proof (idle_after_read s addr _ (idle_after_write s addr pattern m H)) as R.
  destruct (readByte s addr (writeByte s addr pattern m)) as [read m2]. cbn [snd] in R.
  destruct (negb (read =? pattern)); cbn [flow_keeps].
  - apply idle_failure, R.
  - apply idle_progress, R.
Qed.

Lemma walking_body_idle s n line addr pattern bitno :
  forall m, idle m -> flow_keeps idle (walking_body s n line addr pattern bitno m).
Proof.
  intros m H. unfold walking_body.
  pose proof (idle_after_read s addr _ (idle_after_write s addr pattern m H)) as R.
  destruct (readByte s addr (writeByte s addr pattern m)) as [read m2]. cbn [snd] in R.
  destruct (negb (read =? pattern)); cbn [flow_keeps]; [|exact R].
  unfold sendTestResult, sendTestError. repeat apply idle_uart_send. exact R.
Qed.

Lemma data_regs_constant v : data_regs (constant v).
Proof. intros addr m. reflexivity. Qed.

Lemma data_regs_low_byte : data_regs low_byte.
Proof. intros addr m. reflexivity. Qed.

Lemma data_regs_random {core : ArduinoCore} : data_regs random_byte.
Proof.
  intros addr m. unfold random_byte, random.
  destruct (core_random 256 (rand_state m)) as [v g]. reflexivity.
Qed.

Lemma idle_start s n full m : idle m -> idle (sendTestStart s n full m).
Proof. unfold sendTestStart. apply idle_uart_send. Qed.

Lemma idle_result s n p m : idle m -> result_keeps idle (Some (p, sendTestResult s n p m)).
Proof. intro H. cbn [result_keeps]. unfold sendTestResult. apply idle_uart_send, H. Qed.

Ltac idle_phase lemma :=
  apply and_then_keeps;
  [ unfold address_loop, checkerboard_first_write, address_loop;
    apply for_loop_keeps;
    [ intros; apply lemma; auto using data_regs_constant, data_regs_low_byte,
                              data_regs_random
    | assumption ]
  | let m1 := fresh "m" in let H := fresh "Hidle" in intros m1 H; cbv beta ].

Lemma testBasicReadWrite_idle s fuel full m :
  idle m -> result_keeps idle (testBasicReadWrite fuel s full m).
Proof.
  intro H0. unfold testBasicReadWrite. cbv zeta.
  pose proof (idle_start s 1 full m H0) as Hidle.
  idle_phase write_verify_body_idle. idle_phase write_verify_body_idle.
  apply idle_result. assumption.
Qed.

Lemma testWalkingOnesAddress_idle s fuel full m :
  idle m -> result_keeps idle (testWalkingOnesAddress fuel s full m).
Proof.
  intro H0. unfold testWalkingOnesAddress. cbv zeta.
  pose proof (idle_start s 2 full m H0) as Hidle.
  idle_phase walking_body_idle. apply idle_result. assumption.
Qed.

Lemma testWalkingOnesData_idle s fuel full m :
  idle m -> result_keeps idle (testWalkingOnesData fuel s full m).
Proof.
  intro H0. unfold testWalkingOnesData. cbv zeta.
  pose proof (idle_start s 3 full m H0) as Hidle.
  idle_phase walking_body_idle. apply idle_result. assumption.
Qed.

Lemma testCheckerboard_idle s fuel full m :
  idle m -> result_keeps idle (testCheckerboard fuel s full m).
Proof.
  intro H0. unfold testCheckerboard. cbv zeta.
  pose proof (idle_start s 4 full m H0) as Hidle.
  idle_phase write_body_idle. idle_phase verify_body_idle.
  idle_phase write_body_idle. idle_phase verify_body_idle.
  apply idle_result. assumption.
Qed.

Lemma testInverseCheckerboard_idle s fuel full m :
  idle m -> result_keeps idle (testInverseCheckerboard fuel s full m).
Proof.
  intro H0. unfold testInverseCheckerboard. cbv zeta.
  pose proof (idle_start s 5 full m H0) as Hidle.
  idle_phase write_body_idle. idle_phase verify_body_idle.
  idle_phase write_body_idle. idle_phase verify_body_idle.
  apply idle_result. assumption.
Qed.

Lemma testAddressEqualsData_idle s fuel full m :
  idle m -> result_keeps idle (testAddressEqualsData fuel s full m).
Proof.
  intro H0. unfold testAddressEqualsData. cbv zeta.
  pose proof (idle_start s 6 full m H0) as Hidle.
  idle_phase write_body_idle. idle_phase verify_body_idle.
  apply idle_result. assumption.
Qed.

Section PatternsKeepIdle.

Context {core : ArduinoCore}.

Lemma testRandomPattern_idle s fuel full m :
  idle m -> result_keeps idle (testRandomPattern fuel s full m).
Proof.
  intro H0. unfold testRandomPattern. cbv zeta.
  assert (Hidle : idle (randomSeed 12345 (sendTestStart s 7 full m)))
    by (apply (idle_same (sendTestStart s 7 full m)); [reflexivity | apply idle_start, H0]).
  idle_phase write_body_idle.
  assert (Hidle' : idle (randomSeed 12345 m0))
    by (apply (idle_same m0); [reflexivity | assumption]).
  idle_phase verify_body_idle.
  apply idle_result. assumption.
Qed.

Lemma runTest_idle s fuel k full m :
  idle m -> result_keeps idle (runTest fuel s k full m).
Proof.
  intro H. unfold runTest.
  destruct (k =? 1); [apply testBasicReadWrite_idle, H|].
  destruct (k =? 2); [apply testWalkingOnesAddress_idle, H|].
  destruct (k =? 3); [apply testWalkingOnesData_idle, H|].
  destruct (k =? 4); [apply testCheckerboard_idle, H|].
  destruct (k =? 5); [apply testInverseCheckerboard_idle, H|].
  destruct (k =? 6); [apply testAddressEqualsData_idle, H|].
  destruct (k =? 7); [apply testRandomPattern_idle, H|].
  cbn [result_keeps]. apply idle_uart_send, H.
Qed.

Lemma runAllTests_idle s fuel incl full m :
  idle m -> result_keeps idle (runAllTests fuel s incl full m).
Proof.
  intro H. unfold runAllTests.
  destruct (sramSize s =? 0); [cbn [result_keeps]; apply idle_uart_send, H|].
  cbv zeta.
  assert (Hbody : forall i (st : bool * Machine), idle (snd st) ->
            flow_keeps (fun st0 : bool * Machine => idle (snd st0))
              (runAllTests_body fuel s full i st)).
  { intros i [all m0] Hst. cbn [snd] in Hst. unfold runAllTests_body.
    pose proof (runTest_idle s fuel i full m0 Hst) as Ht.
    destruct (runTest fuel s i full m0) as [[passed m1]|]; cbn [result_keeps] in Ht;
      cbn [flow_keeps snd]; [exact Ht | exact I]. }
  pose proof (for_loop_keeps (fun st : bool * Machine => idle (snd st)) 256
                (fun test => test <=? (if incl then 7 else 6))
                (runAllTests_body fuel s full) Hbody fuel 1 (true, m) H) as Hloop.
  destruct (for_loop fuel 256 _ (runAllTests_body fuel s full) 1 (true, m))
    as [[[all m']|b [all m']]|]; cbn [flow_keeps snd] in Hloop; cbn [result_keeps].
  - apply idle_uart_send, Hloop.
  - exact Hloop.
  - exact I.
Qed.

End PatternsKeepIdle.

(** [runAllTests] on a configured strategy is the catalogue run followed
    by the summary line. *)
Lemma runAllTests_as_catalogue {core : ArduinoCore} s fuel incl full m :
  configured s -> enough_fuel s fuel ->
  runAllTests fuel s incl full m =
  match run_catalogue fuel s full (catalogue incl) m with
  | None => None
  | Some (outs, m1) =>
      Some (forallb (fun p => p) outs,
            uart_send s (summary_line (forallb (fun p => p) outs)) m1)
  end.
Proof.
  intros Hc Hf. unfold runAllTests.
  destruct (Z.eqb_spec (sramSize s) 0) as [Hz|_]; [destruct Hc; lia|].
  cbv zeta.
  rewrite (for_loop_iterate 256 _ _ ((if incl then 7 else 6) + 1)).
  - replace (zseq 1 (Z.to_nat ((if incl then 7 else 6) + 1 - 1)))
      with (catalogue incl) by (destruct incl; reflexivity).
    rewrite runAllTests_loop.
    destruct (run_catalogue fuel s full (catalogue incl) m) as [[outs m1]|];
      reflexivity.
  - intro j. destruct (Z.leb_spec j (if incl then 7 else 6)),
      (Z.ltb_spec j ((if incl then 7 else 6) + 1)); (reflexivity || lia).
  - destruct incl; lia.
  - destruct incl; lia.
  - destruct Hf as [_ Hf]. destruct incl; lia.
Qed.

Lemma catalogue_in_range incl : Forall (fun k => 1 <= k <= 7) (catalogue incl).
Proof. destruct incl; cbn [catalogue]; repeat constructor; lia. Qed.

Lemma runAllTests_returns {core : ArduinoCore} s fuel incl full m :
  configured s -> enough_fuel s fuel ->
  exists p m', runAllTests fuel s incl full m = Some (p, m').
Proof.
  intros Hc Hf. rewrite runAllTests_as_catalogue by assumption.
  destruct (run_catalogue_reports s fuel full Hc Hf (catalogue incl) m
              (catalogue_in_range incl)) as [outs [details [m1 [E _]]]].
  rewrite E. eexists _, _. reflexivity.
Qed.

(** X5. Whatever the memory in the socket does, a pattern started with the
    port idle returns with the port idle: pass or fail, [runTest] (patterns
    1 to 7) and [runAllTests] on a configured strategy end with the data
    lines released and /CS, /OE, /WE high. *)
Theorem patterns_leave_port_idle :
  forall (core : ArduinoCore) (s : SRAMStrategy) (fuel : nat) (k : Z)
         (includeRandom fullTest : bool) (m : Machine),
    configured s -> enough_fuel s fuel -> 1 <= k <= 7 -> idle m ->
    (exists p m', runTest fuel s k fullTest m = Some (p, m') /\ idle m') /\
    (exists p m', runAllTests fuel s includeRandom fullTest m = Some (p, m') /\ idle m').
Proof.
  intros core s fuel k incl full m Hc Hf Hk H. split.
  - destruct (runTest_finishes s fuel k full m Hc Hf Hk) as [p [m' [E _]]].
    pose proof (runTest_idle s fuel k full m H) as Hi. rewrite E in Hi.
    exists p, m'. split; [exact E | exact Hi].
  - destruct (runAllTests_returns s fuel incl full m Hc Hf) as [p [m' E]].
    pose proof (runAllTests_idle s fuel incl full m H) as Hi. rewrite E in Hi.
    exists p, m'. split; [exact E | exact Hi].
Qed.

Lemma patterns_leave_port_idle_witness :
  exists p m',
    runAllTests 20 sram8 true false (configurePins (power_on stuck_a1_chip))
      = Some (p, m') /\ idle m'.
Proof.
  exact (proj2 (patterns_leave_port_idle avr_core sram8 20 4 true false
                  (configurePins (power_on stuck_a1_chip))
                  sram8_configured sram8_fuel ltac:(lia) (idle_configurePins _))).
Defined.

(** ** No false alarm on a fault-free memory *)

Lemma fault_free_result s n p m :
  fault_free s m -> fault_free s (sendTestResult s n p m).
Proof.
  intro H. unfold sendTestResult.
  destruct (uart_send_frame s (result_line n p) m) as [A [B _]].
  apply (fault_free_same s m); assumption.
Qed.

Lemma testBasicReadWrite_passes s fuel full m :
  configured s -> enough_fuel s fuel -> fault_free s m ->
  exists m', testBasicReadWrite fuel s full m = Some (true, m') /\ fault_free s m'.
Proof.
  intros Hc Hf Hff. unfold testBasicReadWrite. cbv zeta.
  pose proof (fault_free_start s 1 full m Hff) as Hff0.
  rewrite address_loop_iterate by assumption.
  destruct (write_verify_phase s full 1 0xAA (Some "Test 1"%string) ltac:(lia)
              (addresses s) _ Hff0 (addresses_range s Hc)) as [m1 [E1 [Hff1 _]]].
  rewrite E1. cbn [and_then]. rewrite address_loop_iterate by assumption.
  destruct (write_verify_phase s full 1 0x55 None ltac:(lia)
              (addresses s) m1 Hff1 (addresses_range s Hc)) as [m2 [E2 [Hff2 _]]].
  rewrite E2. cbn [and_then]. eexists. split; [reflexivity|].
  apply fault_free_result, Hff2.
Qed.

Lemma walking_address_range s :
  configured s ->
  forall b, In b (zseq 0 (Z.to_nat (addressBits s))) ->
    0 <= u16 (bit b) <= maxAddress s /\ 0 <= 0xAA < 256.
Proof.
  intros Hc b Hin. destruct (configured_bits s Hc) as [Hb [Hu Hl]].
  apply in_zseq in Hin. rewrite u16_bit by lia.
  split; [|lia]. split; [apply Z.pow_nonneg; lia|].
  assert (2 ^ b <= 2 ^ (addressBits s - 1)) by (apply Z.pow_le_mono_r; lia).
  assert (0 < maxAddress s).
  { destruct (Z.lt_ge_cases 0 (maxAddress s)) as [H0|H0]; [exact H0|].
    destruct Hc as [? [? Hbits]]. assert (maxAddress s = 0) as E0 by lia.
    rewrite E0, count_bits_zero in Hbits. lia. }
  specialize (Hl ltac:(assumption)). lia.
Qed.

Lemma testWalkingOnesAddress_passes s fuel full m :
  configured s -> enough_fuel s fuel -> fault_free s m ->
  exists m', testWalkingOnesAddress fuel s full m = Some (true, m') /\ fault_free s m'.
Proof.
  intros Hc Hf Hff. unfold testWalkingOnesAddress. cbv zeta.
  pose proof (fault_free_start s 2 full m Hff) as Hff0.
  rewrite bits_loop_iterate by assumption.
  destruct (walking_phase s 2 "address line A" (fun b => u16 (bit b)) (fun _ => 0xAA)
              (zseq 0 (Z.to_nat (addressBits s))) _ Hff0 (walking_address_range s Hc))
    as [m1 [E1 [Hff1 _]]].
  rewrite E1. cbn [and_then]. eexists. split; [reflexivity|].
  apply fault_free_result, Hff1.
Qed.

Lemma testWalkingOnesData_passes s fuel full m :
  configured s -> enough_fuel s fuel -> fault_free s m ->
  exists m', testWalkingOnesData fuel s full m = Some (true, m') /\ fault_free s m'.
Proof.
  intros Hc Hf Hff. unfold testWalkingOnesData. cbv zeta.
  pose proof (fault_free_start s 3 full m Hff) as Hff0.
  rewrite (data_loop_iterate s) by assumption.
  destruct (walking_phase s 3 "data line D" (fun _ => 0) (fun b => u8 (bit b))
              (zseq 0 8) _ Hff0) as [m1 [E1 [Hff1 _]]].
  { intros b Hin. split; [destruct Hc as [? [? _]]; lia | apply u8_range]. }
  rewrite E1. cbn [and_then]. eexists. split; [reflexivity|].
  apply fault_free_result, Hff1.
Qed.

(** A pattern of two constant write/verify rounds. *)
Lemma two_rounds_pass s full n v1 v2 l1 l2 l3 l4 m :
  configured s -> fault_free s m -> 0 <= v1 < 256 -> 0 <= v2 < 256 ->
  exists m',
    (iterate (write_body s full (constant v1) l1) (addresses s) m >>> fun m1 =>
     iterate (verify_body s full n (constant v1) l2) (addresses s) m1 >>> fun m2 =>
     iterate (write_body s full (constant v2) l3) (addresses s) m2 >>> fun m3 =>
     iterate (verify_body s full n (constant v2) l4) (addresses s) m3 >>> fun m4 =>
     Some (true, sendTestResult s n true m4)) = Some (true, m') /\
    fault_free s m' /\
    cycles m' = cycles m
      ++ map (fun a => WriteCycle a v1) (tested s full)
      ++ map (fun a => ReadCycle a v1) (tested s full)
      ++ map (fun a => WriteCycle a v2) (tested s full)
      ++ map (fun a => ReadCycle a v2) (tested s full).
Proof.
  intros Hc Hff Hv1 Hv2.
  destruct (constant_write_verify s full n v1 l1 l2 m Hc Hff Hv1)
    as [m1 [m2 [E1 [_ [_ [E2 [Hff2 Hcy2]]]]]]].
  rewrite E1. cbn [and_then]. rewrite E2. cbn [and_then].
  destruct (constant_write_verify s full n v2 l3 l4 m2 Hc Hff2 Hv2)
    as [m3 [m4 [E3 [_ [_ [E4 [Hff4 Hcy4]]]]]]].
  rewrite E3. cbn [and_then]. rewrite E4. cbn [and_then].
  eexists. split; [reflexivity|]. split; [apply fault_free_result, Hff4|].
  rewrite result_frame, Hcy4, Hcy2. rewrite <- !app_assoc. reflexivity.
Qed.

Lemma testCheckerboard_passes s fuel full m :
  configured s -> enough_fuel s fuel -> fault_free s m ->
  exists m', testCheckerboard fuel s full m = Some (true, m') /\ fault_free s m'.
Proof.
  intros Hc Hf Hff. unfold testCheckerboard, checkerboard_first_write. cbv zeta.
  pose proof (fault_free_start s 4 full m Hff) as Hff0.
  destruct (two_rounds_pass s full 4 0x55 0xAA
              (Some "Test 4 (write 0x55)"%string) (Some "Test 4 (verify 0x55)"%string)
              None None _ Hc Hff0 ltac:(lia) ltac:(lia)) as [m' [E [Hff' _]]].
  exists m'. split; [|exact Hff']. rewrite <- E.
  rewrite address_loop_iterate by assumption.
  unfold and_then.
  destruct (iterate _ (addresses s) (sendTestStart s 4 full m)) as [[m1|b m1]|];
    try reflexivity.
  rewrite address_loop_iterate by assumption.
  destruct (iterate _ (addresses s) m1) as [[m2|b m2]|]; try reflexivity.
  rewrite address_loop_iterate by assumption.
  destruct (iterate _ (addresses s) m2) as [[m3|b m3]|]; try reflexivity.
  rewrite address_loop_iterate by assumption. reflexivity.
Qed.

Lemma testInverseCheckerboard_rounds s fuel full m :
  configured s -> enough_fuel s fuel -> fault_free s m ->
  exists m',
    testInverseCheckerboard fuel s full m = Some (true, m') /\ fault_free s m' /\
    cycles m' = cycles m
      ++ map (fun a => WriteCycle a 0xAA) (tested s full)
      ++ map (fun a => ReadCycle a 0xAA) (tested s full)
      ++ map (fun a => WriteCycle a 0x55) (tested s full)
      ++ map (fun a => ReadCycle a 0x55) (tested s full).
Proof.
  intros Hc Hf Hff. unfold testInverseCheckerboard. cbv zeta.
  pose proof (fault_free_start s 5 full m Hff) as Hff0.
  destruct (start_frame s 5 full m) as [Scy _].
  destruct (two_rounds_pass s full 5 0xAA 0x55
              (Some "Test 5 (write 0xAA)"%string) (Some "Test 5 (verify 0xAA)"%string)
              None None _ Hc Hff0 ltac:(lia) ltac:(lia)) as [m' [E [Hff' Hcy]]].
  exists m'. split; [|split; [exact Hff' | rewrite Hcy, Scy; reflexivity]].
  rewrite <- E.
  rewrite address_loop_iterate by assumption.
  unfold and_then.
  destruct (iterate _ (addresses s) (sendTestStart s 5 full m)) as [[m1|b m1]|];
    try reflexivity.
  rewrite address_loop_iterate by assumption.
  destruct (iterate _ (addresses s) m1) as [[m2|b m2]|]; try reflexivity.
  rewrite address_loop_iterate by assumption.
  destruct (iterate _ (addresses s) m2) as [[m3|b m3]|]; try reflexivity.
  rewrite address_loop_iterate by assumption. reflexivity.
Qed.

Lemma plan_low_byte s full l : forall g,
  plan s full (fun addr g0 => (u8 (Z.land addr 0xFF), g0)) l g =
  (map (fun a => (a, u8 (Z.land a 0xFF)))
     (filter (fun a => shouldTestAddress s a full) l), g).
Proof.
  induction l as [|x l IH]; intro g; cbn [plan filter map]; [reflexivity|].
  destruct (shouldTestAddress s x full); rewrite IH; reflexivity.
Qed.

Lemma testAddressEqualsData_rounds s fuel full m :
  configured s -> enough_fuel s fuel -> fault_free s m ->
  exists m',
    testAddressEqualsData fuel s full m = Some (true, m') /\ fault_free s m' /\
    cycles m' = cycles m
      ++ map (fun a => WriteCycle a (a mod 256)) (tested s full)
      ++ map (fun a => ReadCycle a (a mod 256)) (tested s full).
Proof.
  intros Hc Hf Hff. unfold testAddressEqualsData. cbv zeta.
  pose proof (fault_free_start s 6 full m Hff) as Hff0.
  destruct (start_frame s 6 full m) as [Scy _].
  set (m0 := sendTestStart s 6 full m) in *.
  rewrite address_loop_iterate by assumption.
  destruct (write_phase s full low_byte _ (Some "Test 6 (write)"%string)
              data_from_low_byte (addresses s) m0 Hff0 (addresses_range s Hc)
              (NoDup_addresses s)) as [m1 [E1 [Hff1 [_ [Hcy1 [Hin1 _]]]]]].
  rewrite plan_low_byte in Hcy1, Hin1. cbn [fst] in Hcy1, Hin1.
  fold (tested s full) in Hcy1, Hin1.
  rewrite E1. cbn [and_then]. rewrite address_loop_iterate by assumption.
  destruct (verify_phase s full 6 low_byte _ (Some "Test 6 (verify)"%string)
              data_from_low_byte (addresses s) m1 Hff1 (addresses_range s Hc))
    as [m2 [E2 [Hff2 [_ [Hcy2 _]]]]].
  { rewrite plan_low_byte. cbn [fst]. exact Hin1. }
  rewrite plan_low_byte in Hcy2. cbn [fst] in Hcy2. fold (tested s full) in Hcy2.
  rewrite E2. cbn [and_then]. eexists. split; [reflexivity|].
  split; [apply fault_free_result, Hff2|].
  rewrite result_frame, Hcy2, Hcy1, Scy. unfold write_cycles, read_cycles.
  rewrite !map_map. cbn [fst snd]. rewrite <- app_assoc.
  assert (Hlow : forall a, In a (tested s full) -> u8 (Z.land a 0xFF) = a mod 256).
  { intros a Ha. apply (tested_range s full Hc) in Ha.
    rewrite u8_land_255, low_byte_of by lia. reflexivity. }
  f_equal. f_equal.
  - apply map_ext_in. intros a Ha. rewrite Hlow by exact Ha. reflexivity.
  - apply map_ext_in. intros a Ha. rewrite Hlow by exact Ha. reflexivity.
Qed.

Section CataloguePasses.

Context {core : ArduinoCore}.

Hypothesis seed_resets :
  forall g g', core_randomSeed 12345 g = core_randomSeed 12345 g'.

Lemma testRandomPattern_passes s fuel full m :
  configured s -> enough_fuel s fuel -> fault_free s m ->
  exists m', testRandomPattern fuel s full m = Some (true, m') /\ fault_free s m'.
Proof.
  intros Hc Hf Hff. unfold testRandomPattern. cbv zeta.
  pose proof (fault_free_start s 7 full m Hff) as Hff0.
  set (m0 := sendTestStart s 7 full m) in *.
  destruct (randomSeed_frame seed_resets m0) as [Rr [Rc [Rcy Rg]]].
  assert (Hffs : fault_free s (randomSeed 12345 m0))
    by (apply (fault_free_same s m0); assumption).
  rewrite address_loop_iterate by assumption.
  destruct (write_phase s full random_byte random_data (Some "Test 7 (write)"%string)
              data_from_random (addresses s) (randomSeed 12345 m0) Hffs
              (addresses_range s Hc) (NoDup_addresses s))
    as [m1 [E1 [Hff1 [_ [_ [Hin1 _]]]]]].
  rewrite Rg in Hin1.
  rewrite E1. cbn [and_then].
  destruct (randomSeed_frame seed_resets m1) as [Rr1 [Rc1 [Rcy1 Rg1]]].
  assert (Hffs1 : fault_free s (randomSeed 12345 m1))
    by (apply (fault_free_same s m1); assumption).
  rewrite address_loop_iterate by assumption.
  destruct (verify_phase s full 7 random_byte random_data (Some "Test 7 (verify)"%string)
              data_from_random (addresses s) (randomSeed 12345 m1) Hffs1
              (addresses_range s Hc))
    as [m2 [E2 [Hff2 _]]].
  { rewrite Rg1. intros a v Hin. rewrite (mem_same m1 _ a Rc1). apply Hin1, Hin. }
  rewrite E2. cbn [and_then]. eexists. split; [reflexivity|].
  apply fault_free_result, Hff2.
Qed.

Lemma runTest_passes s fuel k full m :
  configured s -> enough_fuel s fuel -> 1 <= k <= 7 -> fault_free s m ->
  exists m', runTest fuel s k full m = Some (true, m') /\ fault_free s m'.
Proof.
  intros Hc Hf Hk Hff.
  assert (E : k = 1 \/ k = 2 \/ k = 3 \/ k = 4 \/ k = 5 \/ k = 6 \/ k = 7) by lia.
  destruct E as [->|[->|[->|[->|[->|[->| ->]]]]]]; unfold runTest;
    cbn [Z.eqb Pos.eqb].
  - apply testBasicReadWrite_passes; assumption.
  - apply testWalkingOnesAddress_passes; assumption.
  - apply testWalkingOnesData_passes; assumption.
  - apply testCheckerboard_passes; assumption.
  - destruct (testInverseCheckerboard_rounds s fuel full m Hc Hf Hff) as [m' [E [F _]]].
    exists m'. split; assumption.
  - destruct (testAddressEqualsData_rounds s fuel full m Hc Hf Hff) as [m' [E [F _]]].
    exists m'. split; assumption.
  - apply testRandomPattern_passes; assumption.
Qed.

Lemma run_catalogue_passes s fuel full :
  configured s -> enough_fuel s fuel ->
  forall tests m, Forall (fun k => 1 <= k <= 7) tests -> fault_free s m ->
    exists m',
      run_catalogue fuel s full tests m = Some (map (fun _ => true) tests, m') /\
      fault_free s m'.
Proof.
  intros Hc Hf. induction tests as [|t tests IH]; intros m Hall Hff.
  - exists m. split; [reflexivity | exact Hff].
  - inversion Hall as [|? ? Ht Hrest]; subst.
    destruct (runTest_passes s fuel t full m Hc Hf Ht Hff) as [m1 [E1 Hff1]].
    destruct (IH m1 Hrest Hff1) as [m2 [E2 Hff2]].
    exists m2. cbn [run_catalogue map]. rewrite E1, E2. split; [reflexivity|exact Hff2].
Qed.

Lemma forallb_all_true {A : Type} (l : list A) :
  forallb (fun p : bool => p) (map (fun _ => true) l) = true.
Proof. induction l as [|x l IH]; [reflexivity | exact IH]. Qed.

Lemma runAllTests_passes s fuel incl full m :
  configured s -> enough_fuel s fuel -> fault_free s m ->
  exists m1,
    runAllTests fuel s incl full m =
      Some (true, uart_send s (LineOK "All tests PASSED") m1) /\
    fault_free s m1.
Proof.
  intros Hc Hf Hff. rewrite runAllTests_as_catalogue by assumption.
  destruct (run_catalogue_passes s fuel full Hc Hf (catalogue incl) m
              (catalogue_in_range incl) Hff) as [m1 [E Hff1]].
  rewrite E, forallb_all_true. exists m1. split; [reflexivity | exact Hff1].
Qed.

End CataloguePasses.

(** X6. No false alarm: on a fault-free memory of the configured size
    every pattern of the catalogue passes in either coverage mode, and
    [runAllTests] returns true and closes with "All tests PASSED" (the
    generator re-seeding as for pattern 7). *)
Theorem fault_free_memory_passes :
  forall (core : ArduinoCore) (s : SRAMStrategy) (fuel : nat) (k : Z)
         (includeRandom fullTest : bool) (m : Machine),
    (forall g g', core_randomSeed 12345 g = core_randomSeed 12345 g') ->
    configured s -> enough_fuel s fuel -> 1 <= k <= 7 -> fault_free s m ->
    (exists m', runTest fuel s k fullTest m = Some (true, m')) /\
    (exists m1,
       runAllTests fuel s includeRandom fullTest m =
         Some (true, uart_send s (LineOK "All tests PASSED") m1)).
Proof.
  intros core s fuel k incl full m Hseed Hc Hf Hk Hff. split.
  - destruct (runTest_passes Hseed s fuel k full m Hc Hf Hk Hff) as [m' [E _]].
    exists m'. exact E.
  - destruct (runAllTests_passes Hseed s fuel incl full m Hc Hf Hff) as [m1 [E _]].
    exists m1. exact E.
Qed.

Lemma fault_free_memory_passes_witness :
  exists m1,
    runAllTests 20 sram8 true false bench8 =
      Some (true, uart_send sram8 (LineOK "All tests PASSED") m1).
Proof.
  exact (proj2 (fault_free_memory_passes avr_core sram8 20 1 true false bench8
                  (fun g g' => eq_refl) sram8_configured sram8_fuel
                  ltac:(lia) bench8_fault_free)).
Defined.

(** X7. On a fault-free memory the InverseCheckerboard pattern writes 0xAA
    to every tested address, verifies it, then writes 0x55 and verifies
    it, and the AddressEqualsData pattern writes to every tested address
    the address modulo 256 and then reads exactly these bytes back; both
    pass. *)
Theorem inverse_and_address_patterns :
  forall (s : SRAMStrategy) (fuel : nat) (fullTest : bool) (m : Machine),
    configured s -> enough_fuel s fuel -> fault_free s m ->
    (exists m',
       testInverseCheckerboard fuel s fullTest m = Some (true, m') /\
       cycles m' = cycles m
         ++ map (fun a => WriteCycle a 0xAA) (tested s fullTest)
         ++ map (fun a => ReadCycle a 0xAA) (tested s fullTest)
         ++ map (fun a => WriteCycle a 0x55) (tested s fullTest)
         ++ map (fun a => ReadCycle a 0x55) (tested s fullTest)) /\
    (exists m',
       testAddressEqualsData fuel s fullTest m = Some (true, m') /\
       cycles m' = cycles m
         ++ map (fun a => WriteCycle a (a mod 256)) (tested s fullTest)
         ++ map (fun a => ReadCycle a (a mod 256)) (tested s fullTest)).
Proof.
  intros s fuel full m Hc Hf Hff. split.
  - destruct (testInverseCheckerboard_rounds s fuel full m Hc Hf Hff) as [m' [E [_ C]]].
    exists m'. split; assumption.
  - destruct (testAddressEqualsData_rounds s fuel full m Hc Hf Hff) as [m' [E [_ C]]].
    exists m'. split; assumption.
Qed.

Lemma inverse_and_address_patterns_witness :
  exists m',
    testAddressEqualsData 20 sram8 false bench8 = Some (true, m') /\
    cycles m' = cycles bench8
      ++ map (fun a => WriteCycle a (a mod 256)) (tested sram8 false)
      ++ map (fun a => ReadCycle a (a mod 256)) (tested sram8 false).
Proof.
  exact (proj2 (inverse_and_address_patterns sram8 20 false bench8
                  sram8_configured sram8_fuel bench8_fault_free)).
Defined.

(** ** What the patterns see of the address decoding *)

Lemma responsive_same s m m' :
  regs m' = regs m -> chip m' = chip m -> responsive s m -> responsive s m'.
Proof.
  intros Hr Hc [Hi Ha]. split; [apply (idle_same m); assumption|].
  rewrite Hc. exact Ha.
Qed.

Lemma responsive_progress s full label addr m :
  responsive s m -> responsive s (progress_update s full label addr m).
Proof.
  destruct (progress_frame s full label addr m) as [A [B _]].
  apply responsive_same; assumption.
Qed.

Lemma responsive_start s n full m :
  responsive s m -> responsive s (sendTestStart s n full m).
Proof.
  destruct (start_frame s n full m) as [_ [_ C]].
  apply responsive_same; [|exact C].
  unfold sendTestStart. apply uart_send_frame.
Qed.





Lemma readByte_any s addr m :
  responsive s m ->
  fst (readByte s addr m) = mem m (cell_of s m addr) /\
  responsive s (snd (readByte s addr m)) /\
  chip (snd (readByte s addr m)) = chip m.
Proof.
  intro Hr. split; [|split].
  - unfold readByte. cbn [fst]. apply readByte_sample_any, Hr.
  - apply responsive_read, Hr.
  - apply chip_readByte, Hr.
Qed.

Lemma addr_mask_write s addr data m :
  responsive s m -> addr_mask (chip (writeByte s addr data m)) = addr_mask (chip m).
Proof. intro Hr. rewrite (writeByte_chip_any s addr data m Hr). reflexivity. Qed.

(** A write phase leaves a responsive memory with the same decoding. *)
Lemma write_phase_any s full data label :
  data_regs data -> (forall addr m, chip (snd (data addr m)) = chip m) ->
  forall l m, responsive s m ->
    exists m',
      iterate (write_body s full data label) l m = Some (Next m') /\
      responsive s m' /\ addr_mask (chip m') = addr_mask (chip m).
Proof.
  intros Hq Hch. induction l as [|x l IH]; intros m Hr.
  - exists m. split; [reflexivity|]. split; [exact Hr | reflexivity].
  - cbn [iterate]. unfold write_body at 1.
    destruct (shouldTestAddress s x full); cbn [negb]; [|apply IH, Hr].
    pose proof (Hq x m) as Er. pose proof (Hch x m) as Ec.
    destruct (data x m) as [d m1]. cbn [snd] in Er, Ec.
    assert (Hr1 : responsive s m1) by (apply (responsive_same s m); assumption).
    pose proof (responsive_write s x d m1 Hr1) as Hr2.
    pose proof (addr_mask_write s x d m1 Hr1) as Hm2.
    destruct (progress_frame s full label x (writeByte s x d m1)) as [_ [Pc _]].
    destruct (IH _ (responsive_progress s full label x _ Hr2)) as [m' [E [Hr' Hm']]].
    exists m'. split; [exact E|]. split; [exact Hr'|].
    rewrite Hm', Pc, Hm2, Ec. reflexivity.
Qed.

(** A verify phase that falls through has found the expected byte at the
    cell of every tested address. *)
Lemma verify_phase_complete s full n label (expect : Z -> Z) :
  forall l m m', responsive s m ->
    iterate (verify_body s full n (fun addr st => (expect addr, st)) label) l m
      = Some (Next m') ->
    forall a, In a l -> shouldTestAddress s a full = true ->
      mem m (cell_of s m a) = expect a.
Proof.
  induction l as [|x l IH]; intros m m' Hr E a Ha Hs; [destruct Ha|].
  revert E. cbn [iterate]. unfold verify_body at 1.
  destruct (shouldTestAddress s x full) eqn:Hx; cbn [negb]; cbv beta iota.
  - destruct (readByte_any s x m Hr) as [Hv [Hr2 Hc2]].
    destruct (readByte s x m) as [actual m2]. cbn [fst snd] in Hv, Hr2, Hc2.
    destruct (Z.eqb_spec actual (expect x)) as [Eq|Ne]; cbn [negb];
      [|intro E; discriminate E].
    intro E. destruct Ha as [Ha|Ha].
    + subst a. rewrite <- Hv. exact Eq.
    + destruct (progress_frame s full label x m2) as [_ [Pc _]].
      pose proof (IH _ m' (responsive_progress s full label x m2 Hr2) E a Ha Hs) as Hm.
      unfold cell_of, mem in Hm |- *. rewrite Pc, Hc2 in Hm. exact Hm.
  - intro E. destruct Ha as [Ha|Ha]; [subst a; congruence|].
    apply (IH m m' Hr E a Ha Hs).
Qed.

(** A verify phase only ever returns early with a failure. *)
Lemma verify_phase_returns_false s full n data label :
  forall l m r m',
    iterate (verify_body s full n data label) l m = Some (Return r m') -> r = false.
Proof.
  induction l as [|x l IH]; intros m r m'; cbn [iterate]; [discriminate|].
  unfold verify_body at 1.
  destruct (negb (shouldTestAddress s x full)); [apply IH|].
  destruct (data x m) as [expected m1]. destruct (readByte s x m1) as [actual m2].
  destruct (negb (actual =? expected)); [|apply IH].
  intro E. injection E as E _. symmetry. exact E.
Qed.

(** X9. AddressEqualsData detects aliasing in the low address byte: on a
    memory that answers on the bus, if two tested addresses reach the same
    cell and differ modulo 256, the pattern returns false. *)
Theorem address_equals_data_detects_aliasing :
  forall (s : SRAMStrategy) (fuel : nat) (fullTest : bool) (m : Machine) (a b : Z),
    configured s -> enough_fuel s fuel -> responsive s m ->
    In a (tested s fullTest) -> In b (tested s fullTest) ->
    cell_of s m a = cell_of s m b ->
    a mod 256 <> b mod 256 ->
    exists m', testAddressEqualsData fuel s fullTest m = Some (false, m').
Proof.
  intros s fuel full m a b Hc Hf Hr Ha Hb Hcell Hlow.
  destruct (testAddressEqualsData_finishes s fuel full m Hc Hf) as [p [m' [E _]]].
  exists m'. rewrite E. destruct p; [exfalso|reflexivity].
  unfold testAddressEqualsData in E. cbv zeta in E.
  rewrite address_loop_iterate in E by assumption.
  destruct (write_phase_any s full low_byte (Some "Test 6 (write)"%string)
              data_regs_low_byte (fun _ _ => eq_refl) (addresses s) _
              (responsive_start s 6 full m Hr)) as [m1 [E1 [Hr1 Hm1]]].
  rewrite E1 in E. cbn [and_then] in E.
  rewrite address_loop_iterate in E by assumption.
  destruct (iterate (verify_body s full 6 low_byte (Some "Test 6 (verify)"%string))
              (addresses s) m1) as [[m2|r m2]|] eqn:E2; cbn [and_then] in E;
    [|apply verify_phase_returns_false in E2; congruence|discriminate E].
  apply filter_In in Ha, Hb. destruct Ha as [Ha Sa], Hb as [Hb Sb].
  pose proof (verify_phase_complete s full 6 (Some "Test 6 (verify)"%string)
                (fun addr => u8 (Z.land addr 0xFF)) (addresses s) m1 m2 Hr1 E2) as Hall.
  pose proof (Hall a Ha Sa) as Va. pose proof (Hall b Hb Sb) as Vb.
  unfold cell_of in Va, Vb, Hcell. cbv beta in Va, Vb.
  destruct (start_frame s 6 full m) as [_ [_ Sc]].
  rewrite Hm1, Sc in Va, Vb. rewrite Hcell in Va. rewrite Va in Vb.
  apply (in_addresses s a Hc) in Ha. apply (in_addresses s b Hc) in Hb.
  rewrite !u8_land_255, !low_byte_of in Vb by lia. apply Hlow, Vb.
Qed.

Lemma address_equals_data_detects_aliasing_witness :
  exists m',
    testAddressEqualsData 20 sram8 false (configurePins (power_on stuck_a1_chip))
      = Some (false, m').
Proof.
  apply (address_equals_data_detects_aliasing sram8 20 false
           (configurePins (power_on stuck_a1_chip)) 0 2
           sram8_configured sram8_fuel stuck_a1_responsive).
  - vm_compute. tauto.
  - vm_compute. tauto.
  - vm_compute. reflexivity.
  - vm_compute. discriminate.
Defined.

(** ** The largest size the MODE command lets through *)

(** A loop whose condition always holds and whose body always falls
    through uses up every amount of fuel. *)
Lemma for_loop_diverges {St : Type} (wrap : Z) (cond : Z -> bool)
    (body : Z -> St -> option (Flow St)) :
  (forall i, cond (i mod wrap) = true) ->
  (forall i st, exists st', body i st = Some (Next st')) ->
  forall (fuel : nat) (i : Z) (st : St),
    for_loop fuel wrap cond body (i mod wrap) st = None.
Proof.
  intros Hcond Hbody. induction fuel as [|fuel IH]; intros i st; [reflexivity|].
  cbn [for_loop]. rewrite Hcond.
  destruct (Hbody (i mod wrap) st) as [st' E]. rewrite E. apply IH.
Qed.

Lemma write_body_falls_through s full data label addr m :
  exists m', write_body s full data label addr m = Some (Next m').
Proof.
  unfold write_body. destruct (negb (shouldTestAddress s addr full)).
  - exists m. reflexivity.
  - destruct (data addr m) as [d m1]. eexists. reflexivity.
Qed.

Lemma write_loop_diverges s fuel full data label m :
  maxAddress s = 65535 ->
  address_loop fuel s (write_body s full data label) m = None.
Proof.
  intro Hmax. unfold address_loop.
  apply (for_loop_diverges 65536 _ (write_body s full data label)) with (i := 0).
  - intro i. rewrite Hmax. apply Z.leb_le.
    pose proof (Z.mod_pos_bound i 65536 ltac:(lia)). lia.
  - intros i st. apply write_body_falls_through.
Qed.

(** X10. With [maxAddress] at 65535, as [setSize((uint16_t)65536)]
    leaves it, [addr <= maxAddress] holds for every [uint16_t]: the write
    phase that opens patterns 4 to 7 never ends, whatever memory is in the
    socket, so these patterns return for no amount of fuel. *)
Theorem patterns_never_return_at_full_range :
  forall (core : ArduinoCore) (s : SRAMStrategy) (fuel : nat) (fullTest : bool)
         (m : Machine),
    maxAddress s = 65535 ->
    testCheckerboard fuel s fullTest m = None /\
    testInverseCheckerboard fuel s fullTest m = None /\
    testAddressEqualsData fuel s fullTest m = None /\
    testRandomPattern fuel s fullTest m = None.
Proof.
  intros core s fuel full m Hmax.
  unfold testCheckerboard, checkerboard_first_write, testInverseCheckerboard,
    testAddressEqualsData, testRandomPattern.
  cbv zeta. rewrite !write_loop_diverges by exact Hmax.
  repeat split.
Qed.

Lemma patterns_never_return_at_full_range_witness :
  let s := sramStrategy (handleModeCommand "SRAM 65536" (boot (sram_chip 16 true (fun _ => 0)))) in
  maxAddress s = 65535 /\ testCheckerboard 50 s false bench8 = None.
Proof.
  cbv zeta. split; [reflexivity|].
  exact (proj1 (patterns_never_return_at_full_range avr_core
                  (sramStrategy (handleModeCommand "SRAM 65536"
                                   (boot (sram_chip 16 true (fun _ => 0)))))
                  50 false bench8 eq_refl)).
Defined.

(** ** The number of address lines *)

Lemma u16_small x : 0 <= x < 65536 -> u16 x = x.
Proof. intro H. apply Z.mod_small, H. Qed.

Lemma u32_small x : 0 <= x < 4294967296 -> u32 x = x.
Proof. intro H. apply Z.mod_small, H. Qed.

(** X11. For a size of 1 to 65535 bytes [setSize] makes [addressBits] the
    least number of lines that can address every byte: the size is at most
    [2 ^ addressBits], and no smaller exponent has this property. *)
Theorem setSize_address_lines :
  forall (n : Z) (s0 : SRAMStrategy),
    0 < n < 65536 ->
    let s := setSize n s0 in
    maxAddress s = n - 1 /\
    0 <= addressBits s <= 16 /\
    n <= 2 ^ addressBits s /\
    (forall b, 0 <= b -> n <= 2 ^ b -> addressBits s <= b).
Proof.
  intros n s0 Hn. cbv zeta.
  pose proof (setSize_configured n s0 Hn) as Hc.
  assert (Hmax : maxAddress (setSize n s0) = n - 1).
  { unfold setSize. cbn [maxAddress]. apply u16_small. lia. }
  remember (setSize n s0) as s eqn:Es.
  destruct (configured_bits s Hc) as [Hb [Hu Hl]].
  split; [exact Hmax|]. split; [exact Hb|]. split; [lia|].
  intros b Hb0 Hle.
  destruct (Z.le_gt_cases (addressBits s) b) as [H|H]; [exact H|exfalso].
  assert (2 ^ b <= 2 ^ (addressBits s - 1)) by (apply Z.pow_le_mono_r; lia).
  destruct (Z.eq_dec n 1) as [E1|N1].
  - destruct Hc as [_ [_ Hbits]].
    rewrite Hmax, E1 in Hbits. cbn in Hbits. lia.
  - lia.
Qed.

Lemma setSize_address_lines_witness :
  addressBits (setSize 8192 SRAMStrategy_new) <= 13.
Proof.
  apply (proj2 (proj2 (proj2 (setSize_address_lines 8192 SRAMStrategy_new
                                ltac:(lia))))); [lia|].
  change (2 ^ 13) with 8192. lia.
Defined.

(** ** Progress lines *)



(** ** Timer3: the clock generator *)

Lemma try_prescalers_hit {board : Board} p cs rest f :
  0 < F_CPU < 4294967296 -> 0 < 2 * p * f < 4294967296 ->
  1 <= F_CPU / (2 * p * f) <= 65536 ->
  try_prescalers ((p, cs) :: rest) f = Some (cs, F_CPU / (2 * p * f) - 1).
Proof.
  intros HF Hd Hc. cbn [try_prescalers]. cbv zeta.
  rewrite (u32_small (2 * p * f)), (u32_small F_CPU) by lia.
  destruct (Z.eqb_spec (2 * p * f) 0) as [E|_]; [lia|].
  destruct (Z.ltb_spec 0 (F_CPU / (2 * p * f))); [|lia].
  destruct (Z.leb_spec (F_CPU / (2 * p * f)) 65536); [|lia].
  cbn [andb]. rewrite u16_small by lia. reflexivity.
Qed.

Lemma try_prescalers_miss {board : Board} p cs rest f :
  0 < F_CPU < 4294967296 -> 0 < 2 * p * f < 4294967296 ->
  65536 < F_CPU / (2 * p * f) ->
  try_prescalers ((p, cs) :: rest) f = try_prescalers rest f.
Proof.
  intros HF Hd Hc. cbn [try_prescalers]. cbv zeta.
  rewrite (u32_small (2 * p * f)), (u32_small F_CPU) by lia.
  destruct (Z.eqb_spec (2 * p * f) 0) as [E|_]; [lia|].
  destruct (Z.leb_spec (F_CPU / (2 * p * f)) 65536); [lia|].
  rewrite andb_false_r. reflexivity.
Qed.

Lemma mega2560_rows :
  combine prescalers csBits = [(1, 1); (8, 2); (64, 3); (256, 4); (1024, 5)].
Proof. reflexivity. Qed.

Lemma quotient_above a b q : 0 < b -> b * (q + 1) <= a -> q < a / b.
Proof.
  intros Hb H. assert (q + 1 <= a / b) by (apply Z.div_le_lower_bound; lia). lia.
Qed.

Lemma quotient_between a b lo hi :
  0 < b -> b * lo <= a -> a < b * (hi + 1) -> lo <= a / b <= hi.
Proof.
  intros Hb Hlo Hhi. split.
  - apply Z.div_le_lower_bound; lia.
  - assert (a / b < hi + 1) by (apply Z.div_lt_upper_bound; lia). lia.
Qed.

Lemma selectPrescaler_chosen f :
  1 <= f <= 8000000 ->
  selectPrescaler f =
    Some (snd (chosen_prescaler f), 16000000 / (2 * fst (chosen_prescaler f) * f) - 1) /\
  1 <= 16000000 / (2 * fst (chosen_prescaler f) * f) <= 65536 /\
  (forall p', In p' prescalers -> p' < fst (chosen_prescaler f) ->
     65536 < 16000000 / (2 * p' * f)).
Proof.
  intro Hf. unfold selectPrescaler, chosen_prescaler. rewrite mega2560_rows.
  assert (HF : 0 < F_CPU < 4294967296) by (cbn; lia).
  destruct (Z.leb_spec 123 f) as [H1|H1]; [|destruct (Z.leb_spec 16 f) as [H2|H2];
    [|destruct (Z.leb_spec 2 f) as [H3|H3]]]; cbn [fst snd].
  - assert (Hq : 1 <= 16000000 / (2 * 1 * f) <= 65536)
      by (apply quotient_between; lia).
    split; [apply (try_prescalers_hit 1 1 _ f HF); [lia | exact Hq]|].
    split; [exact Hq|].
    intros p' Hin Hlt. cbn in Hin. lia.
  - assert (Hq : 1 <= 16000000 / (2 * 8 * f) <= 65536)
      by (apply quotient_between; lia).
    assert (M1 : 65536 < 16000000 / (2 * 1 * f)) by (apply quotient_above; lia).
    split.
    { rewrite (try_prescalers_miss 1 1 _ f HF) by (lia || exact M1).
      apply (try_prescalers_hit 8 2 _ f HF); [lia | exact Hq]. }
    split; [exact Hq|].
    intros p' Hin Hlt. cbn in Hin.
    destruct Hin as [<-|[<-|[<-|[<-|[<-|[]]]]]]; (exact M1 || lia).
  - assert (Hq : 1 <= 16000000 / (2 * 64 * f) <= 65536)
      by (apply quotient_between; lia).
    assert (M1 : 65536 < 16000000 / (2 * 1 * f)) by (apply quotient_above; lia).
    assert (M2 : 65536 < 16000000 / (2 * 8 * f)) by (apply quotient_above; lia).
    split.
    { rewrite (try_prescalers_miss 1 1 _ f HF) by (lia || exact M1).
      rewrite (try_prescalers_miss 8 2 _ f HF) by (lia || exact M2).
      apply (try_prescalers_hit 64 3 _ f HF); [lia | exact Hq]. }
    split; [exact Hq|].
    intros p' Hin Hlt. cbn in Hin.
    destruct Hin as [<-|[<-|[<-|[<-|[<-|[]]]]]]; (exact M1 || exact M2 || lia).
  - assert (Hq : 1 <= 16000000 / (2 * 256 * f) <= 65536)
      by (apply quotient_between; lia).
    assert (M1 : 65536 < 16000000 / (2 * 1 * f)) by (apply quotient_above; lia).
    assert (M2 : 65536 < 16000000 / (2 * 8 * f)) by (apply quotient_above; lia).
    assert (M3 : 65536 < 16000000 / (2 * 64 * f)) by (apply quotient_above; lia).
    split.
    { rewrite (try_prescalers_miss 1 1 _ f HF) by (lia || exact M1).
      rewrite (try_prescalers_miss 8 2 _ f HF) by (lia || exact M2).
      rewrite (try_prescalers_miss 64 3 _ f HF) by (lia || exact M3).
      apply (try_prescalers_hit 256 4 _ f HF); [lia | exact Hq]. }
    split; [exact Hq|].
    intros p' Hin Hlt. cbn in Hin.
    destruct Hin as [<-|[<-|[<-|[<-|[<-|[]]]]]];
      (exact M1 || exact M2 || exact M3 || lia).
Qed.

Lemma chosen_prescaler_row f :
  In (chosen_prescaler f) (combine prescalers csBits) /\
  1 <= fst (chosen_prescaler f) <= 256 /\ 1 <= snd (chosen_prescaler f) <= 4.
Proof.
  rewrite mega2560_rows. unfold chosen_prescaler.
  destruct (123 <=? f); [|destruct (16 <=? f); [|destruct (2 <=? f)]];
    cbn [fst snd In]; (split; [tauto|lia]).
Qed.

(** X13. On the ATmega2560 at 16 MHz, for every frequency the CLOCK
    command lets through (1 Hz to 8 MHz), [selectPrescaler] stops at a row
    of its tables without a zero divisor or a 32-bit overflow and never
    reaches the clamping fall-through.  It takes the smallest prescaler
    whose count fits 16 bits, the count is [F_CPU / (2 * prescaler * f)],
    the resulting output frequency is never below the one asked for and
    is exact whenever [2 * prescaler * f] divides [F_CPU]. *)
Theorem selectPrescaler_in_range :
  forall f : Z,
    1 <= f <= 8000000 ->
    exists p cs ocr3a,
      In (p, cs) (combine prescalers csBits) /\ p <= 256 /\
      selectPrescaler f = Some (cs, ocr3a) /\
      0 <= ocr3a <= 65535 /\
      ocr3a + 1 = F_CPU / (2 * p * f) /\
      (forall p', In p' prescalers -> p' < p -> 65536 < F_CPU / (2 * p' * f)) /\
      f <= output_frequency p ocr3a /\
      ((2 * p * f | F_CPU) -> output_frequency p ocr3a = f).
Proof.
  intros f Hf. destruct (selectPrescaler_chosen f Hf) as [E [Hq Hmin]].
  destruct (chosen_prescaler_row f) as [Hin [Hp Hcs]].
  destruct (chosen_prescaler f) as [p cs]. cbn [fst snd] in *.
  exists p, cs, (16000000 / (2 * p * f) - 1).
  split; [exact Hin|]. split; [lia|]. split; [exact E|]. split; [lia|].
  change F_CPU with 16000000. split; [lia|]. split; [exact Hmin|].
  unfold output_frequency. change F_CPU with 16000000.
  replace (16000000 / (2 * p * f) - 1 + 1) with (16000000 / (2 * p * f)) by lia.
  assert (Hd : 0 < 2 * p * f) by nia.
  pose proof (Z.mul_div_le 16000000 (2 * p * f) Hd) as Hle.
  set (c := 16000000 / (2 * p * f)) in *.
  split.
  - apply Z.div_le_lower_bound; nia.
  - intros [k Hk].
    assert (Ec : c = k).
    { unfold c. rewrite Hk. apply Z.div_mul. lia. }
    rewrite Hk, Ec. replace (k * (2 * p * f)) with (f * (2 * p * k)) by ring.
    apply Z.div_mul. nia.
Qed.

Lemma selectPrescaler_in_range_witness :
  exists p cs ocr3a,
    In (p, cs) (combine prescalers csBits) /\ p <= 256 /\
    selectPrescaler 1000000 = Some (cs, ocr3a) /\
    0 <= ocr3a <= 65535 /\
    ocr3a + 1 = F_CPU / (2 * p * 1000000) /\
    (forall p', In p' prescalers -> p' < p -> 65536 < F_CPU / (2 * p' * 1000000)) /\
    1000000 <= output_frequency p ocr3a /\
    ((2 * p * 1000000 | F_CPU) -> output_frequency p ocr3a = 1000000).
Proof. apply (selectPrescaler_in_range 1000000). lia. Defined.

(** X14. [handleClockCommand] always returns: its range check keeps the
    division in [selectPrescaler] away from zero.  A frequency outside 1 Hz
    to 8 MHz leaves the timer and its registers untouched; one inside
    leaves the timer running at that frequency in CTC mode with OC3A
    toggling, a clock select that is not zero, the counter cleared, PE3 an
    output and its port bit low. *)
Theorem clock_command_guarded :
  forall (parameter : string) (b : ClockBench),
    exists b',
      handleClockCommand parameter b = Some b' /\
      let f := u32 (toInt parameter) in
      if (0 <? Z.of_nat (String.length parameter)) && (1 <=? f) && (f <=? 8000000) then
        running (timer3 b') = true /\
        getFrequency (timer3 b') = f /\
        TCCR3A (timer_regs b') = 64 /\
        (exists p cs, In (p, cs) (combine prescalers csBits) /\ 1 <= cs <= 4 /\
           TCCR3B (timer_regs b') = 8 + cs /\
           OCR3A (timer_regs b') + 1 = F_CPU / (2 * p * f)) /\
        TCNT3 (timer_regs b') = 0 /\
        Z.testbit (DDRE (timer_regs b')) 3 = true /\
        Z.testbit (PORTE (timer_regs b')) 3 = false
      else
        timer3 b' = timer3 b /\ timer_regs b' = timer_regs b.
Proof.
  intros parameter b. unfold handleClockCommand. cbv zeta.
  destruct (Nat.eqb_spec (String.length parameter) 0) as [E0|N0].
  - eexists. split; [reflexivity|]. rewrite E0. cbn [Z.of_nat Z.ltb Z.compare andb].
    split; reflexivity.
  - destruct (Z.ltb_spec 0 (Z.of_nat (String.length parameter))) as [_|]; [|lia].
    cbn [andb].
    destruct (Z.ltb_spec (u32 (toInt parameter)) 1) as [Hlo|Hlo]; cbn [orb].
    { eexists. split; [reflexivity|].
      destruct (Z.leb_spec 1 (u32 (toInt parameter))); [lia|]. split; reflexivity. }
    destruct (Z.leb_spec 1 (u32 (toInt parameter))) as [_|]; [|lia].
    destruct (Z.ltb_spec 8000000 (u32 (toInt parameter))) as [Hhi|Hhi]; cbn [andb].
    { eexists. split; [reflexivity|].
      destruct (Z.leb_spec (u32 (toInt parameter)) 8000000); [lia|]. split; reflexivity. }
    destruct (Z.leb_spec (u32 (toInt parameter)) 8000000) as [_|]; [|lia].
    set (f := u32 (toInt parameter)) in *.
    destruct (selectPrescaler_chosen f ltac:(lia)) as [E [Hq _]].
    destruct (chosen_prescaler_row f) as [Hin [Hp Hcs]].
    destruct (chosen_prescaler f) as [p cs]. cbn [fst snd] in *.
    unfold configure, stop. rewrite E. cbn [start].
    eexists. split; [reflexivity|].
    cbn [clock_say timer3 timer_regs running getFrequency isRunning currentFrequency
         TCCR3A TCCR3B OCR3A TCNT3 DDRE PORTE prescalerBits].
    split; [reflexivity|]. split; [reflexivity|]. split; [reflexivity|].
    split.
    { exists p, cs. split; [exact Hin|]. split; [lia|]. split.
      - assert (Hc : cs = 1 \/ cs = 2 \/ cs = 3 \/ cs = 4) by lia.
        destruct Hc as [->|[->|[->| ->]]]; reflexivity.
      - change F_CPU with 16000000. lia. }
    split; [reflexivity|]. split.
    + rewrite testbit_u8 by lia. rewrite Z.lor_spec.
      change (Z.testbit (bit DDE3) 3) with true. apply orb_true_r.
    + rewrite testbit_u8 by lia. rewrite Z.land_spec.
      change (Z.testbit (Z.lnot (bit PORTE3)) 3) with false. apply andb_false_r.
Qed.

(** X15. [stop] halts the timer whatever its state and doing it twice
    changes nothing more; CLOCKSTOP keeps the configured frequency.  A
    [start] after a [stop] sets the clock select again but leaves TCCR3A
    cleared, so the timer counts while OC3A stays disconnected from the
    pin: only [configure] connects it. *)
Theorem stop_then_start :
  forall (b : ClockBench),
    let b1 := handleClockStopCommand b in
    running (timer3 b1) = false /\
    getFrequency (timer3 b1) = getFrequency (timer3 b) /\
    TCCR3A (timer_regs b1) = 0 /\ TCCR3B (timer_regs b1) = 0 /\
    Z.testbit (PORTE (timer_regs b1)) 3 = false /\
    stop (stop (timer3 b, timer_regs b)) = stop (timer3 b, timer_regs b) /\
    let tr := start (timer3 b1, timer_regs b1) in
    running (fst tr) = true /\
    TCCR3A (snd tr) = 0 /\
    TCCR3B (snd tr) = u8 (Z.lor 8 (prescalerBits (timer3 b))).
Proof.
  intro b. cbv zeta. unfold handleClockStopCommand, stop.
  cbn [clock_say timer3 timer_regs running getFrequency isRunning currentFrequency
       TCCR3A TCCR3B OCR3A TCNT3 DDRE PORTE prescalerBits start fst snd].
  assert (Hbit : Z.testbit (u8 (Z.land (PORTE (timer_regs b)) (Z.lnot (bit PORTE3)))) 3
                 = false).
  { rewrite testbit_u8 by lia. rewrite Z.land_spec.
    change (Z.testbit (Z.lnot (bit PORTE3)) 3) with false. apply andb_false_r. }
  repeat split; try exact Hbit.
  f_equal. f_equal.
  apply Z.bits_inj'. intros n Hn.
  destruct (Z.ltb_spec n 8) as [Hlt|Hge].
  - rewrite !testbit_u8, !Z.land_spec, !testbit_u8, !Z.land_spec by lia.
    destruct (Z.testbit (PORTE (timer_regs b)) n),
             (Z.testbit (Z.lnot (bit PORTE3)) n); reflexivity.
  - unfold u8. rewrite !Z.mod_pow2_bits_high with (n := 8) by lia. reflexivity.
Qed.

(** ** Command lines *)

Lemma string_app_assoc (a b c : string) : ((a ++ b) ++ c = a ++ (b ++ c))%string.
Proof. induction a as [|x a IH]; cbn; [reflexivity | rewrite IH; reflexivity]. Qed.

Lemma string_app_nil_r (a : string) : (a ++ "" = a)%string.
Proof. induction a as [|x a IH]; cbn; [reflexivity | rewrite IH; reflexivity]. Qed.

Lemma string_length_app (a b : string) :
  String.length (a ++ b) = (String.length a + String.length b)%nat.
Proof. induction a as [|x a IH]; cbn; [reflexivity | rewrite IH; reflexivity]. Qed.

Lemma substring_all (t : string) : String.substring 0 (String.length t) t = t.
Proof. induction t as [|x t IH]; cbn; [reflexivity | rewrite IH; reflexivity]. Qed.

Lemma substring_prefix (a b : string) :
  String.substring 0 (String.length a) (a ++ b) = a.
Proof.
  induction a as [|x a IH]; cbn.
  - destruct b; reflexivity.
  - rewrite IH. reflexivity.
Qed.

Lemma substring_suffix (a b : string) :
  substring_from (String.length a) (a ++ b) = b.
Proof.
  unfold substring_from. rewrite string_length_app.
  replace (String.length a + String.length b - String.length a)%nat
    with (String.length b) by lia.
  induction a as [|x a IH]; cbn [String.length append String.substring].
  - apply substring_all.
  - exact IH.
Qed.

Lemma indexOf_absent c t : lacks c t -> indexOf c t = -1.
Proof.
  induction t as [|a t IH]; cbn [lacks indexOf]; [reflexivity|].
  intros [Hne Hl]. destruct (Ascii.eqb_spec a c) as [E|_]; [contradiction|].
  rewrite (IH Hl). reflexivity.
Qed.

Lemma indexOf_first c w rest :
  lacks c w -> indexOf c (w ++ String c rest) = Z.of_nat (String.length w).
Proof.
  induction w as [|a w IH]; cbn [lacks indexOf append String.length].
  - intros _. rewrite Ascii.eqb_refl. reflexivity.
  - intros [Hne Hl]. destruct (Ascii.eqb_spec a c) as [E|_]; [contradiction|].
    rewrite (IH Hl). destruct (Z.ltb_spec (Z.of_nat (String.length w)) 0); lia.
Qed.

Lemma parse_word w :
  lacks " "%char w -> parse w = {| type := parseCommandType w; parameter := "" |}.
Proof.
  intro Hl. unfold parse. destruct w as [|a w]; [reflexivity|].
  cbn [String.length Nat.eqb]. cbv zeta. rewrite (indexOf_absent _ _ Hl). reflexivity.
Qed.

Lemma parse_word_parameter w p :
  lacks " "%char w ->
  parse (w ++ " " ++ p) = {| type := parseCommandType w; parameter := trim p |}.
Proof.
  intro Hl. unfold parse. rewrite string_length_app.
  cbn [append String.length]. rewrite Nat.add_succ_r. cbn [Nat.eqb]. cbv zeta.
  rewrite (indexOf_first _ w p Hl).
  destruct (Z.eqb_spec (Z.of_nat (String.length w)) (-1)) as [E|_]; [lia|].
  rewrite Nat2Z.id. rewrite substring_prefix.
  replace (Z.to_nat (Z.of_nat (String.length w) + 1))
    with (String.length (w ++ " ")) by (rewrite string_length_app; cbn; lia).
  replace (w ++ String " " p)%string with ((w ++ " ") ++ p)%string
    by (rewrite string_app_assoc; reflexivity).
  rewrite substring_suffix. reflexivity.
Qed.

(** X16. [parse] splits a line at its first space: for a word without
    a space, the word alone parses to its command type with an empty
    parameter, and the word followed by a space and any text parses to the
    same type with the trimmed text as parameter. *)
Theorem parse_splits_at_first_space :
  forall (w p : string),
    lacks " "%char w ->
    parse w = {| type := parseCommandType w; parameter := "" |} /\
    parse (w ++ " " ++ p) = {| type := parseCommandType w; parameter := trim p |}.
Proof.
  intros w p Hl. split; [apply parse_word, Hl | apply parse_word_parameter, Hl].
Qed.

Lemma parse_splits_at_first_space_witness :
  parse "MODE" = {| type := MODE; parameter := "" |} /\
  parse "MODE  SRAM 8192 " = {| type := MODE; parameter := "SRAM 8192" |}.
Proof.
  apply (parse_splits_at_first_space "MODE" " SRAM 8192 ").
  cbn. repeat split; discriminate.
Defined.

Lemma split_at_space line :
  lacks " "%char line \/
  exists w p, lacks " "%char w /\ line = (w ++ " " ++ p)%string.
Proof.
  induction line as [|a line IH].
  - left. exact I.
  - destruct (Ascii.eqb_spec a " "%char) as [E|Ne].
    + right. exists ""%string, line. split; [exact I|]. rewrite E. reflexivity.
    + destruct IH as [Hl|[w [p [Hl E]]]].
      * left. split; assumption.
      * right. exists (String a w), p. split; [split; assumption|].
        rewrite E. reflexivity.
Qed.

Lemma parseCommandType_valid cmd :
  parseCommandType cmd <> INVALID <-> In cmd command_words.
Proof.
  unfold parseCommandType, command_words. cbn [In].
  destruct (String.eqb_spec cmd "MODE") as [->|N1]; [split; [tauto|discriminate]|].
  destruct (String.eqb_spec cmd "TEST") as [->|N2]; [split; [tauto|discriminate]|].
  destruct (String.eqb_spec cmd "STATUS") as [->|N3]; [split; [tauto|discriminate]|].
  destruct (String.eqb_spec cmd "RESET") as [->|N4]; [split; [tauto|discriminate]|].
  destruct (String.eqb_spec cmd "HELP") as [->|N5]; [split; [tauto|discriminate]|].
  split; [intro H; contradiction H; reflexivity|].
  intros [E|[E|[E|[E|[E|[]]]]]]; symmetry in E; contradiction.
Qed.

Lemma command_words_lack_space w : In w command_words -> lacks " "%char w.
Proof.
  intros [<-|[<-|[<-|[<-|[<-|[]]]]]]; cbn; repeat split; discriminate.
Qed.

(** X17. A line is recognised exactly when it is one of the five words
    MODE, TEST, STATUS, RESET, HELP, in capitals, alone or followed by a
    space: every other line has type INVALID. *)
Theorem parse_recognises :
  forall line : string,
    type (parse line) <> INVALID <->
    exists w, In w command_words /\
      (line = w \/ exists p, line = (w ++ " " ++ p)%string).
Proof.
  intro line. split.
  - intro H. destruct (split_at_space line) as [Hl|[w [p [Hl E]]]].
    + rewrite (parse_word line Hl) in H. cbn [type] in H.
      exists line. split; [apply parseCommandType_valid, H | left; reflexivity].
    + rewrite E, (parse_word_parameter w p Hl) in H. cbn [type] in H.
      exists w. split; [apply parseCommandType_valid, H | right; exists p; exact E].
  - intros [w [Hin [E|[p E]]]]; pose proof (command_words_lack_space w Hin) as Hl.
    + rewrite E, (parse_word w Hl). cbn [type]. apply parseCommandType_valid, Hin.
    + rewrite E, (parse_word_parameter w p Hl). cbn [type].
      apply parseCommandType_valid, Hin.
Qed.

Lemma readLine_loop_line l rest : forall acc,
  lacks "010"%char l ->
  readLine_loop (l ++ String "010" rest) acc = Some ((acc ++ strip_cr l)%string, rest).
Proof.
  induction l as [|a l IH]; intros acc; cbn [lacks append readLine_loop strip_cr].
  - intros _. rewrite Ascii.eqb_refl, string_app_nil_r. reflexivity.
  - intros [Hne Hl]. destruct (Ascii.eqb_spec a "010"%char) as [E|_]; [contradiction|].
    destruct (Ascii.eqb a "013"%char).
    + apply IH, Hl.
    + rewrite (IH _ Hl), string_app_assoc. reflexivity.
Qed.

Lemma readLine_loop_waits input : forall acc,
  lacks "010"%char input -> readLine_loop input acc = None.
Proof.
  induction input as [|a l IH]; intros acc; cbn [lacks readLine_loop]; [reflexivity|].
  intros [Hne Hl]. destruct (Ascii.eqb_spec a "010"%char) as [E|_]; [contradiction|].
  destruct (Ascii.eqb a "013"%char); apply IH, Hl.
Qed.

(** X18. [readLine] consumes the input up to and including the first
    newline and returns what came before it, without any carriage return
    and trimmed; the bytes after the newline stay pending.  On input
    without a newline it never returns. *)
Theorem readLine_first_line :
  forall (l rest : string),
    lacks "010"%char l ->
    readLine (l ++ String "010" rest) = Some (trim (strip_cr l), rest) /\
    readLine l = None.
Proof.
  intros l rest Hl. unfold readLine. split.
  - rewrite (readLine_loop_line l rest EmptyString Hl). reflexivity.
  - rewrite (readLine_loop_waits l EmptyString Hl). reflexivity.
Qed.

Lemma readLine_first_line_witness :
  readLine (String "013" " TEST 4 " ++ String "013" (String "010" "HELP"))
    = Some ("TEST 4"%string, "HELP"%string).
Proof.
  apply (proj1 (readLine_first_line (String "013" " TEST 4 " ++ String "013" "")
                  "HELP" ltac:(cbn; repeat split; discriminate))).
Defined.

(** ** Numbers in command lines *)

Lemma digit_char_spec d :
  0 <= d < 10 ->
  isdigit (digit_char d) = true /\ Z.of_nat (nat_of_ascii (digit_char d)) = 48 + d.
Proof.
  intro H.
  assert (E : d = 0 \/ d = 1 \/ d = 2 \/ d = 3 \/ d = 4 \/ d = 5 \/ d = 6 \/ d = 7 \/
              d = 8 \/ d = 9) by lia.
  destruct E as [->|[->|[->|[->|[->|[->|[->|[->|[->| ->]]]]]]]]]; split; reflexivity.
Qed.

Lemma isdigit_not_space c : isdigit c = true -> isspace c = false.
Proof.
  destruct c as [[] [] [] [] [] [] [] []]; intro H; vm_compute in H;
    try discriminate H; reflexivity.
Qed.

Lemma toInt_digits c rest :
  isdigit c = true -> toInt (String c rest) = atol_digits (String c rest) 0.
Proof.
  destruct c as [[] [] [] [] [] [] [] []]; intro H; vm_compute in H;
    try discriminate H; reflexivity.
Qed.

Lemma all_digits_dec_digits fuel : forall n acc,
  all_digits acc -> all_digits (dec_digits fuel n acc).
Proof.
  induction fuel as [|fuel IH]; intros n acc Hacc; cbn [dec_digits]; [exact Hacc|].
  cbv zeta.
  assert (Hd : all_digits (String (digit_char (n mod 10)) acc)).
  { split; [|exact Hacc]. apply digit_char_spec, Z.mod_pos_bound. lia. }
  destruct (n <? 10); [exact Hd | apply IH, Hd].
Qed.

Lemma dec_digits_cons fuel : forall n acc,
  (acc <> EmptyString \/ fuel <> O) ->
  exists c rest, dec_digits fuel n acc = String c rest.
Proof.
  induction fuel as [|fuel IH]; intros n acc H; cbn [dec_digits].
  - destruct H as [H|H]; [|contradiction].
    destruct acc as [|c rest]; [contradiction|]. exists c, rest. reflexivity.
  - cbv zeta. destruct (n <? 10); [eexists _, _; reflexivity|].
    apply IH. left. discriminate.
Qed.

Lemma atol_dec_digits fuel : forall n acc,
  0 <= n < 10 ^ Z.of_nat fuel ->
  exists k, 0 <= k /\
    forall a, atol_digits (dec_digits fuel n acc) a = atol_digits acc (a * 10 ^ k + n).
Proof.
  induction fuel as [|fuel IH]; intros n acc Hn.
  - exists 0. split; [lia|]. intro a. cbn [dec_digits].
    change (10 ^ Z.of_nat 0) with 1 in Hn. f_equal. change (10 ^ 0) with 1. lia.
  - cbn [dec_digits]. cbv zeta.
    destruct (digit_char_spec (n mod 10) (Z.mod_pos_bound n 10 ltac:(lia))) as [Hd Hv].
    destruct (Z.ltb_spec n 10) as [Hs|Hb].
    + exists 1. split; [lia|]. intro a. cbn [atol_digits]. rewrite Hd, Hv.
      rewrite Z.mod_small by lia. f_equal. change (10 ^ 1) with 10. lia.
    + rewrite Nat2Z.inj_succ, Z.pow_succ_r in Hn by lia.
      destruct (IH (n / 10) (String (digit_char (n mod 10)) acc)) as [k [Hk E]].
      { split; [apply Z.div_pos; lia|]. apply Z.div_lt_upper_bound; lia. }
      exists (k + 1). split; [lia|]. intro a. rewrite E. cbn [atol_digits].
      rewrite Hd, Hv. f_equal. rewrite Z.pow_add_r by lia. change (10 ^ 1) with 10.
      pose proof (Z_div_mod_eq_full n 10). lia.
Qed.

Lemma all_digits_dec n : all_digits (dec n).
Proof. apply all_digits_dec_digits. exact I. Qed.

Lemma dec_cons n : exists c rest, dec n = String c rest.
Proof. apply dec_digits_cons. right. discriminate. Qed.

(** [String(n).toInt()] gives [n] back. *)
Lemma toInt_dec n : 0 <= n < 10 ^ 12 -> toInt (dec n) = n.
Proof.
  intro Hn. pose proof (all_digits_dec n) as Hd.
  destruct (dec_cons n) as [c [rest E]]. rewrite E in Hd. destruct Hd as [Hc _].
  rewrite E, (toInt_digits c rest Hc), <- E. unfold dec.
  destruct (atol_dec_digits 12 n EmptyString Hn) as [k [_ Ek]].
  rewrite Ek. cbn [atol_digits]. lia.
Qed.

Lemma rev_string_twice t : forall a b,
  rev_string b (rev_string a t) = rev_string (t ++ b) a.
Proof.
  induction t as [|c t IH]; intros a b; cbn [rev_string append]; [reflexivity|].
  rewrite IH. reflexivity.
Qed.

Lemma all_digits_rev t : forall acc,
  all_digits t -> all_digits acc -> all_digits (rev_string acc t).
Proof.
  induction t as [|c t IH]; intros acc Ht Hacc; cbn [rev_string]; [exact Hacc|].
  destruct Ht as [Hc Ht]. apply IH; [exact Ht | split; assumption].
Qed.

Lemma trim_left_digits t : all_digits t -> trim_left t = t.
Proof.
  destruct t as [|c t]; [reflexivity|]. intros [Hc _]. cbn [trim_left].
  rewrite (isdigit_not_space c Hc). reflexivity.
Qed.

Lemma trim_digits t : all_digits t -> trim t = t.
Proof.
  intro H. unfold trim. rewrite (trim_left_digits t H).
  rewrite (trim_left_digits (rev_string EmptyString t)) by (apply all_digits_rev; [exact H | exact I]).
  rewrite rev_string_twice. cbn [rev_string]. apply string_app_nil_r.
Qed.

(** ** The MODE command for every size *)

Lemma prefix_app (a b : string) : String.prefix a (a ++ b) = true.
Proof.
  induction a as [|c a IH]; cbn [append String.prefix]; [destruct b; reflexivity|].
  destruct (ascii_dec c c) as [_|N]; [exact IH | contradiction N; reflexivity].
Qed.

Lemma mode_sram_size n fw :
  0 <= n < 2147483648 ->
  handleModeCommand ("SRAM " ++ dec n) fw =
    if (n =? 0) || (65536 <? n) then
      say (LineInfo "Valid sizes: 8192 (8KB), 32768 (32KB)")
        (say (LineError "Invalid SRAM size") fw)
    else
      let strategy := setUARTHandler true (setSize (u16 n) (sramStrategy fw)) in
      let fw1 :=
        {| sramStrategy := strategy;
           modeManager := setStrategy (Some sramStrategy_ref) SRAM62256 (modeManager fw);
           machine := configurePins (machine fw) |} in
      let fw2 :=
        say (LineOK ("SRAM mode set: " ++ dec (u16 n) ++ " bytes")%string) fw1 in
      if n =? 32768 then say (LineInfo "Configured for HM62256 (32KB)") fw2
      else if n =? 8192 then say (LineInfo "Configured for HM6265/D4168 (8KB)") fw2
      else fw2.
Proof.
  intro Hn. unfold handleModeCommand.
  assert (H1 : (String.length ("SRAM " ++ dec n) =? 0)%nat = false) by reflexivity.
  assert (H2 : String.prefix "SRAM " ("SRAM " ++ dec n) = true) by apply prefix_app.
  assert (H3 : substring_from 5 ("SRAM " ++ dec n) = dec n)
    by apply (substring_suffix "SRAM " (dec n)).
  rewrite H1, H2, H3, (trim_digits _ (all_digits_dec n)).
  destruct (dec_cons n) as [c [rest E]].
  assert (H4 : (String.length (dec n) =? 0)%nat = false) by (rewrite E; reflexivity).
  rewrite H4, toInt_dec by (change (10 ^ 12) with 1000000000000; lia).
  rewrite u32_small by lia. reflexivity.
Qed.

Lemma mode_accepts n fw :
  1 <= n <= 65535 ->
  let fw' := handleModeCommand ("SRAM " ++ dec n) fw in
  sramStrategy fw' = setUARTHandler true (setSize n (sramStrategy fw)) /\
  modeManager fw' =
    {| currentStrategy := Some sramStrategy_ref; currentMode := SRAM62256 |} /\
  regs (machine fw') = regs (configurePins (machine fw)) /\
  chip (machine fw') = chip (configurePins (machine fw)) /\
  exists more,
    serial (machine fw') =
      serial (machine fw)
        ++ LineOK ("SRAM mode set: " ++ dec n ++ " bytes")%string :: more.
Proof.
  intros Hn. cbv zeta. rewrite (mode_sram_size n fw) by lia.
  assert (Hser : serial (configurePins (machine fw)) = serial (machine fw))
    by (unfold configurePins; apply frame_run).
  generalize dependent (configurePins (machine fw)). intros m1 Hser.
  destruct (Z.eqb_spec n 0) as [|_]; [lia|].
  destruct (Z.ltb_spec 65536 n) as [|_]; [lia|]. cbn [orb]. cbv zeta.
  rewrite (u16_small n) by lia.
  destruct (n =? 32768); [|destruct (n =? 8192)];
    cbn [sramStrategy modeManager machine say print_line regs chip
         serial setStrategy];
    (split; [reflexivity|]); (split; [reflexivity|]);
    (split; [reflexivity|]); (split; [reflexivity|]); rewrite Hser;
    eexists; rewrite <- ?app_assoc; reflexivity.
Qed.

Lemma mode_truncates fw :
  let fw' := handleModeCommand ("SRAM " ++ dec 65536) fw in
  sramSize (sramStrategy fw') = 0 /\ maxAddress (sramStrategy fw') = 65535 /\
  currentMode (modeManager fw') = SRAM62256.
Proof.
  cbv zeta. rewrite (mode_sram_size 65536 fw) by lia.
  generalize (configurePins (machine fw)). intro m1.
  cbn [Z.eqb Z.ltb Z.compare Pos.compare Pos.compare_cont Pos.eqb orb].
  cbv zeta. cbn [say sramStrategy modeManager setStrategy currentMode
                 setUARTHandler setSize sramSize maxAddress].
  repeat split.
Qed.

Lemma mode_refuses n fw :
  n = 0 \/ 65536 < n < 2147483648 ->
  handleModeCommand ("SRAM " ++ dec n) fw =
    say (LineInfo "Valid sizes: 8192 (8KB), 32768 (32KB)")
      (say (LineError "Invalid SRAM size") fw).
Proof.
  intro Hn. rewrite (mode_sram_size n fw) by lia.
  destruct (Z.eqb_spec n 0) as [|N]; [reflexivity|].
  destruct (Z.ltb_spec 65536 n) as [_|]; [reflexivity|lia].
Qed.

(** X19. [MODE SRAM n], [n] written in decimal: every size from 1 to
    65535 is accepted and configures the strategy for exactly [n] bytes
    and the port for it; 0 and every size above 65536 are refused with
    nothing changed but the two lines printed; 65536 is accepted but
    truncated to 16 bits, leaving a size of 0 with [maxAddress] 65535. *)
Theorem mode_command_sizes :
  forall (n : Z) (fw : Firmware),
    0 <= n < 2147483648 ->
    let fw' := handleModeCommand ("SRAM " ++ dec n) fw in
    if (1 <=? n) && (n <=? 65535) then
      sramStrategy fw' = setUARTHandler true (setSize n (sramStrategy fw)) /\
      configured (sramStrategy fw') /\
      modeManager fw' =
        {| currentStrategy := Some sramStrategy_ref; currentMode := SRAM62256 |} /\
      regs (machine fw') = regs (configurePins (machine fw)) /\
      chip (machine fw') = chip (configurePins (machine fw)) /\
      exists more,
        serial (machine fw') =
          serial (machine fw)
            ++ LineOK ("SRAM mode set: " ++ dec n ++ " bytes")%string :: more
    else if n =? 65536 then
      sramSize (sramStrategy fw') = 0 /\ maxAddress (sramStrategy fw') = 65535 /\
      currentMode (modeManager fw') = SRAM62256
    else
      fw' = say (LineInfo "Valid sizes: 8192 (8KB), 32768 (32KB)")
              (say (LineError "Invalid SRAM size") fw).
Proof.
  intros n fw Hn. cbv zeta.
  destruct (Z.leb_spec 1 n) as [H1|H1]; cbn [andb].
  - destruct (Z.leb_spec n 65535) as [H2|H2].
    + destruct (mode_accepts n fw ltac:(lia)) as [A [B [C [D E]]]].
      split; [exact A|]. split.
      { rewrite A. apply configured_setUARTHandler, setSize_configured. lia. }
      split; [exact B|]. split; [exact C|]. split; [exact D | exact E].
    + destruct (Z.eqb_spec n 65536) as [E|N].
      * subst n. apply mode_truncates.
      * apply mode_refuses. lia.
  - destruct (Z.eqb_spec n 65536) as [E|_]; [lia|]. apply mode_refuses. lia.
Qed.

Lemma mode_command_sizes_witness :
  sramStrategy (handleModeCommand ("SRAM " ++ dec 8192) (boot (sram_chip 13 true (fun _ => 0))))
    = setUARTHandler true (setSize 8192 SRAMStrategy_new).
Proof.
  exact (proj1 (mode_command_sizes 8192 (boot (sram_chip 13 true (fun _ => 0)))
                  ltac:(lia))).
Defined.

(** ** The TEST command *)

Lemma handleTestCommand_catalogue {core : ArduinoCore} fuel incl full fw :
  currentMode (modeManager fw) = SRAM62256 ->
  currentStrategy (modeManager fw) = Some sramStrategy_ref ->
  exists l,
    handleTestCommand fuel (test_parameter incl full) fw =
    after_tests (runAllTests fuel (sramStrategy fw) incl full (machine (say l fw)))
      (say l fw).
Proof.
  intros Hm Hs. unfold handleTestCommand. rewrite Hm, Hs. cbn [ICMode_eqb].
  generalize (sramStrategy fw). intro s.
  destruct incl, full; eexists; reflexivity.
Qed.

Lemma runAllTests_extends {core : ArduinoCore} s fuel incl full m :
  configured s -> enough_fuel s fuel -> idle m ->
  exists p m', runAllTests fuel s incl full m = Some (p, m') /\
               idle m' /\ extends (serial m) m'.
Proof.
  intros Hc Hf Hi.
  pose proof (runAllTests_idle s fuel incl full m Hi) as Hk.
  rewrite runAllTests_as_catalogue in * by assumption.
  destruct (run_catalogue_reports s fuel full Hc Hf (catalogue incl) m
              (catalogue_in_range incl)) as [outs [details [m1 [E [_ [_ S]]]]]].
  rewrite E in *. cbn [result_keeps] in Hk.
  eexists _, _. split; [reflexivity|]. split; [exact Hk|].
  eexists. rewrite serial_uart_send, S, <- app_assoc. reflexivity.
Qed.

Lemma runTest_extends {core : ArduinoCore} s fuel k full m :
  configured s -> enough_fuel s fuel -> 1 <= k <= 7 -> idle m ->
  exists p m', runTest fuel s k full m = Some (p, m') /\
               idle m' /\ extends (serial m) m'.
Proof.
  intros Hc Hf Hk Hi.
  pose proof (runTest_idle s fuel k full m Hi) as Hkeep.
  destruct (runTest_finishes s fuel k full m Hc Hf Hk) as [p [m' [E [lines S]]]].
  rewrite E in Hkeep. cbn [result_keeps] in Hkeep.
  exists p, m'. split; [exact E|]. split; [exact Hkeep|].
  eexists. exact S.
Qed.

Lemma say_frame l fw :
  sramStrategy (say l fw) = sramStrategy fw /\
  modeManager (say l fw) = modeManager fw /\
  regs (machine (say l fw)) = regs (machine fw) /\
  chip (machine (say l fw)) = chip (machine fw) /\
  serial (machine (say l fw)) = serial (machine fw) ++ [l].
Proof. repeat split. Qed.

Lemma answered_say l fw : idle (machine fw) -> answered fw (say l fw).
Proof.
  intro Hi. destruct (say_frame l fw) as [A [B [C [_ E]]]].
  split; [exact A|]. split; [exact B|]. split; [apply (idle_same (machine fw)); assumption|].
  exists l, []. exact E.
Qed.

Lemma answered_say2 l1 l2 fw : idle (machine fw) -> answered fw (say l2 (say l1 fw)).
Proof.
  intro Hi. destruct (answered_say l1 fw Hi) as [A [B [C [l [more E]]]]].
  destruct (say_frame l2 (say l1 fw)) as [A2 [B2 [C2 [_ E2]]]].
  split; [congruence|]. split; [congruence|].
  split; [apply (idle_same (machine (say l1 fw))); assumption|].
  exists l, (more ++ [l2]). rewrite E2, E, <- app_assoc. reflexivity.
Qed.

Lemma answered_tests l fw (r : option (bool * Machine)) :
  (exists p m', r = Some (p, m') /\ idle m' /\
                extends (serial (machine (say l fw))) m') ->
  exists fw', after_tests r (say l fw) = Some fw' /\ answered fw fw'.
Proof.
  intros [p [m' [E [Hi [lines S]]]]]. rewrite E. cbn [after_tests].
  eexists. split; [reflexivity|].
  destruct (say_frame l fw) as [A [B [_ [_ Es]]]].
  unfold answered, with_machine. cbn [sramStrategy modeManager machine].
  split; [exact A|]. split; [exact B|]. split; [exact Hi|].
  exists l, lines. rewrite S, Es, <- app_assoc. reflexivity.
Qed.

(** X20. The TEST command always answers: whatever its parameter and
    whatever the memory in the socket does, on a configured strategy with
    the port idle [handleTestCommand] returns, has printed at least one
    line, leaves the port idle and changes neither the strategy nor the
    selected mode. *)
Theorem test_command_always_answers :
  forall (core : ArduinoCore) (fuel : nat) (parameter : string) (fw : Firmware),
    configured (sramStrategy fw) -> enough_fuel (sramStrategy fw) fuel ->
    idle (machine fw) ->
    exists fw',
      handleTestCommand fuel parameter fw = Some fw' /\
      sramStrategy fw' = sramStrategy fw /\
      modeManager fw' = modeManager fw /\
      idle (machine fw') /\
      exists l more, serial (machine fw') = serial (machine fw) ++ l :: more.
Proof.
  intros core fuel parameter fw Hc Hf Hi.
  enough (H : exists fw', handleTestCommand fuel parameter fw = Some fw' /\
                          answered fw fw') by exact H.
  assert (Hsay : forall l, idle (machine (say l fw))).
  { intro l. apply (idle_same (machine fw)); [reflexivity | exact Hi]. }
  unfold handleTestCommand.
  destruct (ICMode_eqb (currentMode (modeManager fw)) NONE).
  { eexists. split; [reflexivity | apply answered_say2, Hi]. }
  destruct (currentStrategy (modeManager fw)) as [[]|].
  2: { eexists. split; [reflexivity | apply answered_say, Hi]. }
  cbv zeta. generalize dependent (sramStrategy fw). intros s Hc Hf.
  destruct (ICMode_eqb (currentMode (modeManager fw)) SRAM62256).
  - generalize (endsWith "FULL" (trim parameter)). intro full.
    generalize (if full
                then trim (String.substring 0 (String.length (trim parameter) - 4)
                             (trim parameter))
                else trim parameter). intro param.
    destruct (String.length param =? 0)%nat.
    { apply answered_tests, runAllTests_extends; [assumption..|apply Hsay]. }
    destruct (String.eqb param "RANDOM").
    { apply answered_tests, runAllTests_extends; [assumption..|apply Hsay]. }
    destruct (Z.leb_spec 1 (u8 (toInt param))) as [H1|H1]; cbn [andb].
    + destruct (Z.leb_spec (u8 (toInt param)) 7) as [H7|H7].
      * apply answered_tests, runTest_extends; [assumption..|lia|apply Hsay].
      * eexists. split; [reflexivity | apply answered_say2, Hi].
    + eexists. split; [reflexivity | apply answered_say2, Hi].
  - unfold runTests.
    apply answered_tests, runAllTests_extends; [assumption..|apply Hsay].
Qed.

Lemma test_command_always_answers_witness :
  exists fw',
    handleTestCommand 20 "3 FULL"
      (handleModeCommand "SRAM 8" (boot stuck_a1_chip)) = Some fw' /\
    sramStrategy fw' = sram8 /\
    modeManager fw' = {| currentStrategy := Some sramStrategy_ref;
                         currentMode := SRAM62256 |} /\
    idle (machine fw') /\
    exists l more, serial (machine fw') =
      serial (machine (handleModeCommand "SRAM 8" (boot stuck_a1_chip))) ++ l :: more.
Proof.
  apply (test_command_always_answers avr_core 20 "3 FULL"
           (handleModeCommand "SRAM 8" (boot stuck_a1_chip))).
  - exact sram8_configured.
  - exact sram8_fuel.
  - apply (idle_same (configurePins (power_on stuck_a1_chip)));
      [reflexivity | apply idle_configurePins].
Defined.

(** X21. A session on a good chip: after [MODE SRAM n] for a size of 1 to
    65535 bytes, with a fault-free memory of that many address lines in
    the socket, TEST with any of the parameters that select a catalogue
    run (none, FULL, RANDOM, RANDOM FULL) returns with "All tests PASSED"
    as the last line and the memory still fault-free behind an idle port. *)
Theorem good_chip_session :
  forall (core : ArduinoCore) (n : Z) (cs2 : bool) (contents : Z -> Z) (fuel : nat)
         (includeRandom fullTest : bool) (fw0 : Firmware),
    (forall g g', core_randomSeed 12345 g = core_randomSeed 12345 g') ->
    1 <= n <= 65535 -> (cs2 = true -> n <= 8192) ->
    n < Z.of_nat fuel -> 16 < Z.of_nat fuel ->
    chip (machine fw0) = sram_chip (addressBits (setSize n SRAMStrategy_new)) cs2 contents ->
    exists fw',
      handleTestCommand fuel (test_parameter includeRandom fullTest)
        (handleModeCommand ("SRAM " ++ dec n) fw0) = Some fw' /\
      (exists before, serial (machine fw') = before ++ [LineOK "All tests PASSED"]) /\
      fault_free (sramStrategy fw') (machine fw').
Proof.
  intros core n cs2 contents fuel incl full fw0 Hseed Hn Hcs2 Hfuel H16 Hchip.
  destruct (mode_accepts n fw0 Hn) as [A [B [C [D _]]]]. cbv zeta in A, B, C, D.
  assert (Hc : configured (setUARTHandler true (setSize n (sramStrategy fw0))))
    by (apply configured_setUARTHandler, setSize_configured; lia).
  assert (Hff0 : fault_free (setUARTHandler true (setSize n (sramStrategy fw0)))
                   (configurePins (machine fw0))).
  { apply (session_fault_free _ cs2 contents); [exact Hc | exact Hcs2 | exact Hchip]. }
  assert (Hf : enough_fuel (setUARTHandler true (setSize n (sramStrategy fw0))) fuel)
    by (split; [exact Hfuel | exact H16]).
  generalize dependent (configurePins (machine fw0)). intros m0 C D Hff0.
  generalize dependent (handleModeCommand ("SRAM " ++ dec n) fw0). intros fw A B C D.
  destruct (handleTestCommand_catalogue fuel incl full fw) as [l E].
  { rewrite B. reflexivity. }
  { rewrite B. reflexivity. }
  rewrite E, A.
  destruct (say_frame l fw) as [_ [_ [Sr [Sc _]]]].
  assert (Hff : fault_free (setUARTHandler true (setSize n (sramStrategy fw0)))
                  (machine (say l fw))).
  { apply (fault_free_same _ m0); [congruence | congruence | exact Hff0]. }
  destruct (runAllTests_passes Hseed _ fuel incl full _ Hc Hf Hff) as [m1 [R Hff1]].
  rewrite R. cbn [after_tests]. eexists. split; [reflexivity|].
  unfold with_machine. cbn [machine sramStrategy]. split.
  - exists (serial m1). rewrite serial_uart_send. reflexivity.
  - destruct (say_frame l fw) as [As _]. rewrite As, A.
    destruct (uart_send_frame (setUARTHandler true (setSize n (sramStrategy fw0)))
                (LineOK "All tests PASSED") m1) as [Ur [Uc _]].
    apply (fault_free_same _ m1); assumption.
Qed.

Lemma good_chip_session_witness :
  exists fw',
    handleTestCommand 20 (test_parameter true false)
      (handleModeCommand ("SRAM " ++ dec 8) (boot (sram_chip 3 true (fun _ => 0))))
      = Some fw' /\
    (exists before, serial (machine fw') = before ++ [LineOK "All tests PASSED"]) /\
    fault_free (sramStrategy fw') (machine fw').
Proof.
  apply (good_chip_session avr_core 8 true (fun _ => 0) 20 true false
           (boot (sram_chip 3 true (fun _ => 0)))).
  - intros g g'. reflexivity.
  - lia.
  - intros _. lia.
  - cbn. lia.
  - cbn. lia.
  - reflexivity.
Defined.

(** ** The failure line *)

Lemma length_dec_digits fuel : forall n acc k,
  (0 < k)%nat -> n < 10 ^ Z.of_nat k ->
  (String.length (dec_digits fuel n acc) <= String.length acc + k)%nat.
Proof.
  induction fuel as [|fuel IH]; intros n acc k Hk Hn; cbn [dec_digits]; [lia|].
  cbv zeta. destruct (Z.ltb_spec n 10) as [Hs|Hb]; [cbn [String.length]; lia|].
  destruct k as [|[|k]]; [lia | change (10 ^ Z.of_nat 1) with 10 in Hn; lia |].
  specialize (IH (n / 10) (String (digit_char (n mod 10)) acc) (S k) ltac:(lia)).
  cbn [String.length] in IH. rewrite Nat.add_succ_r.
  assert (Hq : n / 10 < 10 ^ Z.of_nat (S k)).
  { apply Z.div_lt_upper_bound; [lia|].
    rewrite (Nat2Z.inj_succ (S k)), Z.pow_succ_r in Hn by lia. exact Hn. }
  specialize (IH Hq). lia.
Qed.

Lemma length_hex w : forall n, String.length (hex w n) = w.
Proof.
  induction w as [|w IH]; intro n; cbn [hex]; [reflexivity|].
  rewrite string_length_app, IH. cbn [String.length]. lia.
Qed.

(** X22. The text [sendTestError] formats into its 80-byte buffer is at
    most 53 characters long for every test number that fits [uint8_t], so
    [sprintf] never writes past the buffer. *)
Theorem failure_line_fits_buffer :
  forall (s : SRAMStrategy) (testNumber addr expected actual : Z) (m : Machine),
    0 <= testNumber < 256 ->
    exists text,
      sendTestError s testNumber addr expected actual m = uart_send s (LineError text) m /\
      (String.length text <= 53)%nat.
Proof.
  intros s k addr expected actual m Hk. unfold sendTestError.
  eexists. split; [reflexivity|].
  rewrite !string_length_app, !length_hex.
  pose proof (length_dec_digits 12 k EmptyString 3 ltac:(lia)
                ltac:(change (10 ^ Z.of_nat 3) with 1000; lia)) as Hd.
  fold (dec k) in Hd. cbn [String.length] in Hd |- *. lia.
Qed.

Lemma failure_line_fits_buffer_witness :
  exists text,
    sendTestError sram8 6 0x1FFF 0xFF 0x00 bench8 = uart_send sram8 (LineError text) bench8 /\
    (String.length text <= 53)%nat.
Proof. apply (failure_line_fits_buffer sram8 6 0x1FFF 0xFF 0x00 bench8). lia. Defined.

(** ** Test numbers *)

Lemma all_digits_substring t : forall i n,
  all_digits t -> all_digits (String.substring i n t).
Proof.
  induction t as [|c t IH]; intros i n H.
  - destruct i, n; exact I.
  - destruct H as [Hc Ht]. destruct i as [|i]; [destruct n as [|n]|]; cbn [String.substring].
    + exact I.
    + split; [exact Hc | apply IH, Ht].
    + apply IH, Ht.
Qed.

Lemma endsWith_digits t : all_digits t -> endsWith "FULL" t = false.
Proof.
  intro H. unfold endsWith. destruct (_ <? _)%nat; [reflexivity|].
  apply String.eqb_neq. intro E.
  pose proof (all_digits_substring t (String.length t - String.length "FULL")
                (String.length "FULL") H) as Hs.
  rewrite E in Hs. destruct Hs as [Hf _]. vm_compute in Hf. discriminate Hf.
Qed.

Lemma digits_not_random t : all_digits t -> String.eqb t "RANDOM" = false.
Proof.
  intro H. apply String.eqb_neq. intro E. rewrite E in H.
  destruct H as [Hf _]. vm_compute in Hf. discriminate Hf.
Qed.

Lemma handleTestCommand_number {core : ArduinoCore} fuel k fw :
  currentMode (modeManager fw) = SRAM62256 ->
  currentStrategy (modeManager fw) = Some sramStrategy_ref ->
  0 <= k < 2147483648 ->
  handleTestCommand fuel (dec k) fw =
    if (1 <=? k mod 256) && (k mod 256 <=? 7) then
      after_tests (runTest fuel (sramStrategy fw) (k mod 256) false
                     (machine (say (LineInfo "Running single test (QUICK mode)...") fw)))
        (say (LineInfo "Running single test (QUICK mode)...") fw)
    else
      Some (say (LineInfo "Usage: TEST [FULL|RANDOM|RANDOM FULL|<1-7>|<1-7> FULL]")
              (say (LineError "Invalid TEST parameter") fw)).
Proof.
  intros Hm Hs Hk. unfold handleTestCommand. rewrite Hm, Hs. cbn [ICMode_eqb].
  pose proof (all_digits_dec k) as Hd. destruct (dec_cons k) as [c [rest E]].
  rewrite (trim_digits _ Hd), (endsWith_digits _ Hd). cbv zeta.
  rewrite (digits_not_random _ Hd).
  assert (Hl : (String.length (dec k) =? 0)%nat = false) by (rewrite E; reflexivity).
  rewrite Hl, toInt_dec by (change (10 ^ 12) with 1000000000000; lia).
  reflexivity.
Qed.

(** X23. The TEST command keeps only the low eight bits of a test
    number: in SRAM mode [TEST k] does exactly what [TEST (k mod 256)]
    does, so 257 runs pattern 1 and 256 is refused like 0. *)
Theorem test_number_modulo_256 :
  forall (core : ArduinoCore) (fuel : nat) (k : Z) (fw : Firmware),
    currentMode (modeManager fw) = SRAM62256 ->
    currentStrategy (modeManager fw) = Some sramStrategy_ref ->
    0 <= k < 2147483648 ->
    handleTestCommand fuel (dec k) fw = handleTestCommand fuel (dec (k mod 256)) fw.
Proof.
  intros core fuel k fw Hm Hs Hk.
  pose proof (Z.mod_pos_bound k 256 ltac:(lia)) as Hb.
  rewrite (handleTestCommand_number fuel k fw Hm Hs Hk).
  rewrite (handleTestCommand_number fuel (k mod 256) fw Hm Hs) by lia.
  rewrite Z.mod_mod by lia. reflexivity.
Qed.

Lemma test_number_modulo_256_witness :
  handleTestCommand 20 "257" (handleModeCommand "SRAM 8" (boot stuck_a1_chip)) =
  handleTestCommand 20 "1" (handleModeCommand "SRAM 8" (boot stuck_a1_chip)).
Proof.
  exact (test_number_modulo_256 avr_core 20 257
           (handleModeCommand "SRAM 8" (boot stuck_a1_chip))
           eq_refl eq_refl ltac:(lia)).
Defined.

(** ** The RESET command *)

Lemma chip_reset m : chip (reset m) = chip m.
Proof.
  unfold reset. rewrite chip_run_spec. unfold reset_code.
  do 2 (rewrite chip_run_cons;
        match goal with
        | |- context [react ?f ?c] =>
            rewrite (react_quiet f c)
              by (left; cbn [instr_regs set_reg Reg_eqb]; unfold control_mask;
                  bitwise; cbn [Z.eqb Pos.eqb orb]; rewrite ?orb_true_r; reflexivity)
        end).
  apply chip_run_nil.
Qed.

(** X24. RESET never touches the strategy, the mode or the memory in the
    socket.  With a mode and a strategy selected it leaves the port idle
    whatever state the registers were in; otherwise it leaves the
    registers alone. *)
Theorem reset_command_effect :
  forall (fw : Firmware),
    let fw' := handleResetCommand fw in
    sramStrategy fw' = sramStrategy fw /\
    modeManager fw' = modeManager fw /\
    chip (machine fw') = chip (machine fw) /\
    (exists l more, serial (machine fw') = serial (machine fw) ++ l :: more) /\
    if ICMode_eqb (currentMode (modeManager fw)) NONE then
      regs (machine fw') = regs (machine fw)
    else
      match currentStrategy (modeManager fw) with
      | None => regs (machine fw') = regs (machine fw)
      | Some _ => idle (machine fw')
      end.
Proof.
  intro fw. cbv zeta. unfold handleResetCommand.
  destruct (ICMode_eqb (currentMode (modeManager fw)) NONE).
  { repeat split. eexists _, _. cbn [say machine serial print_line].
    rewrite <- app_assoc. reflexivity. }
  destruct (currentStrategy (modeManager fw)) as [[]|].
  2: { repeat split. eexists _, _. reflexivity. }
  cbv zeta.
  assert (Hser : serial (reset (print_line (LineInfo "Resetting IC...") (machine fw)))
                 = serial (machine fw) ++ [LineInfo "Resetting IC..."])
    by (unfold reset; apply frame_run).
  pose proof (chip_reset (print_line (LineInfo "Resetting IC...") (machine fw))) as Hchip.
  pose proof (idle_reset (print_line (LineInfo "Resetting IC...") (machine fw))) as Hidle.
  change (machine (say (LineInfo "Resetting IC...") fw))
    with (print_line (LineInfo "Resetting IC...") (machine fw)).
  generalize dependent (reset (print_line (LineInfo "Resetting IC...") (machine fw))).
  intros m1 Hser Hchip Hidle.
  split; [reflexivity|]. split; [reflexivity|]. split; [exact Hchip|].
  split.
  - eexists _, _. cbn [say with_machine machine serial print_line].
    rewrite Hser, <- app_assoc. reflexivity.
  - apply (idle_same m1); [reflexivity | exact Hidle].
Qed.

(** ** Constant patterns and the address decoding *)

Lemma mem_write_any s addr data m j :
  responsive s m ->
  mem (writeByte s addr data m) j =
    if j =? cell_of s m addr then u8 data else mem m j.
Proof.
  intro Hr. unfold mem, cell_of. rewrite (writeByte_chip_any s addr data m Hr).
  cbn [cells store_cell]. destruct (j =? _); [apply u8_u8 | reflexivity].
Qed.

Lemma cell_of_same s m m' addr :
  addr_mask (chip m') = addr_mask (chip m) -> cell_of s m' addr = cell_of s m addr.
Proof. intro H. unfold cell_of. rewrite H. reflexivity. Qed.

(** After a write phase with a constant byte, the cell of every tested
    address holds the byte, however the addresses map to cells. *)
Lemma write_constant_phase s full v label :
  0 <= v < 256 ->
  forall l m (Q : Z -> Prop),
    responsive s m -> (forall c, Q c -> mem m c = v) ->
    exists m',
      iterate (write_body s full (constant v) label) l m = Some (Next m') /\
      responsive s m' /\ addr_mask (chip m') = addr_mask (chip m) /\
      (forall c, Q c -> mem m' c = v) /\
      (forall a, In a l -> shouldTestAddress s a full = true ->
         mem m' (cell_of s m a) = v).
Proof.
  intro Hv. induction l as [|x l IH]; intros m Q Hr HQ.
  - exists m. split; [reflexivity|]. split; [exact Hr|]. split; [reflexivity|].
    split; [exact HQ|]. intros a [].
  - cbn [iterate]. unfold write_body at 1.
    destruct (shouldTestAddress s x full) eqn:Hx; cbn [negb].
    + unfold constant at 1. cbv beta iota.
      pose proof (responsive_write s x v m Hr) as Hr2.
      pose proof (addr_mask_write s x v m Hr) as Hm2.
      destruct (progress_frame s full label x (writeByte s x v m)) as [Pr [Pc _]].
      pose proof (responsive_progress s full label x _ Hr2) as Hr3.
      destruct (IH (progress_update s full label x (writeByte s x v m))
                  (fun c => Q c \/ c = cell_of s m x) Hr3) as [m' [E [Hr' [Hm' [HQ' Hl]]]]].
      { intros c Hc. rewrite (mem_same _ _ c Pc), (mem_write_any s x v m c Hr).
        destruct (Z.eqb_spec c (cell_of s m x)) as [_|Ne]; [apply u8_small, Hv|].
        destruct Hc as [Hc|Hc]; [apply HQ, Hc | contradiction]. }
      exists m'. split; [exact E|]. split; [exact Hr'|].
      assert (Hmask : addr_mask (chip (progress_update s full label x (writeByte s x v m)))
                      = addr_mask (chip m)) by (rewrite Pc; exact Hm2).
      split; [rewrite Hm'; exact Hmask|].
      split; [intros c Hc; apply HQ'; left; exact Hc|].
      intros a [<-|Ha] Hs.
      * apply HQ'. right. reflexivity.
      * rewrite <- (cell_of_same s m _ a Hmask). apply Hl; assumption.
    + destruct (IH m Q Hr HQ) as [m' [E [Hr' [Hm' [HQ' Hl]]]]].
      exists m'. split; [exact E|]. split; [exact Hr'|]. split; [exact Hm'|].
      split; [exact HQ'|].
      intros a [<-|Ha] Hs; [congruence | apply Hl; assumption].
Qed.

Lemma verify_constant_phase s full n v label :
  forall l m,
    responsive s m ->
    (forall a, In a l -> shouldTestAddress s a full = true ->
       mem m (cell_of s m a) = v) ->
    exists m',
      iterate (verify_body s full n (constant v) label) l m = Some (Next m') /\
      responsive s m' /\ chip m' = chip m.
Proof.
  induction l as [|x l IH]; intros m Hr Hall.
  - exists m. split; [reflexivity|]. split; [exact Hr | reflexivity].
  - cbn [iterate]. unfold verify_body at 1.
    destruct (shouldTestAddress s x full) eqn:Hx; cbn [negb].
    + unfold constant at 1. cbv beta iota.
      destruct (readByte_any s x m Hr) as [Hval [Hr2 Hc2]].
      destruct (readByte s x m) as [actual m2]. cbn [fst snd] in Hval, Hr2, Hc2.
      rewrite Hval, (Hall x (or_introl eq_refl) Hx), Z.eqb_refl. cbn [negb].
      destruct (progress_frame s full label x m2) as [_ [Pc _]].
      destruct (IH _ (responsive_progress s full label x m2 Hr2)) as [m' [E [Hr' Hc']]].
      { intros a Ha Hs. unfold cell_of, mem. rewrite Pc, Hc2.
        apply Hall; [right; exact Ha | exact Hs]. }
      exists m'. split; [exact E|]. split; [exact Hr'|]. congruence.
    + apply IH; [exact Hr|]. intros a Ha Hs. apply Hall; [right; exact Ha | exact Hs].
Qed.

(** One round of a checkerboard pattern: write the byte everywhere, then
    verify it everywhere. *)
Lemma constant_round_any s full n v wlabel vlabel l m :
  0 <= v < 256 -> responsive s m ->
  exists m1 m2,
    iterate (write_body s full (constant v) wlabel) l m = Some (Next m1) /\
    iterate (verify_body s full n (constant v) vlabel) l m1 = Some (Next m2) /\
    responsive s m2.
Proof.
  intros Hv Hr.
  destruct (write_constant_phase s full v wlabel Hv l m (fun _ => False) Hr)
    as [m1 [E1 [Hr1 [Hm1 [_ Hl]]]]]; [intros c []|].
  destruct (verify_constant_phase s full n v vlabel l m1 Hr1) as [m2 [E2 [Hr2 _]]].
  { intros a Ha Hs. rewrite (cell_of_same s m m1 a Hm1). apply Hl; assumption. }
  exists m1, m2. split; [exact E1|]. split; [exact E2 | exact Hr2].
Qed.

(** X25. The two checkerboard patterns write one byte to every tested
    address before they verify it, so they too pass on every memory that
    answers on the bus, however it decodes its address lines: of the
    patterns without random data only AddressEqualsData can see an
    addressing fault. *)
Theorem constant_patterns_ignore_decoding :
  forall (s : SRAMStrategy) (fuel : nat) (fullTest : bool) (m : Machine),
    configured s -> enough_fuel s fuel -> responsive s m ->
    (exists m', testCheckerboard fuel s fullTest m = Some (true, m')) /\
    (exists m', testInverseCheckerboard fuel s fullTest m = Some (true, m')).
Proof.
  intros s fuel full m Hc Hf Hr. split.
  - unfold testCheckerboard, checkerboard_first_write. cbv zeta.
    rewrite address_loop_iterate by assumption.
    destruct (constant_round_any s full 4 0x55 (Some "Test 4 (write 0x55)"%string)
                (Some "Test 4 (verify 0x55)"%string) (addresses s) _ ltac:(lia)
                (responsive_start s 4 full m Hr)) as [m1 [m2 [E1 [E2 Hr2]]]].
    rewrite E1. cbn [and_then]. rewrite address_loop_iterate by assumption.
    rewrite E2. cbn [and_then]. rewrite address_loop_iterate by assumption.
    destruct (constant_round_any s full 4 0xAA None None (addresses s) m2 ltac:(lia) Hr2)
      as [m3 [m4 [E3 [E4 _]]]].
    rewrite E3. cbn [and_then]. rewrite address_loop_iterate by assumption.
    rewrite E4. cbn [and_then]. eexists. reflexivity.
  - unfold testInverseCheckerboard. cbv zeta.
    rewrite address_loop_iterate by assumption.
    destruct (constant_round_any s full 5 0xAA (Some "Test 5 (write 0xAA)"%string)
                (Some "Test 5 (verify 0xAA)"%string) (addresses s) _ ltac:(lia)
                (responsive_start s 5 full m Hr)) as [m1 [m2 [E1 [E2 Hr2]]]].
    rewrite E1. cbn [and_then]. rewrite address_loop_iterate by assumption.
    rewrite E2. cbn [and_then]. rewrite address_loop_iterate by assumption.
    destruct (constant_round_any s full 5 0x55 None None (addresses s) m2 ltac:(lia) Hr2)
      as [m3 [m4 [E3 [E4 _]]]].
    rewrite E3. cbn [and_then]. rewrite address_loop_iterate by assumption.
    rewrite E4. cbn [and_then]. eexists. reflexivity.
Qed.

Lemma constant_patterns_ignore_decoding_witness :
  exists m',
    testCheckerboard 20 sram8 false (configurePins (power_on stuck_a1_chip))
      = Some (true, m').
Proof.
  exact (proj1 (constant_patterns_ignore_decoding sram8 20 false
                  (configurePins (power_on stuck_a1_chip))
                  sram8_configured sram8_fuel stuck_a1_responsive)).
Defined.
